(** * The Thrift JSON and JSON-RPC protocols (C++ library): a shallow embedding

    Sources embedded here:
    - [lib/cpp/src/thrift/protocol/TJSONUtils.{h,cpp}]: the lookahead reader,
      the three grammar contexts, the context stack and the primitive
      writers and readers;
    - [lib/cpp/src/thrift/protocol/TJSONProtocol.cpp]: the base protocol;
    - [lib/cpp/src/thrift/protocol/TJSONRPCProtocol.{h,cpp}]: the JSON-RPC
      envelope.

    Conventions.  A byte ([uint8_t], [char]) is an [ascii]; a [std::string]
    and the content of a transport are [string]s.  Objects are mutated in
    place in the source; here every method is a computation in a state and
    error monad whose state survives a [throw], so that the state an object
    is left in when an exception propagates can be observed.  Every method of
    the source also returns the number of bytes it moved ([uint32_t result]);
    nothing below depends on those counters and the embedded methods return
    their out-parameters only.  An out-parameter is the result of a
    successful call; what a failed call has already stored in it is not
    represented. *)

From Stdlib Require Import ZArith NArith List String Ascii Bool Lia Permutation.
From Stdlib Require PrimFloat FloatClass.
Import ListNotations.

Open Scope string_scope.

(** ** Errors and the state-and-error monad *)

(** The kinds of [TProtocolException] the protocols raise, the transport's
    end-of-file, and three outcomes that are not exceptions of the source:
    a read outside a string's storage and a [top()] of an empty [std::stack]
    (both undefined behaviour in C++), and the exhaustion of the fuel that
    bounds the loops of the embedding. *)
Inductive error : Type :=
| BAD_VERSION
| INVALID_DATA
| SIZE_LIMIT
| NOT_IMPLEMENTED
| END_OF_FILE
| OUT_OF_BOUNDS (index : N)
| EMPTY_STACK
| OUT_OF_FUEL.

Inductive result (A : Type) : Type :=
| Ok (a : A)
| Err (e : error).
Arguments Ok {A} a.
Arguments Err {A} e.

Definition M (S A : Type) : Type := S -> result A * S.

Definition ret {S A : Type} (a : A) : M S A := fun s => (Ok a, s).

Definition bind {S A B : Type} (m : M S A) (k : A -> M S B) : M S B :=
  fun s => match m s with
           | (Ok a, s') => k a s'
           | (Err e, s') => (Err e, s')
           end.

Definition throw {S A : Type} (e : error) : M S A := fun s => (Err e, s).
Definition get {S : Type} : M S S := fun s => (Ok s, s).
Definition modify {S : Type} (f : S -> S) : M S unit := fun s => (Ok tt, f s).

Declare Scope monad_scope.
Delimit Scope monad_scope with monad.
Notation "x <- m ;; k" := (bind m (fun x => k))
  (at level 61, m at next level, right associativity) : monad_scope.
Notation "m ;; k" := (bind m (fun _ => k))
  (at level 61, right associativity) : monad_scope.
Open Scope monad_scope.

(** Runs [m] on a component of the state selected by [proj] and written back
    by [upd]. *)
Definition zoom {S T A : Type} (proj : S -> T) (upd : T -> S -> S) (m : M T A)
  : M S A :=
  fun s => let '(r, t) := m (proj s) in (r, upd t s).

(** ** Bytes *)

Definition UINT32_MAX : N := 4294967295.

Definition kJSONObjectStart : ascii := "{".
Definition kJSONObjectEnd : ascii := "}".
Definition kJSONArrayStart : ascii := "[".
Definition kJSONArrayEnd : ascii := "]".
Definition kJSONPairSeparator : ascii := ":".
Definition kJSONElemSeparator : ascii := ",".
Definition kJSONBackslash : ascii := "\".
Definition kJSONStringDelimiter : ascii := "034".
Definition kJSONZeroChar : ascii := "0".
Definition kJSONEscapeChar : ascii := "u".

Definition str1 (c : ascii) : string := String c "".

(** [quoted s] is [s] between two string delimiters. *)
Definition quoted (s : string) : string :=
  String kJSONStringDelimiter (s ++ str1 kJSONStringDelimiter).

Definition code (c : ascii) : N := N_of_ascii c.

(** The length of a [std::string], as the unsigned number the source compares
    with [numeric_limits<uint32_t>::max()]. *)
Definition size (s : string) : N := N.of_nat (String.length s).

(** ** Integers as decimal text ([boost::lexical_cast])

    [boost::lexical_cast<std::string>] of an integer type prints its decimal
    digits, with a leading minus sign for a negative value.  Every
    [NumberType] the source instantiates has at most 64 bits, hence at most
    20 digits, which is the bound of the digit loop below. *)

Fixpoint decimal_digits (fuel : nat) (n : N) (acc : string) : string :=
  match fuel with
  | O => acc
  | S fuel' =>
      let acc' := String (ascii_of_N (48 + n mod 10)) acc in
      if (n / 10 =? 0)%N then acc' else decimal_digits fuel' (n / 10) acc'
  end.

Definition lexical_cast_string (z : Z) : string :=
  if (z <? 0)%Z then String "-" (decimal_digits 20 (Z.abs_N z) "")
  else decimal_digits 20 (Z.to_N z) "".

Definition is_digit (c : ascii) : bool :=
  ((48 <=? code c) && (code c <=? 57))%N.

Fixpoint digits_value (s : string) (acc : N) : option N :=
  match s with
  | "" => Some acc
  | String c s' =>
      if is_digit c then digits_value s' (10 * acc + (code c - 48))%N
      else None
  end.

(** Sign and magnitude of a decimal literal: an optional [+] or [-] and at
    least one digit, nothing else. *)
Definition parse_decimal (s : string) : option (bool * N) :=
  let body neg s' :=
    match s' with
    | "" => None
    | _ => option_map (fun n => (neg, n)) (digits_value s' 0%N)
    end in
  match s with
  | String "-" s' => body true s'
  | String "+" s' => body false s'
  | _ => body false s
  end.

(** [lexical_cast] to a signed type of [bits] bits: out of range is a
    [bad_lexical_cast] ([None]). *)
Definition lexical_cast_signed (bits : N) (s : string) : option Z :=
  match parse_decimal s with
  | None => None
  | Some (neg, n) =>
      let z := if neg then (- Z.of_N n)%Z else Z.of_N n in
      if ((- 2 ^ (Z.of_N bits - 1) <=? z) && (z <? 2 ^ (Z.of_N bits - 1)))%Z
      then Some z else None
  end.

(** [lexical_cast] to an unsigned type of [bits] bits: the magnitude must
    fit, and a minus sign negates it modulo [2^bits], as boost documents. *)
Definition lexical_cast_unsigned (bits : N) (s : string) : option Z :=
  match parse_decimal s with
  | None => None
  | Some (neg, n) =>
      if (n <? 2 ^ bits)%N then
        Some (if neg then ((- Z.of_N n) mod 2 ^ Z.of_N bits)%Z else Z.of_N n)
      else None
  end.

(** ** The lookahead reader and the contexts ([TJSONUtils.h]) *)

Record LookaheadReader : Type := mkReader {
  hasData_ : bool;
  data_ : ascii
}.

Definition new_reader : LookaheadReader := mkReader false Ascii.zero.

(** The dynamic class of a context object. *)
Inductive context_class : Type :=
| JSONContext      (* TJSONContext: the bare root *)
| JSONPairContext  (* TJSONPairContext *)
| JSONListContext. (* TJSONListContext *)

Record TJSONContext : Type := mkContext {
  class_ : context_class;
  first_ : bool;
  colon_ : bool;
  reader_ : LookaheadReader
}.

Definition new_TJSONContext : TJSONContext :=
  mkContext JSONContext true true new_reader.
Definition new_TJSONPairContext : TJSONContext :=
  mkContext JSONPairContext true true new_reader.
Definition new_TJSONListContext : TJSONContext :=
  mkContext JSONListContext true true new_reader.

(** A context together with the transport it was built on: the state a
    method of [TJSONContext] acts on.  [trans_] is the content of the
    transport: [write] appends to it and [readAll] consumes it from the
    front, as with the [TMemoryBuffer] of the tests. *)
Record context_io : Type := mkIO {
  this : TJSONContext;
  trans_ : string
}.

Definition set_first (b : bool) : M context_io unit :=
  modify (fun s => mkIO (mkContext (class_ (this s)) b (colon_ (this s))
                                   (reader_ (this s))) (trans_ s)).
Definition set_colon (b : bool) : M context_io unit :=
  modify (fun s => mkIO (mkContext (class_ (this s)) (first_ (this s)) b
                                   (reader_ (this s))) (trans_ s)).
Definition set_reader (r : LookaheadReader) : M context_io unit :=
  modify (fun s => mkIO (mkContext (class_ (this s)) (first_ (this s))
                                   (colon_ (this s)) r) (trans_ s)).

(** [trans_->write(buf, len)] *)
Definition write (bytes : string) : M context_io unit :=
  modify (fun s => mkIO (this s) (trans_ s ++ bytes)).

(** [trans_->readAll(&data_, 1)]: one byte, or end of file. *)
Definition readAll1 : M context_io ascii :=
  fun s => match trans_ s with
           | "" => (Err END_OF_FILE, s)
           | String c rest => (Ok c, mkIO (this s) rest)
           end.

(** [LookaheadReader::read] *)
Definition reader_read : M context_io ascii :=
  s <- get ;;
  if hasData_ (reader_ (this s)) then
    set_reader (mkReader false (data_ (reader_ (this s)))) ;;
    ret (data_ (reader_ (this s)))
  else
    c <- readAll1 ;;
    set_reader (mkReader false c) ;;
    ret c.

(** [LookaheadReader::peek] *)
Definition reader_peek : M context_io ascii :=
  s <- get ;;
  if hasData_ (reader_ (this s)) then
    ret (data_ (reader_ (this s)))
  else
    c <- readAll1 ;;
    set_reader (mkReader true c) ;;
    ret c.

(** [readSyntaxChar] *)
Definition readSyntaxChar (ch : ascii) : M context_io unit :=
  ch2 <- reader_read ;;
  if Ascii.eqb ch2 ch then ret tt else throw INVALID_DATA.

(** [writeNext], by dynamic class. *)
Definition writeNext : M context_io unit :=
  s <- get ;;
  match class_ (this s) with
  | JSONContext => ret tt
  | JSONPairContext =>
      if first_ (this s) then
        set_first false ;; set_colon true
      else
        write (str1 (if colon_ (this s) then kJSONPairSeparator
                     else kJSONElemSeparator)) ;;
        set_colon (negb (colon_ (this s)))
  | JSONListContext =>
      if first_ (this s) then set_first false
      else write (str1 kJSONElemSeparator)
  end.

(** [readNext], by dynamic class. *)
Definition readNext : M context_io unit :=
  s <- get ;;
  match class_ (this s) with
  | JSONContext => ret tt
  | JSONPairContext =>
      if first_ (this s) then
        set_first false ;; set_colon true
      else
        let ch := if colon_ (this s) then kJSONPairSeparator
                  else kJSONElemSeparator in
        set_colon (negb (colon_ (this s))) ;;
        readSyntaxChar ch
  | JSONListContext =>
      if first_ (this s) then set_first false
      else readSyntaxChar kJSONElemSeparator
  end.

(** [escapeNum], by dynamic class. *)
Definition escapeNum (c : TJSONContext) : bool :=
  match class_ c with
  | JSONPairContext => colon_ c
  | _ => false
  end.

Definition opener (k : context_class) : ascii :=
  match k with
  | JSONListContext => kJSONArrayStart
  | _ => kJSONObjectStart
  end.

Definition closer (k : context_class) : ascii :=
  match k with
  | JSONListContext => kJSONArrayEnd
  | _ => kJSONObjectEnd
  end.

(** [writeEnd] and [readEnd] of the current context. *)
Definition writeEnd : M context_io unit :=
  s <- get ;; write (str1 (closer (class_ (this s)))).

Definition readEnd : M context_io unit :=
  s <- get ;; readSyntaxChar (closer (class_ (this s))).

(** ** Type tags ([TType] of [TProtocol.h]) and their names *)

Inductive TType : Type :=
| T_STOP | T_VOID | T_BOOL | T_BYTE | T_DOUBLE | T_I16 | T_I32 | T_U64
| T_I64 | T_STRING | T_STRUCT | T_MAP | T_SET | T_LIST | T_UTF8 | T_UTF16.

Definition kTypeNameBool : string := "tf".
Definition kTypeNameByte : string := "i8".
Definition kTypeNameI16 : string := "i16".
Definition kTypeNameI32 : string := "i32".
Definition kTypeNameI64 : string := "i64".
Definition kTypeNameDouble : string := "dbl".
Definition kTypeNameStruct : string := "rec".
Definition kTypeNameString : string := "str".
Definition kTypeNameMap : string := "map".
Definition kTypeNameList : string := "lst".
Definition kTypeNameSet : string := "set".

Definition getTypeNameForTypeID (typeID : TType) : result string :=
  match typeID with
  | T_BOOL => Ok kTypeNameBool
  | T_BYTE => Ok kTypeNameByte
  | T_I16 => Ok kTypeNameI16
  | T_I32 => Ok kTypeNameI32
  | T_I64 => Ok kTypeNameI64
  | T_DOUBLE => Ok kTypeNameDouble
  | T_STRING => Ok kTypeNameString
  | T_STRUCT => Ok kTypeNameStruct
  | T_MAP => Ok kTypeNameMap
  | T_SET => Ok kTypeNameSet
  | T_LIST => Ok kTypeNameList
  | _ => Err NOT_IMPLEMENTED
  end.

(** [getTypeIDForTypeName]: [T_STOP] is the sentinel of the source; the two
    nested switches look at [name[0]] and [name[1]] only. *)
Definition getTypeIDForTypeName (name : string) : result TType :=
  let result :=
    match name with
    | String c0 (String c1 _) =>     (* name.length() > 1 *)
        match c0 with
        | "d"%char => T_DOUBLE
        | "i"%char =>
            match c1 with
            | "8"%char => T_BYTE
            | "1"%char => T_I16
            | "3"%char => T_I32
            | "6"%char => T_I64
            | _ => T_STOP
            end
        | "l"%char => T_LIST
        | "m"%char => T_MAP
        | "r"%char => T_STRUCT
        | "s"%char =>
            if Ascii.eqb c1 "t" then T_STRING
            else if Ascii.eqb c1 "e" then T_SET
            else T_STOP
        | "t"%char => T_BOOL
        | _ => T_STOP
        end
    | _ => T_STOP
    end in
  match result with
  | T_STOP => Err NOT_IMPLEMENTED
  | t => Ok t
  end.

(** ** Primitive writers ([TJSONUtils.cpp]) *)

(** [kJSONCharTable], indexed by the first 0x30 byte values. *)
Definition kJSONCharTable (i : N) : N :=
  match i with
  | 8 => code "b" | 9 => code "t" | 10 => code "n"
  | 12 => code "f" | 13 => code "r"
  | 34 => code kJSONStringDelimiter
  | _ => if (32 <=? i)%N then 1 else 0
  end%N.

Definition kJSONEscapePrefix : string := "\u00".

(** [hexChar]: the value is masked with [0x0F] first. *)
Definition hexChar (val : N) : ascii :=
  let val := N.land val 15 in
  if (val <? 10)%N then ascii_of_N (val + code "0")
  else ascii_of_N (val - 10 + code "a").

(** [hexVal]: only [0-9a-f]. *)
Definition hexVal (ch : ascii) : result N :=
  if ((code "0" <=? code ch) && (code ch <=? code "9"))%N then
    Ok (code ch - code "0")%N
  else if ((code "a" <=? code ch) && (code ch <=? code "f"))%N then
    Ok (code ch - code "a" + 10)%N
  else Err INVALID_DATA.

Definition writeEscapeChar (ch : ascii) : M context_io unit :=
  write kJSONEscapePrefix ;;
  write (str1 (hexChar (N.shiftr (code ch) 4))) ;;
  write (str1 (hexChar (code ch))).

Definition writeChar (ch : ascii) : M context_io unit :=
  if (48 <=? code ch)%N then
    if Ascii.eqb ch kJSONBackslash then
      write (str1 kJSONBackslash) ;; write (str1 kJSONBackslash)
    else write (str1 ch)
  else
    let outCh := kJSONCharTable (code ch) in
    if (outCh =? 1)%N then write (str1 ch)
    else if (1 <? outCh)%N then
      write (str1 kJSONBackslash) ;; write (str1 (ascii_of_N outCh))
    else writeEscapeChar ch.

(** The iteration [while (iter != end)] over the bytes of a string. *)
Fixpoint for_each {S : Type} (f : ascii -> M S unit) (str : string)
  : M S unit :=
  match str with
  | "" => ret tt
  | String c rest => f c ;; for_each f rest
  end.

Definition writeString (str : string) : M context_io unit :=
  writeNext ;;
  write (str1 kJSONStringDelimiter) ;;
  for_each writeChar str ;;
  write (str1 kJSONStringDelimiter).

Definition writeTypeID (typeID : TType) : M context_io unit :=
  match getTypeNameForTypeID typeID with
  | Ok name => writeString name
  | Err e => throw e
  end.

(** [writeInteger<NumberType>] for the number types the protocols call it
    with (bool, the signed types of 16, 32 and 64 bits, uint32_t and
    [TMessageType]): the number is given by its value and printed in
    decimal.  The instantiation for int8_t, which prints the byte as a
    character, is called by no protocol method ([writeByte] widens to
    int16_t first). *)
Definition writeInteger (num : Z) : M context_io unit :=
  writeNext ;;
  let val := lexical_cast_string num in
  s <- get ;;
  let esc := escapeNum (this s) in
  (if esc then write (str1 kJSONStringDelimiter) else ret tt) ;;
  (if (UINT32_MAX <? size val)%N then throw SIZE_LIMIT else ret tt) ;;
  write val ;;
  (if esc then write (str1 kJSONStringDelimiter) else ret tt).

Definition Z_of_bool (b : bool) : Z := if b then 1%Z else 0%Z.

(** *** Doubles

    A [double] is a primitive binary64 float.  The text of a finite double
    comes from [operator<<] of a [std::ostringstream] imbued with the classic
    locale: that formatter belongs to the C++ library and is a parameter
    here, applied to the precision the source sets. *)

Inductive fp_category : Type :=
| FP_INFINITE | FP_NAN | FP_ZERO | FP_SUBNORMAL | FP_NORMAL.

(** [boost::math::fpclassify] *)
Definition fpclassify (d : PrimFloat.float) : fp_category :=
  match PrimFloat.classify d with
  | FloatClass.PInf | FloatClass.NInf => FP_INFINITE
  | FloatClass.NaN => FP_NAN
  | FloatClass.PZero | FloatClass.NZero => FP_ZERO
  | FloatClass.PSubn | FloatClass.NSubn => FP_SUBNORMAL
  | FloatClass.PNormal | FloatClass.NNormal => FP_NORMAL
  end.

(** [boost::math::signbit], which the source consults for infinities only. *)
Definition signbit (d : PrimFloat.float) : bool :=
  match PrimFloat.classify d with
  | FloatClass.NInf | FloatClass.NZero | FloatClass.NSubn
  | FloatClass.NNormal => true
  | _ => false
  end.

Definition kThriftNan : string := "NaN".
Definition kThriftInfinity : string := "Infinity".
Definition kThriftNegativeInfinity : string := "-Infinity".

(** [std::numeric_limits<double>::digits10] *)
Definition digits10 : Z := 15.

Section Double.

(** [ostream_double p d]: what [str << d] appends at precision [p] in the
    classic locale. *)
Variable ostream_double : Z -> PrimFloat.float -> string.

Definition doubleToString (d : PrimFloat.float) : string :=
  let max_digits10 := (2 + digits10)%Z in
  ostream_double max_digits10 d.

Definition writeDouble (num : PrimFloat.float) : M context_io unit :=
  writeNext ;;
  let '(val, special) :=
    match fpclassify num with
    | FP_INFINITE =>
        (if signbit num then kThriftNegativeInfinity else kThriftInfinity,
         true)
    | FP_NAN => (kThriftNan, true)
    | _ => (doubleToString num, false)
    end in
  s <- get ;;
  let esc := special || escapeNum (this s) in
  (if esc then write (str1 kJSONStringDelimiter) else ret tt) ;;
  (if (UINT32_MAX <? size val)%N then throw SIZE_LIMIT else ret tt) ;;
  write val ;;
  (if esc then write (str1 kJSONStringDelimiter) else ret tt).

End Double.

(** *** Base64

    [base64_encode] and [base64_decode] are defined in TBase64Utils.cpp,
    which is not among the sources; only their callers [writeBase64] and
    [readBase64] are.  They are modelled from the spec, which has the
    writer encode a 3-byte group to 4 Base64 bytes and a 1- or 2-byte
    remainder to 2 or 3 Base64 bytes, and the reader decode a 4-byte group
    to 3 bytes and a 2- or 3-byte remainder to 1 or 2 bytes; the alphabet
    and the packing of 6-bit digits are those of standard Base64. *)

(** Modelled from the spec: the Base64 alphabet, the encoding table of
    TBase64Utils.cpp. *)
Definition kBase64EncodeTable : string :=
  "ABCDEFGHIJKLMNOPQRSTUVWXYZabcdefghijklmnopqrstuvwxyz0123456789+/".

(** Modelled from the spec: the byte of a 6-bit digit, a look-up in the
    alphabet of TBase64Utils.cpp. *)
Definition encode_digit (v : N) : ascii :=
  match String.get (N.to_nat (N.land v 63)) kBase64EncodeTable with
  | Some c => c
  | None => Ascii.zero
  end.

(** [std::string::find] of one byte, from position [i]. *)
Fixpoint index_of (c : ascii) (table : string) (i : N) : option N :=
  match table with
  | "" => None
  | String c' rest => if Ascii.eqb c c' then Some i
                      else index_of c rest (i + 1)%N
  end.

(** Modelled from the spec: the decoding table of TBase64Utils.cpp, the
    inverse of the alphabet; a byte outside the alphabet decodes as the
    digit value [0xff]. *)
Definition kBase64DecodeTable (c : ascii) : N :=
  match index_of c kBase64EncodeTable 0%N with
  | Some v => v
  | None => 255%N
  end.

(** Modelled from the spec: [base64_encode(in, len, buf)] for [len] in 1..3;
    the result is the [len + 1] bytes of [buf] that are written. *)
Definition base64_encode (input : string) : string :=
  match input with
  | String a (String b (String c _)) =>
      let '(a, b, c) := (code a, code b, code c) in
      String (encode_digit (N.shiftr a 2))
        (String (encode_digit (N.lor (N.land (N.shiftl a 4) 48) (N.shiftr b 4)))
           (String (encode_digit
                      (N.lor (N.land (N.shiftl b 2) 60) (N.shiftr c 6)))
              (String (encode_digit (N.land c 63)) "")))
  | String a (String b "") =>
      let '(a, b) := (code a, code b) in
      String (encode_digit (N.shiftr a 2))
        (String (encode_digit (N.lor (N.land (N.shiftl a 4) 48) (N.shiftr b 4)))
           (String (encode_digit (N.land (N.shiftl b 2) 60)) ""))
  | String a "" =>
      let a := code a in
      String (encode_digit (N.shiftr a 2))
        (String (encode_digit (N.land (N.shiftl a 4) 48)) "")
  | "" => ""
  end.

Definition uint8 (n : N) : ascii := ascii_of_N (N.land n 255).

(** Modelled from the spec: [base64_decode(buf, len)] for [len] in 2..4; the
    result is the [len - 1] decoded bytes. *)
Definition base64_decode (buf : string) : string :=
  let d := kBase64DecodeTable in
  match buf with
  | String b0 (String b1 rest) =>
      String (uint8 (N.lor (N.shiftl (d b0) 2) (N.shiftr (d b1) 4)))
        match rest with
        | String b2 rest' =>
            String (uint8 (N.lor (N.land (N.shiftl (d b1) 4) 240)
                                 (N.shiftr (d b2) 2)))
              match rest' with
              | String b3 _ =>
                  String (uint8 (N.lor (N.land (N.shiftl (d b2) 6) 192)
                                       (d b3))) ""
              | "" => ""
              end
        | "" => ""
        end
  | _ => ""
  end.

(** The loop [while (len >= 3)] of [writeBase64] and its remainder: [bytes]
    is the part of the string not yet encoded and [len] its length. *)
Fixpoint writeBase64_groups (bytes : string) : M context_io unit :=
  match bytes with
  | String a (String b (String c rest)) =>
      write (base64_encode (String a (String b (String c "")))) ;;
      writeBase64_groups rest
  | "" => ret tt
  | remainder => write (base64_encode remainder)
  end.

Definition writeBase64 (str : string) : M context_io unit :=
  writeNext ;;
  write (str1 kJSONStringDelimiter) ;;
  (if (UINT32_MAX <? size str)%N then throw SIZE_LIMIT else ret tt) ;;
  writeBase64_groups str ;;
  write (str1 kJSONStringDelimiter).

(** ** Primitive readers ([TJSONUtils.cpp]) *)

Definition isJSONNumeric (ch : ascii) : bool :=
  match ch with
  | "+"%char | "-"%char | "."%char
  | "0"%char | "1"%char | "2"%char | "3"%char | "4"%char
  | "5"%char | "6"%char | "7"%char | "8"%char | "9"%char
  | "E"%char | "e"%char => true
  | _ => false
  end.

Definition isHighSurrogate (val : N) : bool :=
  ((55296 <=? val) && (val <=? 56319))%N.   (* 0xD800 .. 0xDBFF *)

Definition isLowSurrogate (val : N) : bool :=
  ((56320 <=? val) && (val <=? 57343))%N.   (* 0xDC00 .. 0xDFFF *)

(** [kEscapeChars] and [kEscapeCharVals] *)
Definition kEscapeChars : string :=
  String kJSONStringDelimiter "\bfnrt".
Definition kEscapeCharVals : list ascii :=
  [kJSONStringDelimiter; "\"%char; "008"%char; "012"%char; "010"%char;
   "013"%char; "009"%char].

(** [readEscapeChar]: the four bytes are read first, then converted. *)
Definition readEscapeChar : M context_io N :=
  b0 <- reader_read ;;
  b1 <- reader_read ;;
  b2 <- reader_read ;;
  b3 <- reader_read ;;
  match hexVal b0, hexVal b1, hexVal b2, hexVal b3 with
  | Ok h0, Ok h1, Ok h2, Ok h3 =>
      ret (N.shiftl h0 12 + N.shiftl h1 8 + N.shiftl h2 4 + h3)%N
  | _, _, _, _ => throw INVALID_DATA
  end.

(** *** UTF-16 to UTF-8 ([boost::locale::conv::utf_to_utf<char>])

    The conversion is boost's, called on a pointer to NUL-terminated code
    units with the default method, which skips what it cannot decode: a
    lone low surrogate is dropped, and a high surrogate is dropped together
    with the unit after it when that unit is not a low surrogate. *)

Fixpoint until_nul (units : list N) : list N :=
  match units with
  | [] => []
  | u :: rest => if (u =? 0)%N then [] else u :: until_nul rest
  end.

Fixpoint utf16_decode (units : list N) : list N :=
  match units with
  | [] => []
  | w1 :: rest =>
      if ((w1 <? 55296) || (57343 <? w1))%N then w1 :: utf16_decode rest
      else if (56319 <? w1)%N then utf16_decode rest
      else
        match rest with
        | [] => []
        | w2 :: rest' =>
            if ((w2 <? 56320) || (57343 <? w2))%N then utf16_decode rest'
            else (65536 + N.shiftl (N.land w1 1023) 10 + N.land w2 1023)%N
                 :: utf16_decode rest'
        end
  end.

Definition utf8_encode (cp : N) : string :=
  if (cp <=? 127)%N then str1 (ascii_of_N cp)
  else if (cp <=? 2047)%N then
    String (ascii_of_N (N.lor (N.shiftr cp 6) 192))
      (str1 (ascii_of_N (N.lor (N.land cp 63) 128)))
  else if (cp <=? 65535)%N then
    String (ascii_of_N (N.lor (N.shiftr cp 12) 224))
      (String (ascii_of_N (N.lor (N.land (N.shiftr cp 6) 63) 128))
         (str1 (ascii_of_N (N.lor (N.land cp 63) 128))))
  else
    String (ascii_of_N (N.lor (N.shiftr cp 18) 240))
      (String (ascii_of_N (N.lor (N.land (N.shiftr cp 12) 63) 128))
         (String (ascii_of_N (N.lor (N.land (N.shiftr cp 6) 63) 128))
            (str1 (ascii_of_N (N.lor (N.land cp 63) 128))))).

Definition utf_to_utf (units : list N) : string :=
  String.concat "" (map utf8_encode (utf16_decode (until_nul units))).

(** The [while (true)] loop of [readString]; [codeunits] and [str] are its
    two accumulators.  One turn consumes at least one byte, and [fuel]
    bounds the number of turns. *)
Fixpoint readString_loop (fuel : nat) (codeunits : list N) (str : string)
  : M context_io string :=
  match fuel with
  | O => throw OUT_OF_FUEL
  | S fuel' =>
      ch <- reader_read ;;
      if Ascii.eqb ch kJSONStringDelimiter then
        (* break; the test after the loop *)
        match codeunits with
        | [] => ret str
        | _ => throw INVALID_DATA           (* missing low surrogate *)
        end
      else
        let plain (ch : ascii) : M context_io string :=
          match codeunits with
          | [] => readString_loop fuel' codeunits (str ++ str1 ch)
          | _ => throw INVALID_DATA         (* missing low surrogate *)
          end in
        if Ascii.eqb ch kJSONBackslash then
          ch <- reader_read ;;
          if Ascii.eqb ch kJSONEscapeChar then
            cp <- readEscapeChar ;;
            if isHighSurrogate cp then
              readString_loop fuel' (codeunits ++ [cp]) str
            else
              match isLowSurrogate cp, codeunits with
              | true, [] => throw INVALID_DATA   (* missing high surrogate *)
              | _, _ =>
                  readString_loop fuel' []
                    (str ++ utf_to_utf (codeunits ++ [cp; 0%N]))
              end
          else
            match index_of ch kEscapeChars 0%N with
            | None => throw INVALID_DATA
            | Some pos => plain (nth (N.to_nat pos) kEscapeCharVals ch)
            end
        else plain ch
  end.

(** One byte may sit in the lookahead reader besides those in the
    transport. *)
Definition input_fuel (s : context_io) : nat := S (S (String.length (trans_ s))).

Definition readString (skipContext : bool) : M context_io string :=
  (if skipContext then ret tt else readNext) ;;
  readSyntaxChar kJSONStringDelimiter ;;
  s <- get ;;
  readString_loop (input_fuel s) [] "".

Definition readTypeID : M context_io TType :=
  tmpString <- readString false ;;
  match getTypeIDForTypeName tmpString with
  | Ok typeID => ret typeID
  | Err e => throw e
  end.

(** [b[i]] for [b = tmp.c_str()]: the bytes of [tmp], then the terminating
    NUL; any other index is outside the storage of the string. *)
Definition c_str_at (tmp : string) (i : N) : result ascii :=
  if (i <? size tmp)%N then
    match String.get (N.to_nat i) tmp with
    | Some c => Ok c
    | None => Err (OUT_OF_BOUNDS i)
    end
  else if (i =? size tmp)%N then Ok Ascii.zero
  else Err (OUT_OF_BOUNDS i).

(** [--x] on a [uint32_t]. *)
Definition uint32_dec (x : N) : N := ((x + UINT32_MAX) mod 4294967296)%N.

(** The loop [for (i = len - 1; i >= bound && b[i] == '='; --i) --len] of
    [readBase64]; the result is the final [len]. *)
Fixpoint ignore_padding (fuel : nat) (tmp : string) (bound i len : N)
  : result N :=
  match fuel with
  | O => Err OUT_OF_FUEL
  | S fuel' =>
      if (bound <=? i)%N then
        match c_str_at tmp i with
        | Err e => Err e
        | Ok c =>
            if Ascii.eqb c "=" then
              ignore_padding fuel' tmp bound (uint32_dec i) (uint32_dec len)
            else Ok len
        end
      else Ok len
  end.

(** The two decoding steps of [readBase64] on the [len] bytes that remain:
    [while (len >= 4)] and then [if (len > 1)]. *)
Fixpoint decode_groups (b : string) : string :=
  match b with
  | String b0 (String b1 (String b2 (String b3 rest))) =>
      base64_decode (String b0 (String b1 (String b2 (String b3 ""))))
      ++ decode_groups rest
  | String _ "" => ""
  | remainder => base64_decode remainder
  end.

(** What [readBase64] does with the string [tmp] it has read. *)
Definition decodeBase64 (tmp : string) : result string :=
  if (UINT32_MAX <? size tmp)%N then Err SIZE_LIMIT
  else
    let len := size tmp in
    match (if (2 <=? len)%N
           then ignore_padding 4 tmp (len - 2) (len - 1) len
           else Ok len) with
    | Err e => Err e
    | Ok len => Ok (decode_groups (substring 0 (N.to_nat len) tmp))
    end.

Definition readBase64 : M context_io string :=
  tmp <- readString false ;;
  match decodeBase64 tmp with
  | Ok str => ret str
  | Err e => throw e
  end.

(** The loop of [readNumericChars]. *)
Fixpoint readNumericChars_loop (fuel : nat) (str : string)
  : M context_io string :=
  match fuel with
  | O => throw OUT_OF_FUEL
  | S fuel' =>
      ch <- reader_peek ;;
      if isJSONNumeric ch then
        reader_read ;;
        readNumericChars_loop fuel' (str ++ str1 ch)
      else ret str
  end.

Definition readNumericChars : M context_io string :=
  s <- get ;; readNumericChars_loop (input_fuel s) "".

(** [readInteger<NumberType>]; [lexical_cast] is the conversion to
    [NumberType]. *)
Definition readInteger (lexical_cast : string -> option Z) : M context_io Z :=
  readNext ;;
  s <- get ;;
  let esc := escapeNum (this s) in
  (if esc then readSyntaxChar kJSONStringDelimiter else ret tt) ;;
  str <- readNumericChars ;;
  match lexical_cast str with
  | None => throw INVALID_DATA
  | Some num =>
      (if esc then readSyntaxChar kJSONStringDelimiter else ret tt) ;;
      ret num
  end.

(** *** Reading doubles

    [stringToDouble] reads its argument with [operator>>] of a
    [std::istringstream] imbued with the classic locale and throws when the
    stream is bad or the text is not used up: that parser belongs to the C++
    library and is a parameter here, [None] standing for the exception.
    [HUGE_VAL] is the positive infinity of binary64. *)

Definition HUGE_VAL : PrimFloat.float := PrimFloat.infinity.

Section DoubleReading.

Variable stringToDouble : string -> option PrimFloat.float.

Definition readDouble : M context_io PrimFloat.float :=
  readNext ;;
  ch <- reader_peek ;;
  if Ascii.eqb ch kJSONStringDelimiter then
    str <- readString true ;;
    if String.eqb str kThriftNan then ret (PrimFloat.div HUGE_VAL HUGE_VAL)
    else if String.eqb str kThriftInfinity then ret HUGE_VAL
    else if String.eqb str kThriftNegativeInfinity then
      ret (PrimFloat.opp HUGE_VAL)
    else
      s <- get ;;
      if negb (escapeNum (this s)) then throw INVALID_DATA
      else
        match stringToDouble str with
        | Some num => ret num
        | None => throw INVALID_DATA
        end
  else
    s <- get ;;
    (if escapeNum (this s) then readSyntaxChar kJSONStringDelimiter
     else ret tt) ;;
    str <- readNumericChars ;;
    match stringToDouble str with
    | Some num => ret num
    | None => throw INVALID_DATA
    end.

End DoubleReading.

(** ** The context stack ([TJSONContextStack]) *)

Record TJSONContextStack : Type := mkStack {
  context_ : TJSONContext;
  contexts_ : list TJSONContext
}.

Definition new_TJSONContextStack : TJSONContextStack :=
  mkStack new_TJSONContext [].

(** A stack and the content of the transport its contexts are built on. *)
Record channel : Type := mkChannel {
  stack_ : TJSONContextStack;
  bytes_ : string
}.

(** A method called on [top()]. *)
Definition on_top {A : Type} (m : M context_io A) : M channel A :=
  zoom (fun ch => mkIO (context_ (stack_ ch)) (bytes_ ch))
       (fun io ch => mkChannel (mkStack (this io) (contexts_ (stack_ ch)))
                               (trans_ io))
       m.

(** A method called on a context [c] that is not on the stack yet; the
    context comes back as the method left it. *)
Definition on_new (c : TJSONContext) (m : M context_io unit)
  : M channel TJSONContext :=
  fun ch => match m (mkIO c (bytes_ ch)) with
            | (Ok _, io) => (Ok (this io), mkChannel (stack_ ch) (trans_ io))
            | (Err e, io) => (Err e, mkChannel (stack_ ch) (trans_ io))
            end.

Definition push (c : TJSONContext) : M channel unit :=
  modify (fun ch =>
            mkChannel (mkStack c (context_ (stack_ ch) :: contexts_ (stack_ ch)))
                      (bytes_ ch)).

Definition pop : M channel unit :=
  ch <- get ;;
  match contexts_ (stack_ ch) with
  | [] => throw EMPTY_STACK
  | c :: rest => modify (fun ch => mkChannel (mkStack c rest) (bytes_ ch))
  end.

(** [c->writeStart(context_)] then [push(c)]: the parent is ticked, then the
    new context writes its opener. *)
Definition pushWrite (c : TJSONContext) : M channel unit :=
  on_top writeNext ;;
  c' <- on_new c (write (str1 (opener (class_ c)))) ;;
  push c'.

Definition pushRead (c : TJSONContext) : M channel unit :=
  on_top readNext ;;
  c' <- on_new c (readSyntaxChar (opener (class_ c))) ;;
  push c'.

Definition popWrite : M channel unit := on_top writeEnd ;; pop.
Definition popRead : M channel unit := on_top readEnd ;; pop.

(** ** Message types ([TMessageType] of [TProtocol.h]) *)

Inductive TMessageType : Type :=
| T_CALL | T_REPLY | T_EXCEPTION | T_ONEWAY
| T_OTHER (value : Z).   (* any other value cast to the enumeration *)

Definition messageType_value (t : TMessageType) : Z :=
  match t with
  | T_CALL => 1 | T_REPLY => 2 | T_EXCEPTION => 3 | T_ONEWAY => 4
  | T_OTHER v => v
  end%Z.

(** [(TMessageType)tmpVal] of a [uint64_t]: the enumeration is held in 32
    bits, which keep the low 32 bits of the value. *)
Definition messageType_of_value (v : Z) : TMessageType :=
  let v := (v mod 2 ^ 32)%Z in
  if (v =? 1)%Z then T_CALL else if (v =? 2)%Z then T_REPLY
  else if (v =? 3)%Z then T_EXCEPTION else if (v =? 4)%Z then T_ONEWAY
  else T_OTHER v.

(** ** The base protocol ([TJSONProtocol.cpp]) *)

Module TJSONProtocol.

Definition kThriftVersion1 : Z := 1.

Definition writeMessageBegin (name : string) (messageType : TMessageType)
           (seqid : Z) : M channel unit :=
  pushWrite new_TJSONListContext ;;
  on_top (writeInteger kThriftVersion1) ;;
  on_top (writeString name) ;;
  on_top (writeInteger (messageType_value messageType)) ;;
  on_top (writeInteger seqid).

Definition writeMessageEnd : M channel unit := popWrite.
Definition writeStructBegin : M channel unit := pushWrite new_TJSONPairContext.
Definition writeStructEnd : M channel unit := popWrite.

Definition writeFieldBegin (fieldType : TType) (fieldId : Z)
  : M channel unit :=
  on_top (writeInteger fieldId) ;;
  pushWrite new_TJSONPairContext ;;
  on_top (writeTypeID fieldType).

Definition writeFieldEnd : M channel unit := popWrite.
Definition writeFieldStop : M channel unit := ret tt.

Definition writeMapBegin (keyType valType : TType) (size : Z)
  : M channel unit :=
  pushWrite new_TJSONListContext ;;
  on_top (writeTypeID keyType) ;;
  on_top (writeTypeID valType) ;;
  on_top (writeInteger size) ;;
  pushWrite new_TJSONPairContext.

Definition writeMapEnd : M channel unit := popWrite ;; popWrite.

Definition writeListBegin (elemType : TType) (size : Z) : M channel unit :=
  pushWrite new_TJSONListContext ;;
  on_top (writeTypeID elemType) ;;
  on_top (writeInteger size).

Definition writeListEnd : M channel unit := popWrite.
Definition writeBool (value : bool) := on_top (writeInteger (Z_of_bool value)).
Definition writeI32 (i32 : Z) := on_top (writeInteger i32).
Definition writeString (str : string) := on_top (writeString str).
Definition writeBinary (str : string) := on_top (writeBase64 str).

Definition readMessageBegin : M channel (string * TMessageType * Z) :=
  pushRead new_TJSONListContext ;;
  tmpVal <- on_top (readInteger (lexical_cast_unsigned 64)) ;;
  if negb (tmpVal =? kThriftVersion1)%Z then throw BAD_VERSION
  else
    name <- on_top (readString false) ;;
    tmpVal <- on_top (readInteger (lexical_cast_unsigned 64)) ;;
    let messageType := messageType_of_value tmpVal in
    tmpVal <- on_top (readInteger (lexical_cast_unsigned 64)) ;;
    if (2147483647 <? tmpVal)%Z then throw SIZE_LIMIT
    else ret (name, messageType, tmpVal).

Definition readMessageEnd : M channel unit := popRead.
Definition readStructBegin : M channel unit := pushRead new_TJSONPairContext.
Definition readStructEnd : M channel unit := popRead.

(** The out-parameters [fieldType] and [fieldId]; [fieldId] is left
    untouched ([None]) when the field list ends. *)
Definition readFieldBegin : M channel (TType * option Z) :=
  ch <- on_top reader_peek ;;
  if Ascii.eqb ch kJSONObjectEnd then ret (T_STOP, None)
  else
    tmpVal <- on_top (readInteger (lexical_cast_unsigned 64)) ;;
    if (32767 <? tmpVal)%Z then throw SIZE_LIMIT
    else
      pushRead new_TJSONPairContext ;;
      fieldType <- on_top readTypeID ;;
      ret (fieldType, Some tmpVal).

Definition readFieldEnd : M channel unit := popRead.
Definition readI32 := on_top (readInteger (lexical_cast_signed 32)).
Definition readString := on_top (readString false).
Definition readBinary := on_top readBase64.

(** A protocol on a transport whose content is [wire]. *)
Definition init (wire : string) : channel :=
  mkChannel new_TJSONContextStack wire.

(** *** The other containers and integer types *)

Definition writeSetBegin (elemType : TType) (size : Z) : M channel unit :=
  pushWrite new_TJSONListContext ;;
  on_top (writeTypeID elemType) ;;
  on_top (writeInteger size).

Definition writeSetEnd : M channel unit := popWrite.
Definition writeByte (byte : Z) := on_top (writeInteger byte).
Definition writeI16 (i16 : Z) := on_top (writeInteger i16).
Definition writeI64 (i64 : Z) := on_top (writeInteger i64).

(** The out-parameters [keyType], [valType] and [size]. *)
Definition readMapBegin : M channel (TType * TType * Z) :=
  pushRead new_TJSONListContext ;;
  keyType <- on_top readTypeID ;;
  valType <- on_top readTypeID ;;
  tmpVal <- on_top (readInteger (lexical_cast_unsigned 64)) ;;
  if (4294967295 <? tmpVal)%Z then throw SIZE_LIMIT
  else
    pushRead new_TJSONPairContext ;;
    ret (keyType, valType, tmpVal).

Definition readMapEnd : M channel unit := popRead ;; popRead.

(** The out-parameters [elemType] and [size]. *)
Definition readListBegin : M channel (TType * Z) :=
  pushRead new_TJSONListContext ;;
  elemType <- on_top readTypeID ;;
  tmpVal <- on_top (readInteger (lexical_cast_unsigned 64)) ;;
  if (4294967295 <? tmpVal)%Z then throw SIZE_LIMIT
  else ret (elemType, tmpVal).

Definition readListEnd : M channel unit := popRead.

Definition readSetBegin : M channel (TType * Z) :=
  pushRead new_TJSONListContext ;;
  elemType <- on_top readTypeID ;;
  tmpVal <- on_top (readInteger (lexical_cast_unsigned 64)) ;;
  if (4294967295 <? tmpVal)%Z then throw SIZE_LIMIT
  else ret (elemType, tmpVal).

Definition readSetEnd : M channel unit := popRead.
Definition readI16 := on_top (readInteger (lexical_cast_signed 16)).
Definition readI64 := on_top (readInteger (lexical_cast_signed 64)).

End TJSONProtocol.

(** ** The JSON-RPC protocol ([TJSONRPCProtocol.{h,cpp}]) *)

Module TJSONRPCProtocol.

Record JSONRPCMessage : Type := mkMessage {
  method : string;
  id : Z;
  error_code : Z;
  error_message : string
}.

(** [enum JSONRPCFlags] *)
Definition JSONRPC_UNSET : N := 0.
Definition JSONRPC_VERSION : N := N.shiftl 1 0.
Definition JSONRPC_METHOD : N := N.shiftl 1 1.
Definition JSONRPC_ID : N := N.shiftl 1 2.
Definition JSONRPC_PARAMS : N := N.shiftl 1 3.
Definition JSONRPC_RESULT : N := N.shiftl 1 4.
Definition JSONRPC_ERR_CODE : N := N.shiftl 1 5.
Definition JSONRPC_ERR_MSG : N := N.shiftl 1 6.
Definition JSONRPC_ERR_DATA : N := N.shiftl 1 7.
Definition JSONRPC_REQUEST : N :=
  N.lor (N.lor JSONRPC_VERSION JSONRPC_ID) JSONRPC_METHOD.
Definition JSONRPC_FULL_REQUEST : N := N.lor JSONRPC_REQUEST JSONRPC_PARAMS.
Definition JSONRPC_NOTIFICATION : N := N.lor JSONRPC_VERSION JSONRPC_METHOD.
Definition JSONRPC_FULL_NOTIFICATION : N :=
  N.lor JSONRPC_NOTIFICATION JSONRPC_PARAMS.
Definition JSONRPC_RESPONSE : N :=
  N.lor (N.lor JSONRPC_VERSION JSONRPC_ID) JSONRPC_RESULT.
Definition JSONRPC_ERROR : N :=
  N.lor (N.lor (N.lor JSONRPC_VERSION JSONRPC_ID) JSONRPC_ERR_CODE)
        JSONRPC_ERR_MSG.
Definition JSONRPC_FULL_ERROR : N := N.lor JSONRPC_ERROR JSONRPC_ERR_DATA.

Inductive RWMode : Type := RW_TRANSPORT | RW_BUFFERED.

(** The protocol object.  [ptrans_] is the content of the transport the
    protocol was built on and [buffer_] the content of the scratch
    [TMemoryBuffer]. *)
Record state : Type := mkState {
  mode_ : RWMode;
  message_ : JSONRPCMessage;
  flags_ : N;
  buffer_ : string;
  ptrans_ : string;
  transport_contexts_ : TJSONContextStack;
  buffer_contexts_ : TJSONContextStack
}.

Definition set_mode (m : RWMode) : M state unit :=
  modify (fun s => mkState m (message_ s) (flags_ s) (buffer_ s) (ptrans_ s)
                           (transport_contexts_ s) (buffer_contexts_ s)).
Definition set_message (f : JSONRPCMessage -> JSONRPCMessage)
  : M state unit :=
  modify (fun s => mkState (mode_ s) (f (message_ s)) (flags_ s) (buffer_ s)
                           (ptrans_ s) (transport_contexts_ s)
                           (buffer_contexts_ s)).
Definition set_flags (f : N) : M state unit :=
  modify (fun s => mkState (mode_ s) (message_ s) f (buffer_ s) (ptrans_ s)
                           (transport_contexts_ s) (buffer_contexts_ s)).
Definition set_buffer (b : string) : M state unit :=
  modify (fun s => mkState (mode_ s) (message_ s) (flags_ s) b (ptrans_ s)
                           (transport_contexts_ s) (buffer_contexts_ s)).

Definition set_method (v : string) :=
  set_message (fun m => mkMessage v (id m) (error_code m) (error_message m)).
Definition set_id (v : Z) :=
  set_message (fun m => mkMessage (method m) v (error_code m)
                                  (error_message m)).
Definition set_error_code (v : Z) :=
  set_message (fun m => mkMessage (method m) (id m) v (error_message m)).
Definition set_error_message (v : string) :=
  set_message (fun m => mkMessage (method m) (id m) (error_code m) v).

(** [buffer_->resetBuffer()] and [buffer_->write(...)] *)
Definition resetBuffer : M state unit := set_buffer "".
Definition buffer_write (bytes : string) : M state unit :=
  s <- get ;; set_buffer (buffer_ s ++ bytes).

(** [flags_ = operator|(flags_, f)] *)
Definition or_flags (f : N) : M state unit :=
  s <- get ;; set_flags (N.lor (flags_ s) f).

(** [contexts()]: the stack of the current mode, with its transport. *)
Definition contexts {A : Type} (m : M channel A) : M state A :=
  zoom (fun s => match mode_ s with
                 | RW_TRANSPORT => mkChannel (transport_contexts_ s) (ptrans_ s)
                 | RW_BUFFERED => mkChannel (buffer_contexts_ s) (buffer_ s)
                 end)
       (fun ch s => match mode_ s with
                    | RW_TRANSPORT =>
                        mkState (mode_ s) (message_ s) (flags_ s) (buffer_ s)
                                (bytes_ ch) (stack_ ch) (buffer_contexts_ s)
                    | RW_BUFFERED =>
                        mkState (mode_ s) (message_ s) (flags_ s) (bytes_ ch)
                                (ptrans_ s) (transport_contexts_ s) (stack_ ch)
                    end)
       m.

(** [context()->...] *)
Definition context {A : Type} (m : M context_io A) : M state A :=
  contexts (on_top m).

(** *** Writing *)

Definition writeStructBegin : M state unit :=
  contexts (pushWrite new_TJSONPairContext).
Definition writeStructEnd : M state unit := contexts popWrite.

Definition writeFieldBegin (fieldType : TType) (fieldId : Z)
  : M state unit :=
  context (writeInteger fieldId) ;;
  contexts (pushWrite new_TJSONPairContext) ;;
  context (writeTypeID fieldType).

Definition writeFieldEnd : M state unit := contexts popWrite.
Definition writeFieldStop : M state unit := ret tt.

Definition writeMapBegin (keyType valType : TType) (size : Z)
  : M state unit :=
  contexts (pushWrite new_TJSONListContext) ;;
  context (writeTypeID keyType) ;;
  context (writeTypeID valType) ;;
  context (writeInteger size) ;;
  contexts (pushWrite new_TJSONPairContext).

Definition writeMapEnd : M state unit :=
  contexts popWrite ;; contexts popWrite.

Definition writeListBegin (elemType : TType) (size : Z) : M state unit :=
  contexts (pushWrite new_TJSONListContext) ;;
  context (writeTypeID elemType) ;;
  context (writeInteger size).

Definition writeListEnd : M state unit := contexts popWrite.

Definition writeBool (value : bool) := context (writeInteger (Z_of_bool value)).
Definition writeI32 (i32 : Z) := context (writeInteger i32).
Definition writeI64 (i64 : Z) := context (writeInteger i64).
Definition writeString (str : string) := context (writeString str).
Definition writeBinary (str : string) := context (writeBase64 str).

Definition kJSONRPCName : string := "jsonrpc".
Definition kJSONRPCVersion : string := "2.0".
Definition kJSONRPCMethod : string := "method".
Definition kJSONRPCParams : string := "params".
Definition kJSONRPCId : string := "id".
Definition kJSONRPCResult : string := "result".
Definition kJSONRPCError : string := "error".
Definition kJSONRPCCode : string := "code".
Definition kJSONRPCMessage : string := "message".
Definition kJSONRPCData : string := "data".

Definition writeMessageBegin (name : string) (messageType : TMessageType)
           (seqid : Z) : M state unit :=
  set_mode RW_TRANSPORT ;;
  resetBuffer ;;
  set_flags JSONRPC_VERSION ;;
  writeStructBegin ;;
  writeString "jsonrpc" ;;
  writeString kJSONRPCVersion ;;
  match messageType with
  | T_CALL =>
      set_method name ;;
      set_id seqid ;;
      set_flags JSONRPC_REQUEST ;;
      writeString kJSONRPCMethod ;;
      s <- get ;;
      writeString (method (message_ s)) ;;
      writeString kJSONRPCParams
  | T_ONEWAY =>
      set_method name ;;
      set_flags JSONRPC_NOTIFICATION ;;
      writeString kJSONRPCMethod ;;
      s <- get ;;
      writeString (method (message_ s)) ;;
      writeString kJSONRPCParams
  | T_REPLY =>
      set_id seqid ;;
      set_flags JSONRPC_RESPONSE ;;
      writeString kJSONRPCResult
  | T_EXCEPTION =>
      set_id seqid ;;
      set_error_code (-32000) ;;
      set_error_message "Thrift exception" ;;
      set_flags JSONRPC_ERROR ;;
      writeString kJSONRPCError ;;
      writeStructBegin ;;
      writeString kJSONRPCCode ;;
      s <- get ;;
      writeI32 (error_code (message_ s)) ;;
      writeString kJSONRPCMessage ;;
      writeString (error_message (message_ s)) ;;
      writeString kJSONRPCData
  | T_OTHER _ =>
      resetBuffer ;;
      set_flags JSONRPC_UNSET ;;
      throw NOT_IMPLEMENTED
  end.

Definition writeMessageEnd : M state unit :=
  s <- get ;;
  let f := flags_ s in
  (if (f =? JSONRPC_REQUEST) || (f =? JSONRPC_FULL_REQUEST)
      || (f =? JSONRPC_RESPONSE) then
     writeString kJSONRPCId ;;
     writeI32 (id (message_ s))
   else if (f =? JSONRPC_ERROR) || (f =? JSONRPC_FULL_ERROR) then
     writeStructEnd ;;
     writeString kJSONRPCId ;;
     writeI32 (id (message_ s))
   else if (f =? JSONRPC_NOTIFICATION) then ret tt
   else
     resetBuffer ;;
     set_flags JSONRPC_UNSET ;;
     throw INVALID_DATA)%N ;;
  writeStructEnd ;;
  resetBuffer ;;
  set_flags JSONRPC_UNSET.

(** *** Reading *)

Definition readStructBegin : M state unit :=
  contexts (pushRead new_TJSONPairContext).
Definition readStructEnd : M state unit := contexts popRead.

Definition readFieldBegin : M state (TType * option Z) :=
  ch <- context reader_peek ;;
  if Ascii.eqb ch kJSONObjectEnd then ret (T_STOP, None)
  else
    tmpVal <- context (readInteger (lexical_cast_unsigned 64)) ;;
    if (32767 <? tmpVal)%Z then throw SIZE_LIMIT
    else
      contexts (pushRead new_TJSONPairContext) ;;
      fieldType <- context readTypeID ;;
      ret (fieldType, Some tmpVal).

Definition readFieldEnd : M state unit := contexts popRead.
Definition readI32 : M state Z := context (readInteger (lexical_cast_signed 32)).
Definition readString : M state string := context (readString false).
Definition readBinary : M state string := context readBase64.

(** The loop [while (nesting)] of [TJSONContext::readObject]; the bytes
    are read through the current context and written to [buffer_]. *)
Fixpoint readObject_loop (fuel : nat) (nesting : N) : M state unit :=
  if (nesting =? 0)%N then ret tt
  else
    match fuel with
    | O => throw OUT_OF_FUEL
    | S fuel' =>
        ch <- context reader_read ;;
        buffer_write (str1 ch) ;;
        let nesting :=
          if Ascii.eqb ch kJSONObjectStart
          then ((nesting + 1) mod 4294967296)%N else nesting in
        let nesting :=
          if Ascii.eqb ch kJSONObjectEnd
          then uint32_dec nesting else nesting in
        readObject_loop fuel' nesting
    end.

(** Every loop of the reader consumes at least one byte of the transport
    per turn. *)
Definition wire_fuel (s : state) : nat :=
  S (S (String.length (ptrans_ s) + String.length (buffer_ s))).

(** [context()->readObject( *buffer_ )] *)
Definition readObject : M state unit :=
  context readNext ;;
  context (readSyntaxChar kJSONObjectStart) ;;
  buffer_write (str1 kJSONObjectStart) ;;
  s <- get ;;
  readObject_loop (wire_fuel s) 1.

Fixpoint readJSONRPCField (fuel : nat) : M state unit :=
  match fuel with
  | O => throw OUT_OF_FUEL
  | S fuel' =>
      tmpString <- readString ;;
      if String.eqb tmpString kJSONRPCName then
        tmpString <- readString ;;
        if negb (String.eqb tmpString kJSONRPCVersion) then throw BAD_VERSION
        else or_flags JSONRPC_VERSION
      else if String.eqb tmpString kJSONRPCMethod then
        v <- readString ;; set_method v ;;
        or_flags JSONRPC_METHOD
      else if String.eqb tmpString kJSONRPCId then
        v <- readI32 ;; set_id v ;;
        or_flags JSONRPC_ID
      else if String.eqb tmpString kJSONRPCParams then
        readObject ;;
        or_flags JSONRPC_PARAMS
      else if String.eqb tmpString kJSONRPCResult then
        readObject ;;
        or_flags JSONRPC_RESULT
      else if String.eqb tmpString kJSONRPCError then
        readStructBegin ;;
        (* do { readJSONRPCField(); } while (context()->peek() != '}') *)
        (fix do_while (turns : nat) : M state unit :=
           match turns with
           | O => throw OUT_OF_FUEL
           | S turns' =>
               readJSONRPCField fuel' ;;
               ch <- context reader_peek ;;
               if Ascii.eqb ch kJSONObjectEnd then ret tt
               else do_while turns'
           end) fuel' ;;
        readStructEnd
      else if String.eqb tmpString kJSONRPCCode then
        v <- readI32 ;; set_error_code v ;;
        or_flags JSONRPC_ERR_CODE
      else if String.eqb tmpString kJSONRPCMessage then
        v <- readString ;; set_error_message v ;;
        or_flags JSONRPC_ERR_MSG
      else if String.eqb tmpString kJSONRPCData then
        readObject ;;
        or_flags JSONRPC_ERR_DATA
      else throw INVALID_DATA
  end.

(** The loop [while (true)] of [readMessageBegin] over the members of the
    envelope. *)
Fixpoint readMessageBegin_fields (fuel : nat) : M state unit :=
  match fuel with
  | O => throw OUT_OF_FUEL
  | S fuel' =>
      ch <- context reader_peek ;;
      if Ascii.eqb ch kJSONObjectEnd then ret tt
      else
        s <- get ;;
        readJSONRPCField (wire_fuel s) ;;
        readMessageBegin_fields fuel'
  end.

(** The first part of [readMessageBegin], up to the [readStructEnd] that
    closes the envelope. *)
Definition readMessageBegin_scan : M state unit :=
  resetBuffer ;;
  set_mode RW_TRANSPORT ;;
  set_flags JSONRPC_UNSET ;;
  readStructBegin ;;
  s <- get ;;
  readMessageBegin_fields (wire_fuel s) ;;
  readStructEnd.

(** The second part of [readMessageBegin]: the [switch (flags_)] and the
    change of mode.  The result is the triple of out-parameters [name],
    [messageType], [seqid]. *)
Definition readMessageBegin_switch : M state (string * TMessageType * Z) :=
  s <- get ;;
  let f := flags_ s in
  let empty_object :=
    buffer_write (str1 kJSONObjectStart) ;;
    buffer_write (str1 kJSONObjectEnd) in
  r <- (if (f =? JSONRPC_REQUEST) || (f =? JSONRPC_FULL_REQUEST) then
          (if (f =? JSONRPC_REQUEST) then empty_object else ret tt) ;;
          ret (method (message_ s), T_CALL, id (message_ s))
        else if (f =? JSONRPC_NOTIFICATION)
                || (f =? JSONRPC_FULL_NOTIFICATION) then
          (if (f =? JSONRPC_NOTIFICATION) then empty_object else ret tt) ;;
          ret (method (message_ s), T_ONEWAY, 0%Z)
        else if (f =? JSONRPC_ERROR) || (f =? JSONRPC_FULL_ERROR)
                || (f =? JSONRPC_RESPONSE) then
          (if (f =? JSONRPC_ERROR) then empty_object else ret tt) ;;
          ret ("", if (f =? JSONRPC_RESPONSE) then T_REPLY else T_EXCEPTION,
               id (message_ s))
        else
          resetBuffer ;;
          set_flags JSONRPC_UNSET ;;
          throw INVALID_DATA)%N ;;
  set_mode RW_BUFFERED ;;
  ret r.

Definition readMessageBegin : M state (string * TMessageType * Z) :=
  readMessageBegin_scan ;; readMessageBegin_switch.

Definition readMessageEnd : M state unit :=
  resetBuffer ;;
  set_flags JSONRPC_UNSET ;;
  set_mode RW_TRANSPORT.

(** A protocol built on a transport whose content is [wire].  The
    constructor leaves [message_.id] and [message_.error_code] without a
    value; they are taken as 0 here, and every path of the protocol writes
    them before it reads them. *)
Definition init (wire : string) : state :=
  mkState RW_TRANSPORT (mkMessage "" 0 0 "") JSONRPC_UNSET "" wire
          new_TJSONContextStack new_TJSONContextStack.

End TJSONRPCProtocol.

(** * Vocabulary of the properties *)

(** The run of a computation: its outcome and the state it leaves. *)
Definition outcome {S A : Type} (m : M S A) (s : S) : result A := fst (m s).
Definition final {S A : Type} (m : M S A) (s : S) : S := snd (m s).

(** ** Emissions into a context *)

(** What [writeChar] writes for one byte, and [writeString] between the
    delimiters for a whole string. *)
Definition json_escape_char (ch : ascii) : string :=
  if (48 <=? code ch)%N then
    if Ascii.eqb ch kJSONBackslash then "\\" else str1 ch
  else
    let outCh := kJSONCharTable (code ch) in
    if (outCh =? 1)%N then str1 ch
    else if (1 <? outCh)%N then String kJSONBackslash (str1 (ascii_of_N outCh))
    else kJSONEscapePrefix
         ++ String (hexChar (N.shiftr (code ch) 4)) (str1 (hexChar (code ch))).

Fixpoint json_escape (str : string) : string :=
  match str with
  | "" => ""
  | String c rest => json_escape_char c ++ json_escape rest
  end.

(** A primitive emission: a number (through [writeInteger]) or a string
    (through [writeString]). *)
Inductive emission : Type :=
| Number (num : Z)
| Text (str : string).

Definition emit (e : emission) : M context_io unit :=
  match e with
  | Number num => writeInteger num
  | Text str => writeString str
  end.

Fixpoint emit_all (es : list emission) : M context_io unit :=
  match es with
  | [] => ret tt
  | e :: es' => emit e ;; emit_all es'
  end.

(** [k] calls of [writeNext] in a row. *)
Fixpoint writeNext_times (k : nat) : M context_io unit :=
  match k with
  | O => ret tt
  | S k' => writeNext_times k' ;; writeNext
  end.

(** The separator a pair context puts before its emission number [k]
    (counted from 0). *)
Definition pair_separator (k : nat) : string :=
  match k with
  | O => ""
  | S _ => if Nat.odd k then ":" else ","
  end.

(** The bytes of emission number [k] of a pair context. *)
Definition pair_emission (k : nat) (e : emission) : string :=
  pair_separator k ++
  match e with
  | Number num =>
      if Nat.even k then quoted (lexical_cast_string num)
      else lexical_cast_string num
  | Text str => quoted (json_escape str)
  end.

Fixpoint pair_emissions (k : nat) (es : list emission) : string :=
  match es with
  | [] => ""
  | e :: es' => pair_emission k e ++ pair_emissions (S k) es'
  end.

(** A value written into a context with its numbers told apart: an
    integer (through [writeInteger]), a double (through [writeDouble]) or a
    string (through [writeString]). *)
Inductive written_value : Type :=
| Integer (num : Z)
| Double (num : PrimFloat.float)
| Str (str : string).

(** The doubles [writeDouble] writes as a token: the infinities and NaN. *)
Definition special_double (num : PrimFloat.float) : bool :=
  match fpclassify num with
  | FP_INFINITE | FP_NAN => true
  | _ => false
  end.

Section WrittenValues.

Variable ostream_double : Z -> PrimFloat.float -> string.

Definition write_value (v : written_value) : M context_io unit :=
  match v with
  | Integer num => writeInteger num
  | Double num => writeDouble ostream_double num
  | Str str => writeString str
  end.

Fixpoint write_values (vs : list written_value) : M context_io unit :=
  match vs with
  | [] => ret tt
  | v :: vs' => write_value v ;; write_values vs'
  end.

(** The text of a double: its token, or what the formatter gives at
    precision 17. *)
Definition double_text (num : PrimFloat.float) : string :=
  match PrimFloat.classify num with
  | FloatClass.PInf => kThriftInfinity
  | FloatClass.NInf => kThriftNegativeInfinity
  | FloatClass.NaN => kThriftNan
  | _ => ostream_double 17 num
  end.

(** The bytes of emission number [k] of a pair context: a number is
    between quotes at an even [k], and so are the infinities and NaN at
    every [k]. *)
Definition pair_value_text (k : nat) (v : written_value) : string :=
  pair_separator k ++
  match v with
  | Integer num =>
      if Nat.even k then quoted (lexical_cast_string num)
      else lexical_cast_string num
  | Double num =>
      if Nat.even k || special_double num then quoted (double_text num)
      else double_text num
  | Str str => quoted (json_escape str)
  end.

Fixpoint pair_values_text (k : nat) (vs : list written_value) : string :=
  match vs with
  | [] => ""
  | v :: vs' => pair_value_text k v ++ pair_values_text (S k) vs'
  end.

End WrittenValues.

(** The pair context once [k] of its emissions have begun: [first_] is
    cleared by the first one, and [colon_] tells whether the next separator
    is the colon. *)
Definition pair_context_after (k : nat) (r : LookaheadReader) : TJSONContext :=
  mkContext JSONPairContext (Nat.eqb k 0)
            (match k with O => true | S j => Nat.even j end) r.

(** ** Scenarios *)

(** What the generated client sends for a call of [primitiveMethod], which
    has no argument: the message header, an empty argument struct, the end
    of the message. *)
Definition send_primitiveMethod : M TJSONRPCProtocol.state unit :=
  TJSONRPCProtocol.writeMessageBegin "primitiveMethod" T_CALL 0 ;;
  TJSONRPCProtocol.writeStructBegin ;;
  TJSONRPCProtocol.writeFieldStop ;;
  TJSONRPCProtocol.writeStructEnd ;;
  TJSONRPCProtocol.writeMessageEnd.


(** ** The envelope *)

(** The seven flag sets [readMessageBegin] and [writeMessageEnd] name. *)
Definition recognized_flags : list N :=
  [TJSONRPCProtocol.JSONRPC_REQUEST; TJSONRPCProtocol.JSONRPC_FULL_REQUEST;
   TJSONRPCProtocol.JSONRPC_NOTIFICATION;
   TJSONRPCProtocol.JSONRPC_FULL_NOTIFICATION;
   TJSONRPCProtocol.JSONRPC_RESPONSE;
   TJSONRPCProtocol.JSONRPC_ERROR; TJSONRPCProtocol.JSONRPC_FULL_ERROR].

(** The request of the test suite that has no [params] member. *)
Definition request_without_params : string :=
  "{" ++ quoted "jsonrpc" ++ ":" ++ quoted "2.0" ++ ","
      ++ quoted "method" ++ ":" ++ quoted "primitiveMethod" ++ ","
      ++ quoted "id" ++ ":55}".

(** ** Type tags *)

(** The eleven identifiers and their types. *)
Definition type_names : list (string * TType) :=
  [(kTypeNameBool, T_BOOL); (kTypeNameByte, T_BYTE); (kTypeNameI16, T_I16);
   (kTypeNameI32, T_I32); (kTypeNameI64, T_I64); (kTypeNameDouble, T_DOUBLE);
   (kTypeNameString, T_STRING); (kTypeNameStruct, T_STRUCT);
   (kTypeNameMap, T_MAP); (kTypeNameList, T_LIST); (kTypeNameSet, T_SET)].

(** The leading characters [getTypeIDForTypeName] looks at, and the type
    each selects. *)
Definition type_prefixes : list (string * TType) :=
  [("d", T_DOUBLE); ("i8", T_BYTE); ("i1", T_I16); ("i3", T_I32);
   ("i6", T_I64); ("l", T_LIST); ("m", T_MAP); ("r", T_STRUCT);
   ("st", T_STRING); ("se", T_SET); ("t", T_BOOL)].

Fixpoint starts_with (p s : string) : bool :=
  match p, s with
  | "", _ => true
  | String a p', String b s' => Ascii.eqb a b && starts_with p' s'
  | String _ _, "" => false
  end.

(** The values of the enumeration [TType]. *)
Definition TType_value (t : TType) : N :=
  match t with
  | T_STOP => 0 | T_VOID => 1 | T_BOOL => 2 | T_BYTE => 3 | T_DOUBLE => 4
  | T_I16 => 6 | T_I32 => 8 | T_U64 => 9 | T_I64 => 10 | T_STRING => 11
  | T_STRUCT => 12 | T_MAP => 13 | T_SET => 14 | T_LIST => 15
  | T_UTF8 => 16 | T_UTF16 => 17
  end.

Definition is_ok_with (r : result TType) (t : TType) : bool :=
  match r with
  | Ok t' => (TType_value t' =? TType_value t)%N
  | Err _ => false
  end.

Definition is_not_implemented (r : result TType) : bool :=
  match r with
  | Err NOT_IMPLEMENTED => true
  | _ => false
  end.

(** The 256 bytes. *)
Definition all_ascii : list ascii := map ascii_of_nat (seq 0 256).

(** What [getTypeIDForTypeName] owes to a name of two bytes, as a test. *)
Definition type_prefix_check (c0 c1 : ascii) : bool :=
  let name := String c0 (String c1 "") in
  forallb (fun pt => implb (starts_with (fst pt) name)
                           (is_ok_with (getTypeIDForTypeName name) (snd pt)))
          type_prefixes
  && implb (forallb (fun pt => negb (starts_with (fst pt) name)) type_prefixes)
           (is_not_implemented (getTypeIDForTypeName name)).

(** A message whose argument struct has one string field, written by the
    JSON-RPC protocol: a call of [method] with sequence id [seqid] and the
    string [value] in field 1. *)
Definition send_call_with_string (name : string) (seqid : Z) (value : string)
  : M TJSONRPCProtocol.state unit :=
  TJSONRPCProtocol.writeMessageBegin name T_CALL seqid ;;
  TJSONRPCProtocol.writeStructBegin ;;
  TJSONRPCProtocol.writeFieldBegin T_STRING 1 ;;
  TJSONRPCProtocol.writeString value ;;
  TJSONRPCProtocol.writeFieldEnd ;;
  TJSONRPCProtocol.writeFieldStop ;;
  TJSONRPCProtocol.writeStructEnd ;;
  TJSONRPCProtocol.writeMessageEnd.

(** Its reading: the header, then the argument struct with its one string
    field. *)
Definition recv_call_with_string
  : M TJSONRPCProtocol.state (string * TMessageType * Z * string) :=
  header <- TJSONRPCProtocol.readMessageBegin ;;
  TJSONRPCProtocol.readStructBegin ;;
  TJSONRPCProtocol.readFieldBegin ;;
  value <- TJSONRPCProtocol.readString ;;
  TJSONRPCProtocol.readFieldEnd ;;
  TJSONRPCProtocol.readFieldBegin ;;
  TJSONRPCProtocol.readStructEnd ;;
  TJSONRPCProtocol.readMessageEnd ;;
  ret (header, value).

(** The bytes a writer leaves on an empty transport. *)
Definition rpc_wire_of (m : M TJSONRPCProtocol.state unit) : string :=
  TJSONRPCProtocol.ptrans_ (final m (TJSONRPCProtocol.init "")).

(** An envelope with a captured [params] object followed by a member the
    protocol does not know. *)
Definition envelope_with_unknown_key : string :=
  "{" ++ quoted "jsonrpc" ++ ":" ++ quoted "2.0" ++ ","
      ++ quoted "params" ++ ":{},"
      ++ quoted "foo" ++ ":1}".

(** An envelope whose version is not 2.0, after a captured [params]. *)
Definition envelope_with_bad_version : string :=
  "{" ++ quoted "params" ++ ":{},"
      ++ quoted "jsonrpc" ++ ":" ++ quoted "1.0" ++ "}".

(** A JSON string made of a high surrogate escape and the escape of the
    letter A. *)
Definition lone_high_surrogate : string :=
  quoted ("\u" ++ "d800" ++ "\u" ++ "0041").

(** A JSON string made of two high surrogate escapes and a low one. *)
Definition doubled_high_surrogate : string :=
  quoted ("\u" ++ "d800" ++ "\u" ++ "d800" ++ "\u" ++ "dc00").

(** ** Base64 *)

(** The Base64 text [writeBase64] puts between the delimiters (the bytes
    written by [writeBase64_groups]). *)
Fixpoint base64_text (bytes : string) : string :=
  match bytes with
  | String a (String b (String c rest)) =>
      base64_encode (String a (String b (String c ""))) ++ base64_text rest
  | "" => ""
  | remainder => base64_encode remainder
  end.

Fixpoint string_forall (P : ascii -> bool) (s : string) : bool :=
  match s with
  | "" => true
  | String c rest => P c && string_forall P rest
  end.

Definition is_padding (c : ascii) : bool := Ascii.eqb c "=".

(** Bytes [readString] copies as they are: neither the delimiter nor the
    backslash. *)
Definition is_plain (c : ascii) : bool :=
  negb (Ascii.eqb c kJSONStringDelimiter) && negb (Ascii.eqb c kJSONBackslash).

(** A Base64 digit is written as a plain byte that is not the padding. *)
Definition is_base64_byte (c : ascii) : bool := is_plain c && negb (is_padding c).

(** A run of [k] padding bytes. *)
Fixpoint padding (k : nat) : string :=
  match k with
  | O => ""
  | S k' => String "=" (padding k')
  end.

(** A context that has not been used yet. *)
Definition fresh (k : context_class) : TJSONContext :=
  mkContext k true true new_reader.

(** The 64 digit values. *)
Definition all_digits : list N := map N.of_nat (seq 0 64).

(** Tests run over all bytes: decoding undoes encoding on a remainder of
    one byte and of two bytes, and the third and fourth digits of a full
    group give back its last byte and the low half of its middle byte. *)
Definition group1_check (a : ascii) : bool :=
  String.eqb (base64_decode (base64_encode (str1 a))) (str1 a).

Definition group2_check (a b : ascii) : bool :=
  String.eqb (base64_decode (base64_encode (String a (str1 b))))
             (String a (str1 b)).

Definition group3_check (b c : ascii) : bool :=
  let d := kBase64DecodeTable in
  let e2 := encode_digit (N.lor (N.land (N.shiftl (code b) 2) 60)
                                (N.shiftr (code c) 6)) in
  let e2' := encode_digit (N.land (N.shiftl (code b) 2) 60) in
  let e3 := encode_digit (N.land (code c) 63) in
  (N.shiftr (d e2) 2 =? N.shiftr (d e2') 2)%N
  && Ascii.eqb (uint8 (N.lor (N.land (N.shiftl (d e2) 6) 192) (d e3))) c.

(** Whether a string ends with a padding byte. *)
Fixpoint ends_with_padding (s : string) : bool :=
  match s with
  | "" => false
  | String c "" => is_padding c
  | String _ rest => ends_with_padding rest
  end.

(** A context of class [k] after its first element has begun. *)
Definition begun (k : context_class) (r : LookaheadReader) : TJSONContext :=
  mkContext k match k with JSONContext => true | _ => false end true r.

(** The number of Base64 bytes for [n] bytes: four for each group of three,
    and two or three for a remainder of one or two. *)
Definition base64_length (n : nat) : nat :=
  4 * (n / 3) + match n mod 3 with O => 0 | S r => S (S r) end.

(** A string of [n] bytes [c]. *)
Fixpoint string_repeat (n : nat) (c : ascii) : string :=
  match n with
  | O => ""
  | S n' => String c (string_repeat n' c)
  end.

(** The largest number of bytes whose Base64 text passes the length guard
    of [readBase64]. *)
Definition BASE64_MAX : N := 3221225471.

(** A string one byte longer than a 32-bit length can tell. *)
Definition oversized_string : string :=
  string_repeat (N.to_nat 4294967296) "A".

(** ** The input a context can still read *)

(** The bytes left in the transport, and the byte the lookahead reader of
    the context holds, if any. *)
Definition available (s : context_io) : nat :=
  String.length (trans_ s) + (if hasData_ (reader_ (this s)) then 1 else 0).

(** The same message through the base protocol. *)
Definition base_send_call_with_string (name : string) (seqid : Z)
           (value : string) : M channel unit :=
  TJSONProtocol.writeMessageBegin name T_CALL seqid ;;
  TJSONProtocol.writeStructBegin ;;
  TJSONProtocol.writeFieldBegin T_STRING 1 ;;
  TJSONProtocol.writeString value ;;
  TJSONProtocol.writeFieldEnd ;;
  TJSONProtocol.writeFieldStop ;;
  TJSONProtocol.writeStructEnd ;;
  TJSONProtocol.writeMessageEnd.

Definition base_recv_call_with_string
  : M channel (string * TMessageType * Z * string) :=
  header <- TJSONProtocol.readMessageBegin ;;
  TJSONProtocol.readStructBegin ;;
  TJSONProtocol.readFieldBegin ;;
  value <- TJSONProtocol.readString ;;
  TJSONProtocol.readFieldEnd ;;
  TJSONProtocol.readFieldBegin ;;
  TJSONProtocol.readStructEnd ;;
  TJSONProtocol.readMessageEnd ;;
  ret (header, value).

Definition base_wire_of (m : M channel unit) : string :=
  bytes_ (final m (TJSONProtocol.init "")).

(** ** Strings *)

(** The last byte of [s], or [d] when [s] is empty: what the lookahead
    reader holds in [data_] once it has read [s]. *)
Definition last_byte (d : ascii) (s : string) : ascii :=
  List.last (list_ascii_of_string s) d.

Definition is_nul (c : ascii) : bool := Ascii.eqb c Ascii.zero.

(** ** The input seen through the lookahead reader *)

(** The bytes a context will read next: the byte its lookahead reader
    holds, if any, then the content of the transport. *)
Definition pending (s : context_io) : string :=
  if hasData_ (reader_ (this s))
  then String (data_ (reader_ (this s))) (trans_ s)
  else trans_ s.

(** The fields of a context that drive its separators. *)
Definition control (s : context_io) : context_class * bool * bool :=
  (class_ (this s), first_ (this s), colon_ (this s)).

(** A context of class [k] once [n] of its elements have begun. *)
Definition context_at (k : context_class) (n : nat) (r : LookaheadReader)
  : TJSONContext :=
  match k with
  | JSONContext => mkContext JSONContext true true r
  | JSONPairContext => pair_context_after n r
  | JSONListContext => mkContext JSONListContext (Nat.eqb n 0) true r
  end.

Definition control_at (k : context_class) (n : nat)
  : context_class * bool * bool :=
  (class_ (context_at k n new_reader), first_ (context_at k n new_reader),
   colon_ (context_at k n new_reader)).

(** The separator a context of class [k] puts before its element number
    [n] (counted from 0). *)
Definition separator (k : context_class) (n : nat) : string :=
  match k with
  | JSONContext => ""
  | JSONPairContext => pair_separator n
  | JSONListContext => match n with O => "" | S _ => "," end
  end.

(** Whether a number is quoted at position [n] of a context of class [k]. *)
Definition quotes_numbers (k : context_class) (n : nat) : bool :=
  match k with
  | JSONPairContext => Nat.even n
  | _ => false
  end.

(** The bytes of element number [n] of a context of class [k]. *)
Definition emission_text (k : context_class) (n : nat) (e : emission)
  : string :=
  separator k n ++
  match e with
  | Number num =>
      if quotes_numbers k n then quoted (lexical_cast_string num)
      else lexical_cast_string num
  | Text str => quoted (json_escape str)
  end.

Fixpoint emissions_text (k : context_class) (n : nat) (es : list emission)
  : string :=
  match es with
  | [] => ""
  | e :: es' => emission_text k n e ++ emissions_text k (S n) es'
  end.

(** A string without its NUL bytes. *)
Fixpoint remove_nul (str : string) : string :=
  match str with
  | "" => ""
  | String c rest => if is_nul c then remove_nul rest
                     else String c (remove_nul rest)
  end.

(** Reading a value of the kind of [e]: a 64-bit signed number through
    [readInteger], or a string through [readString]. *)
Definition receive (e : emission) : M context_io emission :=
  match e with
  | Number _ => num <- readInteger (lexical_cast_signed 64) ;; ret (Number num)
  | Text _ => str <- readString false ;; ret (Text str)
  end.

Fixpoint receive_all (es : list emission) : M context_io (list emission) :=
  match es with
  | [] => ret []
  | e :: es' => v <- receive e ;; vs <- receive_all es' ;; ret (v :: vs)
  end.

(** What comes back of an emission: a number as it is, a string without
    its NUL bytes. *)
Definition received (e : emission) : emission :=
  match e with
  | Number num => Number num
  | Text str => Text (remove_nul str)
  end.

(** The numbers among [es] fit a signed integer of [bits] bits. *)
Definition numbers_fit (bits : N) (e : emission) : Prop :=
  match e with
  | Number num => (- 2 ^ (Z.of_N bits - 1) <= num < 2 ^ (Z.of_N bits - 1))%Z
  | Text _ => True
  end.

(** ** Elements of a list *)

(** An element as a list context or the bare context writes it: a number
    as its decimal text, a string escaped between delimiters. *)
Definition emission_plain (e : emission) : string :=
  match e with
  | Number num => lexical_cast_string num
  | Text str => quoted (json_escape str)
  end.

(** The sixteen digits [hexChar] writes. *)
Definition hex_digits : string := "0123456789abcdef".

(** ** The stack of contexts *)

(** The current context of a channel with the transport, as its methods
    see them. *)
Definition top (ch : channel) : context_io :=
  mkIO (context_ (stack_ ch)) (bytes_ ch).

(** A container of class [k] with the elements [es]: the context is pushed,
    the elements are written or read through the top of the stack, and the
    context is popped. *)
Definition write_elements (k : context_class) (es : list emission)
  : M channel unit :=
  pushWrite (fresh k) ;; on_top (emit_all es) ;; popWrite.

Definition read_elements (k : context_class) (es : list emission)
  : M channel (list emission) :=
  pushRead (fresh k) ;;
  vs <- on_top (receive_all es) ;;
  popRead ;;
  ret vs.

(** ** Containers of the base protocol *)

(** A list, a set and a map whose elements are numbers and strings: the
    header, the elements through the top of the stack, the end. *)
Definition base_write_list (elemType : TType) (size : Z) (es : list emission)
  : M channel unit :=
  TJSONProtocol.writeListBegin elemType size ;;
  on_top (emit_all es) ;;
  TJSONProtocol.writeListEnd.

Definition base_read_list (es : list emission)
  : M channel (TType * Z * list emission) :=
  header <- TJSONProtocol.readListBegin ;;
  vs <- on_top (receive_all es) ;;
  TJSONProtocol.readListEnd ;;
  ret (header, vs).

Definition base_write_set (elemType : TType) (size : Z) (es : list emission)
  : M channel unit :=
  TJSONProtocol.writeSetBegin elemType size ;;
  on_top (emit_all es) ;;
  TJSONProtocol.writeSetEnd.

Definition base_read_set (es : list emission)
  : M channel (TType * Z * list emission) :=
  header <- TJSONProtocol.readSetBegin ;;
  vs <- on_top (receive_all es) ;;
  TJSONProtocol.readSetEnd ;;
  ret (header, vs).

Definition base_write_map (keyType valType : TType) (size : Z)
           (es : list emission) : M channel unit :=
  TJSONProtocol.writeMapBegin keyType valType size ;;
  on_top (emit_all es) ;;
  TJSONProtocol.writeMapEnd.

Definition base_read_map (es : list emission)
  : M channel (TType * TType * Z * list emission) :=
  header <- TJSONProtocol.readMapBegin ;;
  vs <- on_top (receive_all es) ;;
  TJSONProtocol.readMapEnd ;;
  ret (header, vs).

(** ** Messages of the JSON-RPC protocol *)

(** A protocol in transport mode, given by its message, its flags, its
    buffer, the current context of the transport with the content of the
    transport, the contexts below it and the stack of the buffer. *)
Definition rpc_state (msg : TJSONRPCProtocol.JSONRPCMessage) (f : N)
           (buf : string) (io : context_io) (cs : list TJSONContext)
           (bc : TJSONContextStack) : TJSONRPCProtocol.state :=
  TJSONRPCProtocol.mkState TJSONRPCProtocol.RW_TRANSPORT msg f buf
                           (trans_ io) (mkStack (this io) cs) bc.

(** The text of a struct whose members are numbers and strings. *)
Definition struct_text (es : list emission) : string :=
  "{" ++ emissions_text JSONPairContext 0 es ++ "}".

(** A message whose body is such a struct: the header, the struct, the
    end. *)
Definition rpc_send (name : string) (messageType : TMessageType) (seqid : Z)
           (es : list emission) : M TJSONRPCProtocol.state unit :=
  TJSONRPCProtocol.writeMessageBegin name messageType seqid ;;
  TJSONRPCProtocol.writeStructBegin ;;
  TJSONRPCProtocol.context (emit_all es) ;;
  TJSONRPCProtocol.writeStructEnd ;;
  TJSONRPCProtocol.writeMessageEnd.

Definition rpc_receive (es : list emission)
  : M TJSONRPCProtocol.state (string * TMessageType * Z * list emission) :=
  header <- TJSONRPCProtocol.readMessageBegin ;;
  TJSONRPCProtocol.readStructBegin ;;
  vs <- TJSONRPCProtocol.context (receive_all es) ;;
  TJSONRPCProtocol.readStructEnd ;;
  TJSONRPCProtocol.readMessageEnd ;;
  ret (header, vs).

(** The JSON-RPC 2.0 object of a message of each type, [body] being the
    text of its struct. *)
Definition rpc_envelope (name : string) (messageType : TMessageType)
           (seqid : Z) (body : string) : string :=
  let version := quoted "jsonrpc" ++ ":" ++ quoted "2.0" in
  let method := quoted "method" ++ ":" ++ quoted (json_escape name) in
  let id := quoted "id" ++ ":" ++ lexical_cast_string seqid in
  match messageType with
  | T_CALL =>
      "{" ++ version ++ "," ++ method ++ "," ++ quoted "params" ++ ":"
          ++ body ++ "," ++ id ++ "}"
  | T_ONEWAY =>
      "{" ++ version ++ "," ++ method ++ "," ++ quoted "params" ++ ":"
          ++ body ++ "}"
  | T_REPLY =>
      "{" ++ version ++ "," ++ quoted "result" ++ ":" ++ body ++ ","
          ++ id ++ "}"
  | T_EXCEPTION =>
      "{" ++ version ++ "," ++ quoted "error" ++ ":{"
          ++ quoted "code" ++ ":-32000,"
          ++ quoted "message" ++ ":" ++ quoted "Thrift exception" ++ ","
          ++ quoted "data" ++ ":" ++ body ++ "}," ++ id ++ "}"
  | T_OTHER _ => ""
  end.

(** ** Objects captured by [readObject] *)

(** Counting an opening brace up and a closing brace down from [depth],
    byte by byte, the count reaches zero at the last byte of [text] and not
    before. *)
Fixpoint closes_at_end (depth : nat) (text : string) : bool :=
  match text with
  | "" => false
  | String c rest =>
      let depth' :=
        if Ascii.eqb c kJSONObjectStart then S depth
        else if Ascii.eqb c kJSONObjectEnd then Nat.pred depth
        else depth in
      match depth' with
      | O => match rest with "" => true | _ => false end
      | S _ => closes_at_end depth' rest
      end
  end.

Definition is_brace (c : ascii) : bool :=
  Ascii.eqb c kJSONObjectStart || Ascii.eqb c kJSONObjectEnd.

(** No brace among the bytes of [text]. *)
Definition brace_free (text : string) : bool :=
  string_forall (fun c => negb (is_brace c)) text.

(** ** Members of the envelope *)

(** The members of an envelope that [readJSONRPCField] knows, the nested
    [error] object apart; [object] is the text of a JSON object. *)
Inductive member : Type :=
| Version
| Method (name : string)
| Id (seqid : Z)
| Params (object : string)
| Result (object : string).

(** A member at the positions [n] and [n + 1] of the envelope. *)
Definition member_text (n : nat) (m : member) : string :=
  let key name := emission_text JSONPairContext n (Text name) in
  match m with
  | Version =>
      key TJSONRPCProtocol.kJSONRPCName
      ++ emission_text JSONPairContext (S n)
                       (Text TJSONRPCProtocol.kJSONRPCVersion)
  | Method name =>
      key TJSONRPCProtocol.kJSONRPCMethod
      ++ emission_text JSONPairContext (S n) (Text name)
  | Id seqid =>
      key TJSONRPCProtocol.kJSONRPCId
      ++ emission_text JSONPairContext (S n) (Number seqid)
  | Params object =>
      key TJSONRPCProtocol.kJSONRPCParams
      ++ separator JSONPairContext (S n) ++ object
  | Result object =>
      key TJSONRPCProtocol.kJSONRPCResult
      ++ separator JSONPairContext (S n) ++ object
  end.

Fixpoint members_text (n : nat) (ms : list member) : string :=
  match ms with
  | [] => ""
  | m :: ms' => member_text n m ++ members_text (S (S n)) ms'
  end.

(** An object [readObject] can capture whole: it opens with a brace that
    its last byte closes, and is short of 4 GiB, so that the 32-bit count
    of open braces cannot wrap. *)
Definition whole_object (object : string) : Prop :=
  match object with
  | String c text =>
      c = kJSONObjectStart /\ closes_at_end 1 text = true /\
      (N.of_nat (String.length text) < UINT32_MAX)%N
  | "" => False
  end.

Definition member_ok (m : member) : Prop :=
  match m with
  | Id seqid => (- 2 ^ 31 <= seqid < 2 ^ 31)%Z
  | Params object | Result object => whole_object object
  | _ => True
  end.

(** What a member leaves in the message, the flags and the buffer of the
    protocol. *)
Definition scan_member (m : member)
           (st : TJSONRPCProtocol.JSONRPCMessage * N * string)
  : TJSONRPCProtocol.JSONRPCMessage * N * string :=
  let '(msg, f, buf) := st in
  match m with
  | Version => (msg, N.lor f TJSONRPCProtocol.JSONRPC_VERSION, buf)
  | Method name =>
      (TJSONRPCProtocol.mkMessage (remove_nul name)
         (TJSONRPCProtocol.id msg) (TJSONRPCProtocol.error_code msg)
         (TJSONRPCProtocol.error_message msg),
       N.lor f TJSONRPCProtocol.JSONRPC_METHOD, buf)
  | Id seqid =>
      (TJSONRPCProtocol.mkMessage (TJSONRPCProtocol.method msg) seqid
         (TJSONRPCProtocol.error_code msg)
         (TJSONRPCProtocol.error_message msg),
       N.lor f TJSONRPCProtocol.JSONRPC_ID, buf)
  | Params object =>
      (msg, N.lor f TJSONRPCProtocol.JSONRPC_PARAMS, buf ++ object)
  | Result object =>
      (msg, N.lor f TJSONRPCProtocol.JSONRPC_RESULT, buf ++ object)
  end.

Definition scan_members (ms : list member)
           (st : TJSONRPCProtocol.JSONRPCMessage * N * string)
  : TJSONRPCProtocol.JSONRPCMessage * N * string :=
  fold_left (fun st m => scan_member m st) ms st.

(** The envelope with the members [ms]. *)
Definition envelope_of (ms : list member) : string :=
  "{" ++ members_text 0 ms ++ "}".

(** * Properties *)

(** ** Strings and the monad *)

Lemma append_nil_r (s : string) : s ++ "" = s.
Proof. induction s as [|c s IH]; simpl; [reflexivity | now rewrite IH]. Qed.

Lemma append_assoc (a b c : string) : (a ++ b) ++ c = a ++ (b ++ c).
Proof. induction a as [|x a IH]; simpl; [reflexivity | now rewrite IH]. Qed.

Lemma length_append (a b : string) :
  String.length (a ++ b) = String.length a + String.length b.
Proof. induction a as [|x a IH]; simpl; [reflexivity | now rewrite IH]. Qed.

Lemma bind_ok {S A B : Type} (m : M S A) (k : A -> M S B) s a s' :
  m s = (Ok a, s') -> bind m k s = k a s'.
Proof. intros H. unfold bind. now rewrite H. Qed.

Lemma bind_err {S A B : Type} (m : M S A) (k : A -> M S B) s e s' :
  m s = (Err e, s') -> bind m k s = (Err e, s').
Proof. intros H. unfold bind. now rewrite H. Qed.

(** ** Writers append to the transport *)

Lemma write_run (bytes : string) (s : context_io) :
  write bytes s = (Ok tt, mkIO (this s) (trans_ s ++ bytes)).
Proof. reflexivity. Qed.

Lemma writeChar_run (ch : ascii) (s : context_io) :
  writeChar ch s = (Ok tt, mkIO (this s) (trans_ s ++ json_escape_char ch)).
Proof.
  destruct s as [c t].
  unfold writeChar, json_escape_char, writeEscapeChar, kJSONEscapePrefix.
  repeat match goal with
         | |- context [if ?b then _ else _] => destruct b
         end;
    unfold bind, write, modify, str1; simpl this; simpl trans_;
    rewrite ?append_assoc; reflexivity.
Qed.

Lemma for_each_writeChar_run (str : string) (s : context_io) :
  for_each writeChar str s
  = (Ok tt, mkIO (this s) (trans_ s ++ json_escape str)).
Proof.
  revert s. induction str as [|c str IH]; intros s; simpl.
  - unfold ret. rewrite append_nil_r. now destruct s.
  - rewrite (bind_ok _ _ _ _ _ (writeChar_run c s)), IH. simpl.
    now rewrite append_assoc.
Qed.

Lemma decimal_digits_length (fuel : nat) (n : N) (acc : string) :
  String.length (decimal_digits fuel n acc) <= fuel + String.length acc.
Proof.
  revert n acc. induction fuel as [|fuel IH]; intros n acc; simpl.
  - lia.
  - destruct (n / 10 =? 0)%N.
    + simpl. lia.
    + specialize (IH (n / 10)%N
                     (String (ascii_of_N (48 + n mod 10)) acc)).
      simpl in IH. lia.
Qed.

(** The text of a number is at most a sign and 20 digits: the size guard of
    [writeInteger] never fires. *)
Lemma lexical_cast_string_short (num : Z) :
  (UINT32_MAX <? size (lexical_cast_string num))%N = false.
Proof.
  apply N.ltb_ge. unfold size, lexical_cast_string, UINT32_MAX.
  destruct (num <? 0)%Z.
  - pose proof (decimal_digits_length 20 (Z.abs_N num) "") as H.
    cbn [String.length] in *. lia.
  - pose proof (decimal_digits_length 20 (Z.to_N num) "") as H.
    cbn [String.length] in *. lia.
Qed.

(** ** The pair context: separators and quoting of numbers *)

Lemma writeNext_pair (k : nat) (r : LookaheadReader) (t : string) :
  writeNext (mkIO (pair_context_after k r) t)
  = (Ok tt, mkIO (pair_context_after (S k) r) (t ++ pair_separator k)).
Proof.
  destruct k as [|j].
  - cbn. now rewrite append_nil_r.
  - unfold pair_separator. rewrite Nat.odd_succ.
    unfold pair_context_after. rewrite Nat.even_succ, <- Nat.negb_even.
    cbn. destruct (Nat.even j); reflexivity.
Qed.

Lemma writeNext_times_pair (k : nat) (w : string) :
  exists seps,
    writeNext_times k (mkIO new_TJSONPairContext w)
    = (Ok tt, mkIO (pair_context_after k new_reader) (w ++ seps)).
Proof.
  induction k as [|k [seps IH]].
  - exists "". cbn. now rewrite append_nil_r.
  - exists (seps ++ pair_separator k). cbn [writeNext_times].
    rewrite (bind_ok _ _ _ _ _ IH), writeNext_pair.
    now rewrite append_assoc.
Qed.

Lemma writeInteger_pair (num : Z) (k : nat) (r : LookaheadReader) (t : string) :
  writeInteger num (mkIO (pair_context_after k r) t)
  = (Ok tt, mkIO (pair_context_after (S k) r)
                 (t ++ pair_emission k (Number num))).
Proof.
  unfold writeInteger.
  rewrite (bind_ok _ _ _ _ _ (writeNext_pair k r t)).
  unfold bind at 1. cbn [get].
  change (escapeNum (this (mkIO (pair_context_after (S k) r)
                                (t ++ pair_separator k))))
    with (Nat.even k).
  rewrite lexical_cast_string_short.
  unfold pair_emission, quoted.
  destruct (Nat.even k); unfold bind, write, modify, ret, str1; cbn;
    rewrite ?append_assoc; reflexivity.
Qed.

Lemma writeString_pair (str : string) (k : nat) (r : LookaheadReader)
      (t : string) :
  writeString str (mkIO (pair_context_after k r) t)
  = (Ok tt, mkIO (pair_context_after (S k) r)
                 (t ++ pair_emission k (Text str))).
Proof.
  unfold writeString.
  rewrite (bind_ok _ _ _ _ _ (writeNext_pair k r t)).
  rewrite (bind_ok _ _ _ _ _ (write_run _ _)).
  rewrite (bind_ok _ _ _ _ _ (for_each_writeChar_run _ _)).
  rewrite write_run. unfold pair_emission, quoted, str1. cbn.
  now rewrite !append_assoc.
Qed.

Lemma emit_all_pair (es : list emission) :
  forall (k : nat) (r : LookaheadReader) (t : string),
    emit_all es (mkIO (pair_context_after k r) t)
    = (Ok tt, mkIO (pair_context_after (List.length es + k) r)
                   (t ++ pair_emissions k es)).
Proof.
  induction es as [|e es IH]; intros k r t.
  - cbn. now rewrite append_nil_r.
  - cbn [emit_all pair_emissions List.length].
    assert (He : emit e (mkIO (pair_context_after k r) t)
                 = (Ok tt, mkIO (pair_context_after (S k) r)
                                (t ++ pair_emission k e))).
    { destruct e; [apply writeInteger_pair | apply writeString_pair]. }
    rewrite (bind_ok _ _ _ _ _ He), IH, append_assoc.
    now replace (List.length es + S k) with (S (List.length es) + k) by lia.
Qed.

Section PairValues.

Variable ostream_double : Z -> PrimFloat.float -> string.
Hypothesis ostream_double_short :
  forall d, (size (ostream_double 17 d) <= UINT32_MAX)%N.

Lemma writeDouble_pair (num : PrimFloat.float) (k : nat)
      (r : LookaheadReader) (t : string) :
  writeDouble ostream_double num (mkIO (pair_context_after k r) t)
  = (Ok tt, mkIO (pair_context_after (S k) r)
                 (t ++ pair_value_text ostream_double k (Double num))).
Proof.
  assert (H1 : (UINT32_MAX <? size kThriftInfinity)%N = false) by reflexivity.
  assert (H2 : (UINT32_MAX <? size kThriftNegativeInfinity)%N = false)
    by reflexivity.
  assert (H3 : (UINT32_MAX <? size kThriftNan)%N = false) by reflexivity.
  pose proof (ostream_double_short num) as Hshort.
  apply N.ltb_ge in Hshort.
  unfold writeDouble.
  rewrite (bind_ok _ _ _ _ _ (writeNext_pair k r t)).
  unfold pair_value_text, special_double, double_text, fpclassify, signbit,
    doubleToString, digits10.
  change (2 + 15)%Z with 17%Z.
  destruct (PrimFloat.classify num);
    unfold bind at 1; cbn [get]; cbv beta iota;
    change (escapeNum (this (mkIO (pair_context_after (S k) r)
                                  (t ++ pair_separator k))))
      with (Nat.even k);
    rewrite ?orb_true_r, ?orb_false_r; cbn [orb];
    try (destruct (Nat.even k));
    unfold bind, write, modify, ret, quoted, str1; cbn [this trans_];
    rewrite ?Hshort, ?H1, ?H2, ?H3; cbn [fst snd this trans_];
    rewrite ?append_assoc; cbn [append]; rewrite ?append_assoc; reflexivity.
Qed.

Lemma write_values_pair (vs : list written_value) :
  forall (k : nat) (r : LookaheadReader) (t : string),
    write_values ostream_double vs (mkIO (pair_context_after k r) t)
    = (Ok tt, mkIO (pair_context_after (List.length vs + k) r)
                   (t ++ pair_values_text ostream_double k vs)).
Proof.
  induction vs as [|v vs IH]; intros k r t.
  - cbn. now rewrite append_nil_r.
  - cbn [write_values pair_values_text List.length].
    assert (Hv : write_value ostream_double v (mkIO (pair_context_after k r) t)
                 = (Ok tt, mkIO (pair_context_after (S k) r)
                                (t ++ pair_value_text ostream_double k v))).
    { destruct v as [num|num|str];
        [apply writeInteger_pair | apply writeDouble_pair
         | apply writeString_pair]. }
    rewrite (bind_ok _ _ _ _ _ Hv), IH, append_assoc.
    now replace (List.length vs + S k) with (S (List.length vs) + k) by lia.
Qed.

(** C3, amended.  A pair context emits nothing before its first element
    and then a colon and a comma in turn, the colon first; once the
    separator of emission [k] (counted from 0) is out, [escapeNum] holds
    exactly when [k] is even, so that in any sequence of integers, doubles
    and strings written into a fresh pair context every number at an even
    position is quoted, and a number at an odd position is not, unless it
    is an infinity or NaN, which [writeDouble] quotes at every position. *)
Theorem pair_context_separators_and_quoting :
  (forall (k : nat) (w : string),
      let before := final (writeNext_times k) (mkIO new_TJSONPairContext w) in
      outcome writeNext before = Ok tt /\
      trans_ (final writeNext before) = trans_ before ++ pair_separator k /\
      escapeNum (this (final writeNext before)) = Nat.even k)
  /\
  (forall (vs : list written_value) (w : string),
      let s := mkIO new_TJSONPairContext w in
      outcome (write_values ostream_double vs) s = Ok tt /\
      trans_ (final (write_values ostream_double vs) s)
      = w ++ pair_values_text ostream_double 0 vs).
Proof.
  split.
  - intros k w before.
    destruct (writeNext_times_pair k w) as [seps H].
    unfold before, final, outcome. rewrite H. cbn [snd].
    rewrite writeNext_pair. cbn [fst snd trans_ this].
    repeat split.
  - intros vs w s. unfold s, outcome, final.
    change new_TJSONPairContext with (pair_context_after 0 new_reader).
    rewrite write_values_pair. now split.
Qed.

End PairValues.

(** An integer, a finite double, a string, an infinity and NaN written into
    a fresh pair context, with a formatter that prints every double as
    [0]. *)
Lemma pair_context_separators_and_quoting_witness :
  let fmt := fun (_ : Z) (_ : PrimFloat.float) => "0" in
  let vs := [Integer 1; Double PrimFloat.one; Double PrimFloat.one;
             Integer 2; Str "a"; Double PrimFloat.infinity;
             Integer 3; Double PrimFloat.nan] in
  (forall d, (size (fmt 17%Z d) <= UINT32_MAX)%N) /\
  trans_ (final (write_values fmt vs) (mkIO new_TJSONPairContext "{"))
  = "{" ++ quoted "1" ++ ":0," ++ quoted "0" ++ ":2," ++ quoted "a" ++ ":"
        ++ quoted "Infinity" ++ "," ++ quoted "3" ++ ":" ++ quoted "NaN".
Proof.
  intros fmt vs.
  assert (Hshort : forall d, (size (fmt 17%Z d) <= UINT32_MAX)%N)
    by (intros d; vm_compute; discriminate).
  split; [exact Hshort|].
  destruct (pair_context_separators_and_quoting fmt Hshort) as [_ H].
  destruct (H vs "{") as [_ ->]. vm_compute. reflexivity.
Defined.

(** C3, the claim as it stands fails: an infinity written as the second
    emission of a pair context (index 1, after the colon, where [escapeNum]
    does not hold) is wrapped in quotes all the same, whatever the
    formatter. *)
Lemma pair_context_quotes_infinity_at_odd_index :
  Nat.even 1 = false /\
  escapeNum (this (final (writeInteger 1 ;; writeNext)
                         (mkIO new_TJSONPairContext "")))
  = false /\
  (forall ostream_double : Z -> PrimFloat.float -> string,
      trans_ (final (writeInteger 1 ;;
                     writeDouble ostream_double PrimFloat.infinity)
                    (mkIO new_TJSONPairContext ""))
      = quoted "1" ++ ":" ++ quoted "Infinity").
Proof.
  split; [reflexivity|]. split; [vm_compute; reflexivity|].
  intros ostream_double. vm_compute. reflexivity.
Qed.

(** ** The JSON-RPC envelope on the wire *)

(** C2.  A call of [primitiveMethod] with sequence id 0 and an empty
    argument struct, written by a fresh JSON-RPC protocol on an empty
    transport, leaves exactly the JSON-RPC request with empty [params] and
    [id] 0 on the transport. *)
Theorem rpc_call_empty_params_wire :
  outcome send_primitiveMethod (TJSONRPCProtocol.init "") = Ok tt /\
  TJSONRPCProtocol.ptrans_ (final send_primitiveMethod (TJSONRPCProtocol.init ""))
  = "{" ++ quoted "jsonrpc" ++ ":" ++ quoted "2.0" ++ ","
        ++ quoted "method" ++ ":" ++ quoted "primitiveMethod" ++ ","
        ++ quoted "params" ++ ":{},"
        ++ quoted "id" ++ ":0}".
Proof. split; vm_compute; reflexivity. Qed.

Module Envelope.
Import TJSONRPCProtocol.

Lemma not_recognized (f : N) :
  ~ In f recognized_flags ->
  (f =? JSONRPC_REQUEST)%N = false /\
  (f =? JSONRPC_FULL_REQUEST)%N = false /\
  (f =? JSONRPC_NOTIFICATION)%N = false /\
  (f =? JSONRPC_FULL_NOTIFICATION)%N = false /\
  (f =? JSONRPC_RESPONSE)%N = false /\
  (f =? JSONRPC_ERROR)%N = false /\
  (f =? JSONRPC_FULL_ERROR)%N = false.
Proof.
  intros H. repeat split; apply N.eqb_neq; intros ->; apply H;
    unfold recognized_flags; simpl; tauto.
Qed.

(** C4.  When the scan of the envelope has succeeded, the flag set it
    leaves decides what [readMessageBegin] returns: a call with the
    recorded id for REQUEST and FULL_REQUEST, a oneway with id 0 for
    NOTIFICATION and FULL_NOTIFICATION, a reply with an empty name for
    RESPONSE, an exception with an empty name for ERROR and FULL_ERROR;
    the three variants without payload get an empty object appended to
    the scratch buffer and the others leave it as it is; any other flag
    set raises invalid-data, with the buffer reset and the flags
    cleared. *)
Theorem readMessageBegin_by_flags (s0 s1 : state)
        (Hscan : readMessageBegin_scan s0 = (Ok tt, s1)) :
  let f := flags_ s1 in
  let m := message_ s1 in
  let r := outcome readMessageBegin s0 in
  let s2 := final readMessageBegin s0 in
  (f = JSONRPC_REQUEST \/ f = JSONRPC_FULL_REQUEST ->
   r = Ok (method m, T_CALL, id m)) /\
  (f = JSONRPC_NOTIFICATION \/ f = JSONRPC_FULL_NOTIFICATION ->
   r = Ok (method m, T_ONEWAY, 0%Z)) /\
  (f = JSONRPC_RESPONSE -> r = Ok ("", T_REPLY, id m)) /\
  (f = JSONRPC_ERROR \/ f = JSONRPC_FULL_ERROR ->
   r = Ok ("", T_EXCEPTION, id m)) /\
  (f = JSONRPC_REQUEST \/ f = JSONRPC_NOTIFICATION \/ f = JSONRPC_ERROR ->
   buffer_ s2 = buffer_ s1 ++ "{}") /\
  (f = JSONRPC_FULL_REQUEST \/ f = JSONRPC_FULL_NOTIFICATION \/
   f = JSONRPC_FULL_ERROR \/ f = JSONRPC_RESPONSE ->
   buffer_ s2 = buffer_ s1) /\
  (In f recognized_flags -> mode_ s2 = RW_BUFFERED) /\
  (~ In f recognized_flags ->
   r = Err INVALID_DATA /\ buffer_ s2 = "" /\ flags_ s2 = JSONRPC_UNSET).
Proof.
  intros f m r s2. subst r s2. unfold outcome, final, readMessageBegin.
  rewrite (bind_ok _ _ _ _ _ Hscan). subst f m.
  destruct s1 as [mode msg f buf pt tc bc]. cbn [flags_ message_ buffer_].
  repeat match goal with |- _ /\ _ => split end.
  1-6: intros H; repeat destruct H as [H|H]; subst f; cbn;
    rewrite ?append_assoc; reflexivity.
  - unfold recognized_flags. intros H. cbn [In] in H.
    repeat destruct H as [H|H]; try contradiction; subst f; reflexivity.
  - intros H. apply not_recognized in H.
    destruct H as (H1 & H2 & H3 & H4 & H5 & H6 & H7).
    unfold readMessageBegin_switch, bind, get. cbn [flags_].
    rewrite H1, H2, H3, H4, H5, H6, H7. repeat split.
Qed.

(** The request without [params] of the test suite: the scan ends with
    the flag set REQUEST, and the message is a call of [primitiveMethod]
    with id 55 whose argument struct is the empty object. *)
Lemma readMessageBegin_by_flags_witness :
  let s0 := init request_without_params in
  let s1 := final readMessageBegin_scan s0 in
  readMessageBegin_scan s0 = (Ok tt, s1) /\
  flags_ s1 = JSONRPC_REQUEST /\
  outcome readMessageBegin s0 = Ok ("primitiveMethod", T_CALL, 55%Z) /\
  buffer_ (final readMessageBegin s0) = "{}".
Proof.
  intros s0 s1.
  assert (Hscan : readMessageBegin_scan s0 = (Ok tt, s1))
    by (vm_compute; reflexivity).
  assert (Hf : flags_ s1 = JSONRPC_REQUEST) by (vm_compute; reflexivity).
  destruct (readMessageBegin_by_flags s0 s1 Hscan)
    as (Hcall & _ & _ & _ & Hbuf & _).
  split; [exact Hscan|]. split; [exact Hf|]. split.
  - exact (Hcall (or_introl Hf)).
  - exact (Hbuf (or_introl Hf)).
Defined.

End Envelope.

(** ** Bytes by enumeration *)

Lemma in_all_ascii (a : ascii) : In a all_ascii.
Proof.
  unfold all_ascii. rewrite <- (ascii_nat_embedding a).
  apply in_map, in_seq. pose proof (nat_ascii_bounded a). lia.
Qed.

Lemma forall_ascii (P : ascii -> bool) :
  forallb P all_ascii = true -> forall a, P a = true.
Proof.
  intros H a. rewrite forallb_forall in H. apply H, in_all_ascii.
Qed.

Lemma forall_ascii2 (P : ascii -> ascii -> bool) :
  forallb (fun a => forallb (P a) all_ascii) all_ascii = true ->
  forall a b, P a b = true.
Proof.
  intros H a b.
  apply (forall_ascii (P a)), (forall_ascii (fun a => forallb (P a) all_ascii) H).
Qed.

(** ** Type tags *)

Lemma is_ok_with_eq (r : result TType) (t : TType) :
  is_ok_with r t = true -> r = Ok t.
Proof.
  destruct r as [t'|e]; simpl; [|discriminate].
  intros H. apply N.eqb_eq in H. f_equal.
  destruct t', t; simpl in H; try reflexivity; discriminate.
Qed.

Lemma is_not_implemented_eq (r : result TType) :
  is_not_implemented r = true -> r = Err NOT_IMPLEMENTED.
Proof. destruct r as [t|[]]; simpl; now try discriminate. Qed.

Lemma type_prefix_check_all (c0 c1 : ascii) : type_prefix_check c0 c1 = true.
Proof. revert c0 c1. apply forall_ascii2. vm_compute. reflexivity. Qed.

Lemma starts_with_two (c0 c1 : ascii) (rest : string) :
  Forall (fun pt => starts_with (fst pt) (String c0 (String c1 rest))
                    = starts_with (fst pt) (String c0 (String c1 "")))
         type_prefixes.
Proof. unfold type_prefixes. repeat constructor. Qed.

Lemma getTypeIDForTypeName_by_prefix (name : string) :
  (forall p t, In (p, t) type_prefixes ->
               2 <= String.length name -> starts_with p name = true ->
               getTypeIDForTypeName name = Ok t) /\
  (String.length name < 2 \/
   (forall p t, In (p, t) type_prefixes -> starts_with p name = false) ->
   getTypeIDForTypeName name = Err NOT_IMPLEMENTED).
Proof.
  destruct name as [|c0 [|c1 rest]].
  - split; [simpl; intros; lia | reflexivity].
  - split; [simpl; intros; lia | reflexivity].
  - change (getTypeIDForTypeName (String c0 (String c1 rest)))
      with (getTypeIDForTypeName (String c0 (String c1 ""))).
    pose proof (type_prefix_check_all c0 c1) as H.
    unfold type_prefix_check in H. apply andb_prop in H. destruct H as [Hyes Hno].
    rewrite forallb_forall in Hyes.
    pose proof (starts_with_two c0 c1 rest) as Htwo.
    rewrite Forall_forall in Htwo.
    split.
    + intros p t Hin _ Hp. apply is_ok_with_eq.
      specialize (Hyes (p, t) Hin). specialize (Htwo (p, t) Hin).
      cbn [fst snd] in *. rewrite Htwo in Hp. now rewrite Hp in Hyes.
    + intros [Hlen|Hnone]; [simpl in Hlen; lia|].
      apply is_not_implemented_eq.
      assert (Hall : forallb (fun pt => negb (starts_with (fst pt)
                                  (String c0 (String c1 ""))))
                             type_prefixes = true).
      { apply forallb_forall. intros [p t] Hin.
        specialize (Htwo (p, t) Hin). cbn [fst] in *.
        now rewrite <- Htwo, (Hnone p t Hin). }
      now rewrite Hall in Hno.
Qed.

(** C7, the claim as it stands fails: the string [dx] is not one of the
    eleven identifiers, and [readTypeID] reads it as the type double. *)
Lemma readTypeID_accepts_other_identifier :
  ~ In "dx" (map fst type_names) /\
  outcome readTypeID (mkIO new_TJSONContext (quoted "dx")) = Ok T_DOUBLE.
Proof.
  split.
  - simpl. intros H. repeat destruct H as [H|H]; try discriminate H. exact H.
  - vm_compute. reflexivity.
Qed.

(** C7, amended.  [readTypeID] decides by the first one or two characters
    of the identifier it has read: an identifier of at least two characters
    that starts with [d], [l], [m], [r], [t], [i8], [i1], [i3], [i6], [st]
    or [se] is read as the type of that prefix, whatever follows; an
    identifier shorter than two characters, or with none of these prefixes,
    raises not-implemented; and each of the eleven identifiers is read as
    its own type. *)
Theorem readTypeID_by_prefix (s s' : context_io) (name : string)
        (Hread : readString false s = (Ok name, s')) :
  (forall p t, In (p, t) type_prefixes ->
               2 <= String.length name -> starts_with p name = true ->
               readTypeID s = (Ok t, s')) /\
  (String.length name < 2 \/
   (forall p t, In (p, t) type_prefixes -> starts_with p name = false) ->
   readTypeID s = (Err NOT_IMPLEMENTED, s')) /\
  (forall t, In (name, t) type_names -> readTypeID s = (Ok t, s')).
Proof.
  unfold readTypeID. rewrite (bind_ok _ _ _ _ _ Hread).
  destruct (getTypeIDForTypeName_by_prefix name) as [Hyes Hno].
  split; [|split].
  - intros p t Hin Hlen Hp. now rewrite (Hyes p t Hin Hlen Hp).
  - intros H. now rewrite (Hno H).
  - intros t Hin. unfold type_names in Hin. cbn [In] in Hin.
    repeat destruct Hin as [Hin|Hin]; try contradiction;
      injection Hin as <- <-; reflexivity.
Qed.

Lemma readTypeID_by_prefix_witness :
  let s := mkIO new_TJSONContext (quoted "i32") in
  readString false s = (Ok "i32", final (readString false) s) /\
  readTypeID s = (Ok T_I32, final (readString false) s).
Proof.
  intros s.
  assert (Hread : readString false s = (Ok "i32", final (readString false) s))
    by (vm_compute; reflexivity).
  split; [exact Hread|].
  destruct (readTypeID_by_prefix s _ "i32" Hread) as (_ & _ & Hnames).
  apply Hnames. unfold type_names. simpl. tauto.
Defined.

(** ** Doubles *)

Lemma writeNext_total (s : context_io) :
  writeNext s = (Ok tt, final writeNext s).
Proof.
  destruct s as [[[] [] [] r] t]; reflexivity.
Qed.

Section DoubleWriter.

(** The formatter of the C++ library, and the one fact about it that
    [writeDouble] relies on: its text fits the 32-bit length guard (at
    precision 17 a double takes at most 24 characters). *)
Variable ostream_double : Z -> PrimFloat.float -> string.
Hypothesis ostream_double_short :
  forall d, (size (ostream_double 17 d) <= UINT32_MAX)%N.

(** C9.  Once the separator of the context is out, [writeDouble] appends
    the token Infinity, -Infinity or NaN between quotes for the three
    special values, whatever the context; for every other double it appends
    the text the C++ formatter gives at precision 2 + 15 = 17 in the classic
    locale, between quotes exactly when [escapeNum] holds in the context. *)
Theorem writeDouble_tokens_and_quoting (num : PrimFloat.float)
        (s : context_io) :
  let s1 := final writeNext s in
  let esc := escapeNum (this s1) in
  let text :=
    match PrimFloat.classify num with
    | FloatClass.PInf => quoted "Infinity"
    | FloatClass.NInf => quoted "-Infinity"
    | FloatClass.NaN => quoted "NaN"
    | _ => if esc then quoted (ostream_double 17 num)
           else ostream_double 17 num
    end in
  writeDouble ostream_double num s
  = (Ok tt, mkIO (this s1) (trans_ s1 ++ text)).
Proof.
  intros s1 esc text. subst text esc.
  unfold writeDouble. rewrite (bind_ok _ _ _ _ _ (writeNext_total s)).
  fold s1. destruct s1 as [c t]. cbn [this trans_].
  pose proof (ostream_double_short num) as Hshort.
  apply N.ltb_ge in Hshort.
  unfold fpclassify, signbit, doubleToString, digits10.
  change (2 + 15)%Z with 17%Z.
  destruct (PrimFloat.classify num);
    unfold bind at 1; cbn [get this]; cbv beta iota; cbn [this orb];
    try (destruct (escapeNum c));
    unfold bind, write, modify, ret, quoted, str1; cbn [this trans_];
    rewrite ?Hshort; cbn; rewrite ?append_assoc; reflexivity.
Qed.

End DoubleWriter.

(** A formatter to run [writeDouble] with: it prints every double as [0]. *)
Lemma writeDouble_tokens_and_quoting_witness :
  let fmt := fun (_ : Z) (_ : PrimFloat.float) => "0" in
  (forall d, (size (fmt 17%Z d) <= UINT32_MAX)%N) /\
  writeDouble fmt PrimFloat.infinity
              (mkIO (mkContext JSONListContext false true new_reader) "[1")
  = (Ok tt, mkIO (mkContext JSONListContext false true new_reader)
                 ("[1," ++ quoted "Infinity")) /\
  writeDouble fmt PrimFloat.one (mkIO new_TJSONPairContext "{")
  = (Ok tt, mkIO (mkContext JSONPairContext false true new_reader)
                 ("{" ++ quoted "0")).
Proof.
  intros fmt.
  assert (Hshort : forall d, (size (fmt 17%Z d) <= UINT32_MAX)%N)
    by (intros d; vm_compute; discriminate).
  split; [exact Hshort|]. split.
  - exact (writeDouble_tokens_and_quoting fmt Hshort PrimFloat.infinity
             (mkIO (mkContext JSONListContext false true new_reader) "[1")).
  - exact (writeDouble_tokens_and_quoting fmt Hshort PrimFloat.one
             (mkIO new_TJSONPairContext "{")).
Defined.

(** ** Defects found on concrete inputs *)

(** C1.  A call of method [m] with sequence id 7 whose string argument is
    a closing brace does not come back from the JSON-RPC protocol: the
    capture of [params] by [readObject] counts the brace inside the string,
    stops early, and the rest of the envelope is taken for its end; the
    message is read as a oneway with sequence id 0, and reading its
    argument struct from the truncated capture runs into the end of the
    buffer.  With an opening brace in the string the capture runs past the
    envelope and the header is not read at all.  The same message with a
    string without braces is read back as written. *)
Theorem rpc_roundtrip_fails_on_brace_in_string :
  let wire := rpc_wire_of (send_call_with_string "m" 7 "}") in
  outcome (send_call_with_string "m" 7 "}") (TJSONRPCProtocol.init "") = Ok tt /\
  outcome TJSONRPCProtocol.readMessageBegin (TJSONRPCProtocol.init wire)
  = Ok ("m", T_ONEWAY, 0%Z) /\
  outcome recv_call_with_string (TJSONRPCProtocol.init wire)
  = Err END_OF_FILE /\
  outcome recv_call_with_string
          (TJSONRPCProtocol.init
             (rpc_wire_of (send_call_with_string "m" 7 "{")))
  = Err END_OF_FILE /\
  outcome recv_call_with_string
          (TJSONRPCProtocol.init
             (rpc_wire_of (send_call_with_string "m" 7 "a b")))
  = Ok ("m", T_CALL, 7%Z, "a b").
Proof. repeat split; vm_compute; reflexivity. Qed.

(** The base protocol does not capture objects and reads the same message
    back, braces included; its wire is the array of the spec's scenario. *)
Lemma base_roundtrip_with_braces :
  base_wire_of (base_send_call_with_string "test" 1 "{}")
  = "[1," ++ quoted "test" ++ ",1,1,{" ++ quoted "1" ++ ":{" ++ quoted "str"
          ++ ":" ++ quoted "{}" ++ "}}]" /\
  outcome base_recv_call_with_string
          (TJSONProtocol.init
             (base_wire_of (base_send_call_with_string "test" 1 "{}")))
  = Ok ("test", T_CALL, 1%Z, "{}").
Proof. split; vm_compute; reflexivity. Qed.

(** C6.  A pending high surrogate is not rejected when the next thing in
    the string is another [\u] escape: followed by the escape of a plain
    character, or by a second high surrogate, the string is accepted (and
    the units that do not pair are dropped by the conversion). *)
Theorem readString_accepts_unpaired_high_surrogate :
  outcome (readString false) (mkIO new_TJSONContext lone_high_surrogate)
  = Ok "" /\
  outcome (readString false) (mkIO new_TJSONContext doubled_high_surrogate)
  = Ok "".
Proof. split; vm_compute; reflexivity. Qed.

(** C8.  A failure inside [readJSONRPCField] leaves the scratch buffer and
    the flags as they were when it was raised: after a captured [params],
    an unknown key raises invalid-data, and a version other than 2.0 raises
    bad-version, with the captured object still in the buffer and the flags
    collected so far still set. *)
Theorem readJSONRPCField_failure_keeps_buffer_and_flags :
  let s1 := TJSONRPCProtocol.init envelope_with_unknown_key in
  let s2 := TJSONRPCProtocol.init envelope_with_bad_version in
  outcome TJSONRPCProtocol.readMessageBegin s1 = Err INVALID_DATA /\
  TJSONRPCProtocol.buffer_ (final TJSONRPCProtocol.readMessageBegin s1) = "{}" /\
  TJSONRPCProtocol.flags_ (final TJSONRPCProtocol.readMessageBegin s1)
  = N.lor TJSONRPCProtocol.JSONRPC_VERSION TJSONRPCProtocol.JSONRPC_PARAMS /\
  outcome TJSONRPCProtocol.readMessageBegin s2 = Err BAD_VERSION /\
  TJSONRPCProtocol.buffer_ (final TJSONRPCProtocol.readMessageBegin s2) = "{}" /\
  TJSONRPCProtocol.flags_ (final TJSONRPCProtocol.readMessageBegin s2)
  = TJSONRPCProtocol.JSONRPC_PARAMS.
Proof. repeat split; vm_compute; reflexivity. Qed.

(** C10.  On the string made of two padding bytes the loop that strips the
    padding does not stop inside the string: after the two bytes its index
    wraps to 4294967295, which still passes the test against the bound 0,
    and the byte at that index is read. *)
Theorem ignore_padding_reads_outside :
  decodeBase64 "==" = Err (OUT_OF_BOUNDS 4294967295) /\
  outcome readBase64 (mkIO new_TJSONContext (quoted "=="))
  = Err (OUT_OF_BOUNDS 4294967295).
Proof. split; vm_compute; reflexivity. Qed.

(** ** Base64: groups *)

Lemma in_all_digits (v : N) : (v < 64)%N -> In v all_digits.
Proof.
  intros H. unfold all_digits. rewrite <- (N2Nat.id v).
  apply in_map, in_seq. lia.
Qed.

Lemma encode_digit_base64_byte (v : N) : is_base64_byte (encode_digit v) = true.
Proof.
  unfold encode_digit.
  assert (H : (N.land v 63 < 64)%N).
  { change 63%N with (N.ones 6). rewrite N.land_ones.
    apply N.mod_lt. discriminate. }
  apply in_all_digits in H. revert H. generalize (N.land v 63). intros w H.
  assert (Hall : forallb (fun w => is_base64_byte
             match String.get (N.to_nat w) kBase64EncodeTable with
             | Some c => c
             | None => Ascii.zero
             end) all_digits = true) by (vm_compute; reflexivity).
  rewrite forallb_forall in Hall. exact (Hall w H).
Qed.

Lemma base64_decode_encode_1 (a : ascii) :
  base64_decode (base64_encode (str1 a)) = str1 a.
Proof.
  apply String.eqb_eq. revert a. apply (forall_ascii group1_check).
  vm_compute. reflexivity.
Qed.

Lemma base64_decode_encode_2 (a b : ascii) :
  base64_decode (base64_encode (String a (str1 b))) = String a (str1 b).
Proof.
  apply String.eqb_eq. revert a b. apply (forall_ascii2 group2_check).
  vm_compute. reflexivity.
Qed.

Lemma group3_check_all (b c : ascii) : group3_check b c = true.
Proof. revert b c. apply forall_ascii2. vm_compute. reflexivity. Qed.

Lemma base64_decode_encode_3 (a b c : ascii) :
  base64_decode (base64_encode (String a (String b (str1 c))))
  = String a (String b (str1 c)).
Proof.
  pose proof (base64_decode_encode_2 a b) as H2.
  pose proof (group3_check_all b c) as H3.
  unfold group3_check in H3. cbv zeta in H3.
  apply andb_prop in H3. destruct H3 as [Hmid Hlast].
  apply N.eqb_eq in Hmid. apply Ascii.eqb_eq in Hlast.
  unfold base64_decode, base64_encode, str1. cbv beta iota zeta.
  rewrite Hmid.
  unfold base64_decode, base64_encode, str1 in H2. cbv beta iota zeta in H2.
  injection H2 as H20 H21.
  f_equal; [exact H20 | f_equal; [exact H21 | f_equal; exact Hlast]].
Qed.

(** ** Base64: the text of a string *)

Lemma string_ind3 (P : string -> Prop) :
  P "" ->
  (forall a, P (str1 a)) ->
  (forall a b, P (String a (str1 b))) ->
  (forall a b c rest, P rest -> P (String a (String b (String c rest)))) ->
  forall s, P s.
Proof.
  intros H0 H1 H2 H3. fix IH 1.
  intros [|a [|b [|c rest]]]; [exact H0 | apply H1 | apply H2 |].
  apply H3, IH.
Qed.

Lemma string_forall_app (P : ascii -> bool) (a b : string) :
  string_forall P (a ++ b) = string_forall P a && string_forall P b.
Proof.
  induction a as [|c a IH]; simpl; [reflexivity|].
  now rewrite IH, andb_assoc.
Qed.

Lemma base64_encode_3_shape (a b c : ascii) :
  exists e0 e1 e2 e3,
    base64_encode (String a (String b (String c "")))
    = String e0 (String e1 (String e2 (String e3 ""))) /\
    is_base64_byte e0 = true /\ is_base64_byte e1 = true /\
    is_base64_byte e2 = true /\ is_base64_byte e3 = true.
Proof.
  do 4 eexists. split; [reflexivity|].
  repeat split; apply encode_digit_base64_byte.
Qed.

Lemma base64_encode_2_shape (a b : ascii) :
  exists e0 e1 e2,
    base64_encode (String a (String b ""))
    = String e0 (String e1 (String e2 "")) /\
    is_base64_byte e0 = true /\ is_base64_byte e1 = true /\
    is_base64_byte e2 = true.
Proof.
  do 3 eexists. split; [reflexivity|].
  repeat split; apply encode_digit_base64_byte.
Qed.

Lemma base64_encode_1_shape (a : ascii) :
  exists e0 e1,
    base64_encode (String a "") = String e0 (String e1 "") /\
    is_base64_byte e0 = true /\ is_base64_byte e1 = true.
Proof.
  do 2 eexists. split; [reflexivity|].
  split; apply encode_digit_base64_byte.
Qed.

Lemma base64_text_3 (a b c : ascii) (rest : string) :
  base64_text (String a (String b (String c rest)))
  = base64_encode (String a (String b (String c ""))) ++ base64_text rest.
Proof. reflexivity. Qed.

Lemma base64_text_bytes (bytes : string) :
  string_forall is_base64_byte (base64_text bytes) = true.
Proof.
  induction bytes as [|a|a b|a b c rest IH] using string_ind3.
  - reflexivity.
  - destruct (base64_encode_1_shape a) as (e0 & e1 & He & H0 & H1).
    unfold str1. cbn [base64_text]. rewrite He. cbn [string_forall].
    now rewrite H0, H1.
  - destruct (base64_encode_2_shape a b) as (e0 & e1 & e2 & He & H0 & H1 & H2).
    unfold str1. cbn [base64_text]. rewrite He. cbn [string_forall].
    now rewrite H0, H1, H2.
  - destruct (base64_encode_3_shape a b c)
      as (e0 & e1 & e2 & e3 & He & H0 & H1 & H2 & H3).
    rewrite base64_text_3, string_forall_app, IH, He. cbn [string_forall].
    now rewrite H0, H1, H2, H3.
Qed.

Lemma base64_text_length (bytes : string) :
  String.length (base64_text bytes) = base64_length (String.length bytes).
Proof.
  unfold base64_length.
  induction bytes as [|a|a b|a b c rest IH] using string_ind3.
  - reflexivity.
  - reflexivity.
  - reflexivity.
  - destruct (base64_encode_3_shape a b c) as (e0 & e1 & e2 & e3 & He & _).
    rewrite base64_text_3, length_append, IH, He.
    cbn [String.length].
    replace (S (S (S (String.length rest))))
      with (1 * 3 + String.length rest) by lia.
    rewrite Nat.div_add_l by discriminate.
    replace (1 * 3 + String.length rest)
      with (String.length rest + 1 * 3) by lia.
    rewrite Nat.Div0.mod_add. lia.
Qed.

Lemma decode_groups_text (bytes : string) :
  decode_groups (base64_text bytes) = bytes.
Proof.
  induction bytes as [|a|a b|a b c rest IH] using string_ind3.
  - reflexivity.
  - destruct (base64_encode_1_shape a) as (e0 & e1 & He & _).
    pose proof (base64_decode_encode_1 a) as H. unfold str1 in *.
    cbn [base64_text]. rewrite He in *. exact H.
  - destruct (base64_encode_2_shape a b) as (e0 & e1 & e2 & He & _).
    pose proof (base64_decode_encode_2 a b) as H. unfold str1 in *.
    cbn [base64_text]. rewrite He in *. exact H.
  - destruct (base64_encode_3_shape a b c) as (e0 & e1 & e2 & e3 & He & _).
    pose proof (base64_decode_encode_3 a b c) as H. unfold str1 in *.
    rewrite base64_text_3, He in *. cbn [append decode_groups].
    now rewrite H, IH.
Qed.

Lemma writeBase64_groups_run (bytes : string) :
  forall s : context_io,
    writeBase64_groups bytes s
    = (Ok tt, mkIO (this s) (trans_ s ++ base64_text bytes)).
Proof.
  induction bytes as [|a|a b|a b c rest IH] using string_ind3; intros s.
  - cbn. rewrite append_nil_r. now destruct s.
  - reflexivity.
  - reflexivity.
  - rewrite base64_text_3. cbn [writeBase64_groups].
    rewrite (bind_ok _ _ _ _ _ (write_run _ s)), IH. cbn [this trans_].
    now rewrite append_assoc.
Qed.

(** ** Reading a string without escapes *)

Lemma reader_read_run k f col d ch t :
  reader_read (mkIO (mkContext k f col (mkReader false d)) (String ch t))
  = (Ok ch, mkIO (mkContext k f col (mkReader false ch)) t).
Proof. reflexivity. Qed.

Lemma readString_loop_plain (text : string) :
  forall fuel acc k f col d rest,
    string_forall is_plain text = true ->
    String.length text < fuel ->
    readString_loop fuel [] acc
      (mkIO (mkContext k f col (mkReader false d))
            (text ++ String kJSONStringDelimiter rest))
    = (Ok (acc ++ text),
       mkIO (mkContext k f col (mkReader false kJSONStringDelimiter)) rest).
Proof.
  induction text as [|ch text IH]; intros fuel acc k f col d rest Hplain Hfuel;
    (destruct fuel as [|fuel]; [simpl in Hfuel; lia|]).
  - cbn [append readString_loop].
    rewrite (bind_ok _ _ _ _ _ (reader_read_run _ _ _ _ _ _)).
    rewrite Ascii.eqb_refl, append_nil_r. reflexivity.
  - cbn [append readString_loop string_forall] in *.
    rewrite (bind_ok _ _ _ _ _ (reader_read_run _ _ _ _ _ _)).
    apply andb_prop in Hplain. destruct Hplain as [Hch Htext].
    unfold is_plain in Hch. apply andb_prop in Hch. destruct Hch as [Hq Hb].
    apply negb_true_iff in Hq, Hb. rewrite Hq, Hb.
    rewrite IH by (simpl in Hfuel; auto; lia).
    unfold str1. now rewrite append_assoc.
Qed.

Lemma readString_fresh (k : context_class) (text rest : string) :
  string_forall is_plain text = true ->
  readString false (mkIO (fresh k) (quoted text ++ rest))
  = (Ok text, mkIO (begun k (mkReader false kJSONStringDelimiter)) rest).
Proof.
  intros Hplain. unfold readString, quoted, str1.
  cbn [append]. rewrite append_assoc. cbn [append].
  assert (Hnext : forall t,
             readNext (mkIO (fresh k) t) = (Ok tt, mkIO (begun k new_reader) t))
    by (intros t; destruct k; reflexivity).
  rewrite (bind_ok _ _ _ _ _ (Hnext _)).
  unfold readSyntaxChar at 1.
  assert (Hq : forall t,
             bind reader_read
                  (fun ch2 => if Ascii.eqb ch2 kJSONStringDelimiter
                              then ret tt else throw INVALID_DATA)
                  (mkIO (begun k new_reader) (String kJSONStringDelimiter t))
             = (Ok tt, mkIO (begun k (mkReader false kJSONStringDelimiter)) t))
    by (intros t; destruct k; reflexivity).
  rewrite (bind_ok _ _ _ _ _ (Hq _)).
  unfold bind at 1. cbn [get]. unfold input_fuel. cbn [trans_].
  unfold begun. rewrite readString_loop_plain; [reflexivity | exact Hplain |].
  rewrite length_append. cbn [String.length]. lia.
Qed.

(** ** The padding loop of [readBase64] *)

Lemma size_append (a b : string) : size (a ++ b) = (size a + size b)%N.
Proof. unfold size. rewrite length_append. lia. Qed.

Lemma get_middle (x : string) (c : ascii) (y : string) :
  String.get (String.length x) (x ++ String c y) = Some c.
Proof. induction x as [|a x IH]; simpl; [reflexivity | exact IH]. Qed.

Lemma c_str_at_middle (x : string) (c : ascii) (y : string) :
  c_str_at (x ++ String c y) (size x) = Ok c.
Proof.
  unfold c_str_at.
  assert (H : (size x <? size (x ++ String c y))%N = true).
  { apply N.ltb_lt. rewrite size_append. unfold size. cbn [String.length]. lia. }
  rewrite H. unfold size at 1. now rewrite Nat2N.id, get_middle.
Qed.

Lemma uint32_dec_succ (n : N) : (n <= UINT32_MAX)%N -> uint32_dec (n + 1) = n.
Proof.
  intros H. unfold uint32_dec, UINT32_MAX in *.
  replace (n + 1 + 4294967295)%N with (n + 1 * 4294967296)%N by lia.
  rewrite N.Div0.mod_add. apply N.mod_small. lia.
Qed.

Lemma substring_prefix (a b : string) :
  substring 0 (String.length a) (a ++ b) = a.
Proof.
  induction a as [|c a IH]; simpl.
  - now destruct b.
  - now rewrite IH.
Qed.

Lemma substring_all (a : string) : substring 0 (String.length a) a = a.
Proof. rewrite <- (append_nil_r a) at 2. apply substring_prefix. Qed.

(** The loop on a string of at least two bytes, by its last two bytes: it
    stops inside the string unless the string is the two padding bytes. *)
Lemma ignore_padding_last2 (x : string) (c1 c2 : ascii) :
  (size x + 2 <= UINT32_MAX)%N ->
  ignore_padding 4 (x ++ String c1 (str1 c2)) (size x) (size x + 1) (size x + 2)
  = if negb (is_padding c2) then Ok (size x + 2)%N
    else if negb (is_padding c1) then Ok (size x + 1)%N
    else match x with
         | "" => Err (OUT_OF_BOUNDS UINT32_MAX)
         | _ => Ok (size x)
         end.
Proof.
  intros Hsize. unfold is_padding, str1.
  cbn [ignore_padding].
  assert (H1 : (size x <=? size x + 1)%N = true) by (apply N.leb_le; lia).
  rewrite H1.
  assert (Hc2 : c_str_at (x ++ String c1 (String c2 "")) (size x + 1) = Ok c2).
  { replace (x ++ String c1 (String c2 ""))
      with ((x ++ String c1 "") ++ String c2 "")
      by (now rewrite append_assoc).
    replace (size x + 1)%N with (size (x ++ String c1 ""))
      by (rewrite size_append; reflexivity).
    apply c_str_at_middle. }
  rewrite Hc2. destruct (Ascii.eqb c2 "="); [|reflexivity]. cbn [negb].
  rewrite (uint32_dec_succ (size x)) by lia.
  replace (size x + 2)%N with (size x + 1 + 1)%N by lia.
  rewrite (uint32_dec_succ (size x + 1)) by lia.
  rewrite N.leb_refl, c_str_at_middle.
  destruct (Ascii.eqb c1 "="); [|reflexivity]. cbn [negb].
  destruct x as [|a x].
  - reflexivity.
  - assert (Hpos : exists n, size (String a x) = (n + 1)%N /\ (n <= UINT32_MAX)%N).
    { exists (size x). unfold size in *. cbn [String.length] in *. lia. }
    destruct Hpos as (n & Hn & Hle). rewrite Hn.
    rewrite !uint32_dec_succ by lia.
    assert (H2 : (n + 1 <=? n)%N = false) by (apply N.leb_gt; lia).
    now rewrite H2.
Qed.

Lemma string_last (s : string) :
  s <> "" ->
  exists y c, s = y ++ str1 c /\ ends_with_padding s = is_padding c.
Proof.
  induction s as [|a s IH]; [congruence|]. intros _.
  destruct s as [|b s].
  - exists "", a. split; reflexivity.
  - destruct IH as (y & c & Hs & Hp); [discriminate|].
    exists (String a y), c. split.
    + cbn [append]. now rewrite <- Hs.
    + exact Hp.
Qed.

Lemma decodeBase64_last2 (x : string) (c1 c2 : ascii) :
  (size x + 2 <= UINT32_MAX)%N ->
  decodeBase64 (x ++ String c1 (str1 c2))
  = match (if negb (is_padding c2) then Ok (size x + 2)%N
           else if negb (is_padding c1) then Ok (size x + 1)%N
           else match x with
                | "" => Err (OUT_OF_BOUNDS UINT32_MAX)
                | _ => Ok (size x)
                end) with
    | Err e => Err e
    | Ok len =>
        Ok (decode_groups (substring 0 (N.to_nat len) (x ++ String c1 (str1 c2))))
    end.
Proof.
  intros Hsize. unfold decodeBase64.
  assert (Hs : size (x ++ String c1 (str1 c2)) = (size x + 2)%N)
    by (rewrite size_append; reflexivity).
  rewrite Hs.
  assert (H1 : (UINT32_MAX <? size x + 2)%N = false) by (apply N.ltb_ge; lia).
  assert (H2 : (2 <=? size x + 2)%N = true) by (apply N.leb_le; lia).
  rewrite H1, H2.
  replace (size x + 2 - 2)%N with (size x) by lia.
  replace (size x + 2 - 1)%N with (size x + 1)%N by lia.
  now rewrite ignore_padding_last2.
Qed.

(** A string that does not end with a padding byte is decoded whole. *)
Lemma decodeBase64_unpadded (tmp : string) :
  (size tmp <= UINT32_MAX)%N ->
  ends_with_padding tmp = false ->
  decodeBase64 tmp = Ok (decode_groups tmp).
Proof.
  intros Hsize Hend.
  destruct tmp as [|a tmp]; [reflexivity|].
  destruct (string_last (String a tmp)) as (y & c & Hs & Hp); [discriminate|].
  rewrite Hend in Hp.
  destruct y as [|a' y].
  - cbn in Hs. injection Hs as -> ->. reflexivity.
  - destruct (string_last (String a' y)) as (x & c1 & Hy & _); [discriminate|].
    rewrite Hs, Hy, append_assoc in *. cbn [append str1] in *.
    fold (str1 c) in *.
    assert (Hx : (size x + 2 <= UINT32_MAX)%N).
    { rewrite size_append in Hsize. unfold size in *.
      cbn [String.length str1] in Hsize. lia. }
    rewrite decodeBase64_last2 by exact Hx.
    rewrite <- Hp. cbn [negb]. f_equal. f_equal.
    replace (N.to_nat (size x + 2))
      with (String.length (x ++ String c1 (str1 c))).
    + apply substring_all.
    + rewrite length_append. unfold size. cbn [String.length str1]. lia.
Qed.

(** Up to two padding bytes after a string that is not empty and does not
    itself end with one are dropped. *)
Lemma decodeBase64_padded (tmp : string) (k : nat) :
  tmp <> "" -> ends_with_padding tmp = false -> k <= 2 ->
  (size (tmp ++ padding k) <= UINT32_MAX)%N ->
  decodeBase64 (tmp ++ padding k) = Ok (decode_groups tmp).
Proof.
  intros Hne Hend Hk Hsize.
  destruct k as [|[|[|k]]]; [| | |lia]; cbn [padding] in *.
  - rewrite append_nil_r in *. now apply decodeBase64_unpadded.
  - destruct (string_last tmp Hne) as (y & c & Hs & Hp).
    rewrite Hend in Hp. subst tmp. rewrite append_assoc in *.
    cbn [append str1] in *. fold (str1 "=") in *.
    assert (Hy : (size y + 2 <= UINT32_MAX)%N).
    { rewrite size_append in Hsize. unfold size in *.
      cbn [String.length str1] in Hsize. lia. }
    rewrite decodeBase64_last2 by exact Hy.
    rewrite <- Hp. change (is_padding "=") with true. cbn [negb].
    f_equal. f_equal.
    replace (y ++ String c (str1 "="))
      with ((y ++ String c "") ++ str1 "=")
      by (now rewrite append_assoc).
    replace (N.to_nat (size y + 1)) with (String.length (y ++ String c "")).
    + apply substring_prefix.
    + rewrite length_append. unfold size. cbn [String.length]. lia.
  - fold (str1 "=") in *.
    assert (Hx : (size tmp + 2 <= UINT32_MAX)%N).
    { rewrite size_append in Hsize. unfold size in *.
      cbn [String.length str1] in Hsize. lia. }
    rewrite decodeBase64_last2 by exact Hx.
    change (is_padding "=") with true. cbn [negb].
    destruct tmp as [|a tmp]; [congruence|].
    f_equal. f_equal. unfold size. rewrite Nat2N.id.
    apply substring_prefix.
Qed.

Lemma ends_with_padding_forall (s : string) :
  string_forall (fun c => negb (is_padding c)) s = true ->
  ends_with_padding s = false.
Proof.
  induction s as [|a s IH]; [reflexivity|]. cbn [string_forall].
  intros H. apply andb_prop in H. destruct H as [Ha Hs].
  destruct s as [|b s].
  - cbn. now apply negb_true_iff.
  - exact (IH Hs).
Qed.

Lemma string_forall_impl (P Q : ascii -> bool) (s : string) :
  (forall c, P c = true -> Q c = true) ->
  string_forall P s = true -> string_forall Q s = true.
Proof.
  intros HPQ. induction s as [|a s IH]; [reflexivity|]. cbn [string_forall].
  intros H. apply andb_prop in H. destruct H as [Ha Hs].
  now rewrite (HPQ a Ha), (IH Hs).
Qed.

Lemma string_cases (s : string) :
  s = "" \/ (exists c, s = str1 c) \/
  (exists x c1 c2, s = x ++ String c1 (str1 c2)).
Proof.
  destruct s as [|a s]; [now left|]. right.
  destruct (string_last (String a s)) as (y & c2 & Hs & _); [discriminate|].
  destruct y as [|a' y].
  - left. exists c2. exact Hs.
  - right. destruct (string_last (String a' y)) as (x & c1 & Hy & _);
      [discriminate|].
    exists x, c1, c2. rewrite Hs, Hy, append_assoc. reflexivity.
Qed.

(** The padding loop leaves the string on one input only: every other
    string within the length guard is decoded without a read outside it. *)
Lemma decodeBase64_fails_only_on_padding_pair (tmp : string) :
  (size tmp <= UINT32_MAX)%N ->
  (exists e, decodeBase64 tmp = Err e) <-> tmp = "==".
Proof.
  intros Hsize. split.
  - intros [e He].
    destruct (string_cases tmp) as [->|[[c ->]|(x & c1 & c2 & ->)]].
    + discriminate He.
    + discriminate He.
    + assert (Hx : (size x + 2 <= UINT32_MAX)%N).
      { rewrite size_append in Hsize. unfold size in *.
        cbn [String.length str1] in Hsize. lia. }
      rewrite decodeBase64_last2 in He by exact Hx.
      unfold is_padding in He.
      destruct (Ascii.eqb_spec c2 "="); [|discriminate He].
      destruct (Ascii.eqb_spec c1 "="); [|discriminate He].
      destruct x; [|discriminate He]. now subst.
  - intros ->. eexists. vm_compute. reflexivity.
Qed.

(** ** Base64: round trip, padding, and the length guard *)

Lemma base64_text_size (bytes : string) :
  (size bytes <= BASE64_MAX)%N -> (size (base64_text bytes) <= UINT32_MAX)%N.
Proof.
  unfold size, BASE64_MAX, UINT32_MAX. rewrite base64_text_length.
  unfold base64_length. set (n := String.length bytes).
  pose proof (Nat.div_mod_eq n 3) as Hdiv.
  pose proof (Nat.mod_upper_bound n 3) as Hmod.
  destruct (n mod 3) as [|[|[|m]]]; lia.
Qed.

Lemma writeBase64_run (k : context_class) (bytes w : string) :
  (size bytes <= UINT32_MAX)%N ->
  writeBase64 bytes (mkIO (fresh k) w)
  = (Ok tt, mkIO (begun k new_reader) (w ++ quoted (base64_text bytes))).
Proof.
  intros Hsize. apply N.ltb_ge in Hsize. unfold writeBase64.
  assert (Hnext : writeNext (mkIO (fresh k) w)
                  = (Ok tt, mkIO (begun k new_reader) w)).
  { destruct k; cbn; rewrite ?append_nil_r; reflexivity. }
  rewrite (bind_ok _ _ _ _ _ Hnext).
  rewrite (bind_ok _ _ _ _ _ (write_run _ _)).
  rewrite Hsize. unfold bind at 1, ret at 1.
  rewrite (bind_ok _ _ _ _ _ (writeBase64_groups_run _ _)).
  rewrite write_run. cbn [this trans_]. unfold quoted, str1.
  rewrite !append_assoc. reflexivity.
Qed.

Lemma writeBase64_oversized (bytes : string) (s : context_io) :
  (UINT32_MAX < size bytes)%N ->
  writeBase64 bytes s
  = (Err SIZE_LIMIT,
     mkIO (this (final writeNext s))
          (trans_ (final writeNext s) ++ str1 kJSONStringDelimiter)).
Proof.
  intros Hsize. apply N.ltb_lt in Hsize. unfold writeBase64.
  rewrite (bind_ok _ _ _ _ _ (writeNext_total s)).
  rewrite (bind_ok _ _ _ _ _ (write_run _ _)).
  rewrite Hsize. reflexivity.
Qed.

Lemma size_string_repeat (n : nat) (c : ascii) :
  size (string_repeat n c) = N.of_nat n.
Proof.
  unfold size. f_equal. induction n as [|n IH]; [reflexivity|].
  cbn [string_repeat String.length]. now rewrite IH.
Qed.

Lemma readBase64_text (k : context_class) (tmp rest : string) :
  string_forall is_plain tmp = true ->
  readBase64 (mkIO (fresh k) (quoted tmp ++ rest))
  = match decodeBase64 tmp with
    | Ok str => (Ok str, mkIO (begun k (mkReader false kJSONStringDelimiter)) rest)
    | Err e => (Err e, mkIO (begun k (mkReader false kJSONStringDelimiter)) rest)
    end.
Proof.
  intros Hplain. unfold readBase64.
  rewrite (bind_ok _ _ _ _ _ (readString_fresh k tmp rest Hplain)).
  destruct (decodeBase64 tmp); reflexivity.
Qed.

Lemma uint32_max_lt : (UINT32_MAX < 4294967296)%N.
Proof. reflexivity. Qed.

Lemma oversized_string_size : (UINT32_MAX < size oversized_string)%N.
Proof.
  unfold oversized_string. rewrite size_string_repeat, N2Nat.id.
  exact uint32_max_lt.
Qed.

(** C5, the claim as it stands fails: [writeBase64] refuses a string of
    2^32 bytes with size-limit once it has written the opening delimiter,
    and [readBase64] finds nothing to decode in what was written. *)
Lemma writeBase64_rejects_oversized_string :
  outcome (writeBase64 oversized_string) (mkIO new_TJSONContext "")
  = Err SIZE_LIMIT /\
  trans_ (final (writeBase64 oversized_string) (mkIO new_TJSONContext ""))
  = str1 kJSONStringDelimiter /\
  outcome readBase64 (mkIO new_TJSONContext (str1 kJSONStringDelimiter))
  = Err END_OF_FILE.
Proof.
  pose proof (writeBase64_oversized oversized_string (mkIO new_TJSONContext "")
                oversized_string_size) as H.
  split; [exact (f_equal fst H)|].
  split; [exact (f_equal (fun p => trans_ (snd p)) H)|].
  vm_compute. reflexivity.
Qed.

(** C5, amended.  Within the length guards of the codec (a string of at
    most 3221225471 bytes, whose Base64 text has at most 2^32 - 1 bytes),
    what [writeBase64] writes into a fresh context is the Base64 text of
    the string between delimiters, and [readBase64] on it, in a fresh
    context of the same class, returns the string and consumes exactly
    that text; the text holds no padding byte and has four bytes for each
    group of three and two or three bytes for a remainder of one or two;
    and a text that is not empty, does not end with a padding byte, and is
    followed by at most two padding bytes is decoded as the text alone,
    both by the decoding step on the string read and by [readBase64] on
    the wire. *)
Theorem base64_roundtrip_within_size_limit :
  (forall (k : context_class) (bs rest : string),
      (size bs <= BASE64_MAX)%N ->
      writeBase64 bs (mkIO (fresh k) "")
      = (Ok tt, mkIO (begun k new_reader) (quoted (base64_text bs))) /\
      readBase64 (mkIO (fresh k) (quoted (base64_text bs) ++ rest))
      = (Ok bs, mkIO (begun k (mkReader false kJSONStringDelimiter)) rest))
  /\
  (forall bs : string,
      string_forall (fun c => negb (is_padding c)) (base64_text bs) = true /\
      String.length (base64_text bs) = base64_length (String.length bs))
  /\
  (forall (tmp : string) (n : nat),
      tmp <> "" ->
      ends_with_padding tmp = false ->
      n <= 2 ->
      (size (tmp ++ padding n) <= UINT32_MAX)%N ->
      decodeBase64 (tmp ++ padding n) = decodeBase64 tmp)
  /\
  (forall (k : context_class) (tmp rest : string) (n : nat),
      tmp <> "" ->
      ends_with_padding tmp = false ->
      string_forall is_plain tmp = true ->
      n <= 2 ->
      (size (tmp ++ padding n) <= UINT32_MAX)%N ->
      readBase64 (mkIO (fresh k) (quoted (tmp ++ padding n) ++ rest))
      = readBase64 (mkIO (fresh k) (quoted tmp ++ rest))).
Proof.
  assert (Hnopad : forall bs,
             string_forall (fun c => negb (is_padding c)) (base64_text bs)
             = true).
  { intros bs. apply (string_forall_impl is_base64_byte);
      [|apply base64_text_bytes].
    intros c Hc. unfold is_base64_byte in Hc.
    apply andb_prop in Hc. tauto. }
  assert (Hplain : forall bs, string_forall is_plain (base64_text bs) = true).
  { intros bs. apply (string_forall_impl is_base64_byte);
      [|apply base64_text_bytes].
    intros c Hc. unfold is_base64_byte in Hc.
    apply andb_prop in Hc. tauto. }
  split; [|split; [|split]].
  - intros k bs rest Hsize. split.
    + rewrite writeBase64_run; [reflexivity|].
      unfold BASE64_MAX, UINT32_MAX in *. lia.
    + rewrite readBase64_text by apply Hplain.
      rewrite decodeBase64_unpadded.
      * now rewrite decode_groups_text.
      * now apply base64_text_size.
      * apply ends_with_padding_forall, Hnopad.
  - intros bs. split; [apply Hnopad | apply base64_text_length].
  - intros tmp n Hne Hend Hn Hsize.
    rewrite decodeBase64_padded by assumption.
    rewrite decodeBase64_unpadded; [reflexivity | | exact Hend].
    rewrite size_append in Hsize. lia.
  - intros k tmp rest n Hne Hend Hplain' Hn Hsize.
    assert (Hpad : string_forall is_plain (padding n) = true).
    { clear -Hn. destruct n as [|[|[|n]]]; [reflexivity..|lia]. }
    rewrite !readBase64_text;
      [| exact Hplain' | now rewrite string_forall_app, Hplain', Hpad].
    rewrite decodeBase64_padded by assumption.
    rewrite decodeBase64_unpadded; [reflexivity | | exact Hend].
    rewrite size_append in Hsize. lia.
Qed.

(** The four bytes ABCD between list elements, and their text with the two
    padding bytes of padded Base64. *)
Lemma base64_roundtrip_within_size_limit_witness :
  (size "ABCD" <= BASE64_MAX)%N /\
  readBase64 (mkIO (fresh JSONListContext) (quoted (base64_text "ABCD") ++ "]"))
  = (Ok "ABCD",
     mkIO (begun JSONListContext (mkReader false kJSONStringDelimiter)) "]") /\
  "QUJDRA" <> "" /\
  ends_with_padding "QUJDRA" = false /\
  string_forall is_plain "QUJDRA" = true /\
  2 <= 2 /\
  (size ("QUJDRA" ++ padding 2) <= UINT32_MAX)%N /\
  readBase64 (mkIO (fresh JSONContext) (quoted ("QUJDRA" ++ padding 2) ++ ""))
  = readBase64 (mkIO (fresh JSONContext) (quoted "QUJDRA" ++ "")).
Proof.
  destruct base64_roundtrip_within_size_limit as (Hround & _ & _ & Hpadded).
  assert (H1 : (size "ABCD" <= BASE64_MAX)%N) by (vm_compute; discriminate).
  assert (H2 : "QUJDRA" <> "") by discriminate.
  assert (H3 : ends_with_padding "QUJDRA" = false) by reflexivity.
  assert (H4 : string_forall is_plain "QUJDRA" = true) by reflexivity.
  assert (H5 : 2 <= 2) by lia.
  assert (H6 : (size ("QUJDRA" ++ padding 2) <= UINT32_MAX)%N)
    by (vm_compute; discriminate).
  exact (conj H1
           (conj (proj2 (Hround JSONListContext "ABCD" "]" H1))
              (conj H2 (conj H3 (conj H4 (conj H5 (conj H6
                 (Hpadded JSONContext "QUJDRA" "" 2 H2 H3 H4 H5 H6)))))))).
Defined.

(** ** What the three guarded failures of the JSON-RPC protocol do *)

Module Failures.
Import TJSONRPCProtocol.

(** [writeMessageEnd] on a flag set it does not know: invalid-data, with
    the buffer reset and the flags cleared first. *)
Lemma writeMessageEnd_unrecognized (s : state) :
  ~ In (flags_ s) recognized_flags \/ flags_ s = JSONRPC_FULL_NOTIFICATION ->
  outcome writeMessageEnd s = Err INVALID_DATA /\
  buffer_ (final writeMessageEnd s) = "" /\
  flags_ (final writeMessageEnd s) = JSONRPC_UNSET.
Proof.
  intros H. destruct s as [mode msg f buf pt tc bc]. cbn [flags_] in H.
  unfold outcome, final, writeMessageEnd, bind, get. cbn [flags_].
  destruct H as [H| ->].
  - apply Envelope.not_recognized in H.
    destruct H as (H1 & H2 & H3 & H4 & H5 & H6 & H7).
    rewrite H1, H2, H3, H5, H6, H7. repeat split.
  - repeat split.
Qed.

(** [writeMessageBegin] with a message type outside the enumeration:
    not-implemented, with the buffer reset and the flags cleared first. *)
Lemma writeMessageBegin_unrecognized (name : string) (v seqid : Z) (s : state) :
  outcome (writeMessageBegin name (T_OTHER v) seqid) s = Err NOT_IMPLEMENTED /\
  buffer_ (final (writeMessageBegin name (T_OTHER v) seqid) s) = "" /\
  flags_ (final (writeMessageBegin name (T_OTHER v) seqid) s) = JSONRPC_UNSET.
Proof.
  destruct s as [mode msg f buf pt [[k fst col r] stack] bc].
  destruct k, fst, col; repeat split.
Qed.

End Failures.

(** ** What [readString] does reject *)

(** With a high surrogate pending, the closing delimiter and every byte
    that is not a backslash raise invalid-data. *)
Lemma readString_loop_pending_plain fuel u units str k f col d ch t :
  Ascii.eqb ch kJSONBackslash = false ->
  readString_loop (S fuel) (u :: units) str
    (mkIO (mkContext k f col (mkReader false d)) (String ch t))
  = (Err INVALID_DATA, mkIO (mkContext k f col (mkReader false ch)) t).
Proof.
  intros Hb. cbn [readString_loop].
  rewrite (bind_ok _ _ _ _ _ (reader_read_run _ _ _ _ _ _)), Hb.
  destruct (Ascii.eqb ch kJSONStringDelimiter); reflexivity.
Qed.

(** With nothing pending, an escape that decodes to a low surrogate raises
    invalid-data. *)
Lemma readString_loop_low_without_high fuel str k f col d b0 b1 b2 b3 t
      h0 h1 h2 h3 :
  hexVal b0 = Ok h0 -> hexVal b1 = Ok h1 ->
  hexVal b2 = Ok h2 -> hexVal b3 = Ok h3 ->
  isLowSurrogate (N.shiftl h0 12 + N.shiftl h1 8 + N.shiftl h2 4 + h3) = true ->
  readString_loop (S fuel) [] str
    (mkIO (mkContext k f col (mkReader false d))
          (String kJSONBackslash (String kJSONEscapeChar
             (String b0 (String b1 (String b2 (String b3 t)))))))
  = (Err INVALID_DATA, mkIO (mkContext k f col (mkReader false b3)) t).
Proof.
  intros H0 H1 H2 H3 Hlow. cbn [readString_loop].
  rewrite (bind_ok _ _ _ _ _ (reader_read_run _ _ _ _ _ _)).
  change (Ascii.eqb kJSONBackslash kJSONStringDelimiter) with false.
  change (Ascii.eqb kJSONBackslash kJSONBackslash) with true. cbv iota.
  rewrite (bind_ok _ _ _ _ _ (reader_read_run _ _ _ _ _ _)).
  change (Ascii.eqb kJSONEscapeChar kJSONEscapeChar) with true. cbv iota.
  assert (Hesc : readEscapeChar
                   (mkIO (mkContext k f col (mkReader false kJSONEscapeChar))
                         (String b0 (String b1 (String b2 (String b3 t)))))
                 = (Ok (N.shiftl h0 12 + N.shiftl h1 8 + N.shiftl h2 4 + h3)%N,
                    mkIO (mkContext k f col (mkReader false b3)) t)).
  { unfold readEscapeChar.
    rewrite (bind_ok _ _ _ _ _ (reader_read_run _ _ _ _ _ _)).
    rewrite (bind_ok _ _ _ _ _ (reader_read_run _ _ _ _ _ _)).
    rewrite (bind_ok _ _ _ _ _ (reader_read_run _ _ _ _ _ _)).
    rewrite (bind_ok _ _ _ _ _ (reader_read_run _ _ _ _ _ _)).
    now rewrite H0, H1, H2, H3. }
  rewrite (bind_ok _ _ _ _ _ Hesc), Hlow.
  assert (Hhigh : isHighSurrogate
                    (N.shiftl h0 12 + N.shiftl h1 8 + N.shiftl h2 4 + h3)
                  = false).
  { unfold isLowSurrogate, isHighSurrogate in *.
    apply andb_prop in Hlow. destruct Hlow as [Hl _].
    apply N.leb_le in Hl. apply andb_false_iff. right. apply N.leb_gt. lia. }
  now rewrite Hhigh.
Qed.

(** ** The loops of the readers end before their fuel does *)

Lemma bind_cases {S A B : Type} (m : M S A) (k : A -> M S B) (s : S) :
  (exists a s', m s = (Ok a, s') /\ bind m k s = k a s') \/
  (exists e s', m s = (Err e, s') /\ bind m k s = (Err e, s')).
Proof.
  unfold bind. destruct (m s) as [[a|e] s'].
  - left. now exists a, s'.
  - right. now exists e, s'.
Qed.

Lemma reader_read_available (s : context_io) :
  match reader_read s with
  | (Ok _, s') => S (available s') = available s
  | (Err e, _) => e = END_OF_FILE
  end.
Proof.
  destruct s as [[k f col [[] d]] [|c t]]; cbn; try reflexivity; lia.
Qed.

Lemma reader_peek_available (s : context_io) :
  match reader_peek s with
  | (Ok _, s') => available s' = available s /\ 0 < available s'
  | (Err e, _) => e = END_OF_FILE
  end.
Proof.
  destruct s as [[k f col [[] d]] [|c t]]; cbn; try reflexivity; lia.
Qed.

Lemma readEscapeChar_available (s : context_io) :
  match readEscapeChar s with
  | (Ok _, s') => available s' <= available s
  | (Err e, _) => e <> OUT_OF_FUEL
  end.
Proof.
  unfold readEscapeChar.
  pose proof (reader_read_available s) as H0.
  destruct (bind_cases reader_read
              (fun b0 => b1 <- reader_read ;; b2 <- reader_read ;;
                         b3 <- reader_read ;;
                         match hexVal b0, hexVal b1, hexVal b2, hexVal b3 with
                         | Ok h0, Ok h1, Ok h2, Ok h3 =>
                             ret (N.shiftl h0 12 + N.shiftl h1 8
                                  + N.shiftl h2 4 + h3)%N
                         | _, _, _, _ => throw INVALID_DATA
                         end) s)
    as [(b0 & s0 & E0 & ->)|(e & s0 & E0 & ->)];
    rewrite E0 in H0; [|now subst e].
  pose proof (reader_read_available s0) as H1.
  match goal with |- context [bind reader_read ?k s0] =>
    destruct (bind_cases reader_read k s0)
      as [(b1 & s1 & E1 & ->)|(e & s1 & E1 & ->)] end;
    rewrite E1 in H1; [|now subst e].
  pose proof (reader_read_available s1) as H2.
  match goal with |- context [bind reader_read ?k s1] =>
    destruct (bind_cases reader_read k s1)
      as [(b2 & s2 & E2 & ->)|(e & s2 & E2 & ->)] end;
    rewrite E2 in H2; [|now subst e].
  pose proof (reader_read_available s2) as H3.
  match goal with |- context [bind reader_read ?k s2] =>
    destruct (bind_cases reader_read k s2)
      as [(b3 & s3 & E3 & ->)|(e & s3 & E3 & ->)] end;
    rewrite E3 in H3; [|now subst e].
  destruct (hexVal b0), (hexVal b1), (hexVal b2), (hexVal b3);
    cbn; try discriminate; lia.
Qed.

Lemma readString_loop_total (fuel : nat) :
  forall units str s,
    available s < fuel ->
    outcome (readString_loop fuel units str) s <> Err OUT_OF_FUEL.
Proof.
  induction fuel as [|fuel IH]; intros units str s Hfuel; [lia|].
  unfold outcome. cbn [readString_loop].
  pose proof (reader_read_available s) as H0.
  match goal with |- context [bind reader_read ?k s] =>
    destruct (bind_cases reader_read k s)
      as [(ch & s0 & E0 & ->)|(e & s0 & E0 & ->)] end;
    rewrite E0 in H0; [|now subst e].
  destruct (Ascii.eqb ch kJSONStringDelimiter).
  { destruct units; discriminate. }
  destruct (Ascii.eqb ch kJSONBackslash).
  - pose proof (reader_read_available s0) as H1.
    match goal with |- context [bind reader_read ?k s0] =>
      destruct (bind_cases reader_read k s0)
        as [(ch1 & s1 & E1 & ->)|(e & s1 & E1 & ->)] end;
      rewrite E1 in H1; [|now subst e].
    destruct (Ascii.eqb ch1 kJSONEscapeChar).
    + pose proof (readEscapeChar_available s1) as H2.
      match goal with |- context [bind readEscapeChar ?k s1] =>
        destruct (bind_cases readEscapeChar k s1)
          as [(cp & s2 & E2 & ->)|(e & s2 & E2 & ->)] end;
        rewrite E2 in H2; [|cbn; congruence].
      destruct (isHighSurrogate cp).
      * apply IH. lia.
      * destruct (isLowSurrogate cp), units; try discriminate; apply IH; lia.
    + destruct (index_of ch1 kEscapeChars 0); [|discriminate].
      destruct units; [|discriminate]. apply IH. lia.
  - destruct units; [|discriminate]. apply IH. lia.
Qed.

Lemma readSyntaxChar_available (ch : ascii) (s : context_io) :
  match readSyntaxChar ch s with
  | (Ok _, s') => S (available s') = available s
  | (Err e, _) => e <> OUT_OF_FUEL
  end.
Proof.
  unfold readSyntaxChar.
  pose proof (reader_read_available s) as H0.
  match goal with |- context [bind reader_read ?k s] =>
    destruct (bind_cases reader_read k s)
      as [(c & s0 & E0 & ->)|(e & s0 & E0 & ->)] end;
    rewrite E0 in H0; [|now subst e].
  destruct (Ascii.eqb c ch); cbn; [exact H0 | discriminate].
Qed.

Lemma readNext_available (s : context_io) :
  match readNext s with
  | (Ok _, s') => available s' <= available s
  | (Err e, _) => e <> OUT_OF_FUEL
  end.
Proof.
  destruct s as [[k f col r] t].
  destruct k, f; try (cbn; lia);
    unfold readNext, bind, get, set_colon, modify;
    cbn [this class_ first_ colon_ reader_ trans_ fst snd];
    match goal with |- context [readSyntaxChar ?c ?s] =>
      pose proof (readSyntaxChar_available c s) as H;
      destruct (readSyntaxChar c s) as [[[]|e] s'] end;
    try exact H; unfold available in *; cbn in *; lia.
Qed.

(** [readString] never stops for lack of fuel: it returns the string or
    raises one of the errors of the source. *)
Lemma readString_total (skipContext : bool) (s : context_io) :
  outcome (readString skipContext) s <> Err OUT_OF_FUEL.
Proof.
  unfold outcome, readString.
  set (first := if skipContext then ret tt else readNext).
  assert (Hfirst : match first s with
                   | (Ok _, s') => True
                   | (Err e, _) => e <> OUT_OF_FUEL
                   end).
  { subst first. destruct skipContext; [exact I|].
    pose proof (readNext_available s) as H.
    destruct (readNext s) as [[[]|e] s']; [exact I | exact H]. }
  match goal with |- context [bind first ?k s] =>
    destruct (bind_cases first k s)
      as [(u & s0 & E0 & ->)|(e & s0 & E0 & ->)] end;
    rewrite E0 in Hfirst; [|cbn; congruence].
  pose proof (readSyntaxChar_available kJSONStringDelimiter s0) as H1.
  match goal with |- context [bind (readSyntaxChar ?c) ?k s0] =>
    destruct (bind_cases (readSyntaxChar c) k s0)
      as [(u1 & s1 & E1 & ->)|(e & s1 & E1 & ->)] end;
    rewrite E1 in H1; [|cbn; congruence].
  unfold bind at 1. cbn [get].
  apply readString_loop_total. unfold input_fuel, available.
  destruct (hasData_ (reader_ (this s1))); lia.
Qed.

(** Nor does the decoding of the string read: its padding loop stops
    within three turns. *)
Lemma decodeBase64_total (tmp : string) :
  decodeBase64 tmp <> Err OUT_OF_FUEL.
Proof.
  destruct (N.ltb_spec UINT32_MAX (size tmp)) as [Hbig|Hsmall].
  - unfold decodeBase64. apply N.ltb_lt in Hbig. now rewrite Hbig.
  - intros H.
    assert (Hpair : tmp = "==")
      by (apply decodeBase64_fails_only_on_padding_pair; eauto).
    subst tmp. discriminate H.
Qed.

Lemma readNumericChars_loop_total (fuel : nat) :
  forall str s,
    available s < fuel ->
    outcome (readNumericChars_loop fuel str) s <> Err OUT_OF_FUEL.
Proof.
  induction fuel as [|fuel IH]; intros str s Hfuel; [lia|].
  unfold outcome. cbn [readNumericChars_loop].
  pose proof (reader_peek_available s) as H0.
  match goal with |- context [bind reader_peek ?k s] =>
    destruct (bind_cases reader_peek k s)
      as [(ch & s0 & E0 & ->)|(e & s0 & E0 & ->)] end;
    rewrite E0 in H0; [|now subst e].
  destruct (isJSONNumeric ch); [|discriminate].
  pose proof (reader_read_available s0) as H1.
  match goal with |- context [bind reader_read ?k s0] =>
    destruct (bind_cases reader_read k s0)
      as [(ch1 & s1 & E1 & ->)|(e & s1 & E1 & ->)] end;
    rewrite E1 in H1; [|now subst e].
  apply IH. lia.
Qed.

Lemma readNumericChars_total (s : context_io) :
  outcome readNumericChars s <> Err OUT_OF_FUEL.
Proof.
  unfold outcome, readNumericChars, bind at 1. cbn [get].
  apply readNumericChars_loop_total. unfold input_fuel, available.
  destruct (hasData_ (reader_ (this s))); lia.
Qed.

(** ** Strings: what is written is read back, the NUL byte apart *)

(** One turn of the loop of [readString] reads back what [writeChar] wrote
    for one byte. *)
Lemma readString_loop_escaped_char c fuel acc k f col d rest :
  is_nul c = false ->
  readString_loop (S fuel) [] acc
    (mkIO (mkContext k f col (mkReader false d)) (json_escape_char c ++ rest))
  = readString_loop fuel [] (acc ++ str1 c)
      (mkIO (mkContext k f col
                       (mkReader false (last_byte d (json_escape_char c))))
            rest).
Proof.
  intros Hc. destruct c as [b0 b1 b2 b3 b4 b5 b6 b7].
  destruct b0, b1, b2, b3, b4, b5, b6, b7; try discriminate Hc; reflexivity.
Qed.

Lemma readString_loop_escaped (str : string) :
  forall fuel acc k f col d rest,
    string_forall (fun c => negb (is_nul c)) str = true ->
    String.length str < fuel ->
    readString_loop fuel [] acc
      (mkIO (mkContext k f col (mkReader false d))
            (json_escape str ++ String kJSONStringDelimiter rest))
    = (Ok (acc ++ str),
       mkIO (mkContext k f col (mkReader false kJSONStringDelimiter)) rest).
Proof.
  induction str as [|c str IH]; intros fuel acc k f col d rest Hnul Hfuel;
    (destruct fuel as [|fuel]; [simpl in Hfuel; lia|]).
  - cbn [json_escape append readString_loop].
    rewrite (bind_ok _ _ _ _ _ (reader_read_run _ _ _ _ _ _)).
    rewrite Ascii.eqb_refl, append_nil_r. reflexivity.
  - cbn [json_escape string_forall] in *.
    apply andb_prop in Hnul. destruct Hnul as [Hc Hstr].
    apply negb_true_iff in Hc.
    rewrite append_assoc, readString_loop_escaped_char by exact Hc.
    rewrite IH by (simpl in Hfuel; auto; lia).
    unfold str1. now rewrite append_assoc.
Qed.

Lemma json_escape_length (str : string) :
  String.length str <= String.length (json_escape str).
Proof.
  induction str as [|c str IH]; [reflexivity|].
  cbn [json_escape String.length]. rewrite length_append.
  assert (H : 1 <= String.length (json_escape_char c)).
  { unfold json_escape_char, kJSONEscapePrefix.
    repeat match goal with
           | |- context [if ?b then _ else _] => destruct b
           end; cbn; lia. }
  lia.
Qed.

(** A string without NUL byte written by [writeString] into a fresh context
    is read back by [readString] in a fresh context of the same class. *)
Lemma string_roundtrip (k : context_class) (str rest : string) :
  string_forall (fun c => negb (is_nul c)) str = true ->
  writeString str (mkIO (fresh k) "")
  = (Ok tt, mkIO (begun k new_reader) (quoted (json_escape str))) /\
  readString false (mkIO (fresh k) (quoted (json_escape str) ++ rest))
  = (Ok str, mkIO (begun k (mkReader false kJSONStringDelimiter)) rest).
Proof.
  intros Hnul. split.
  - unfold writeString.
    assert (Hnext : writeNext (mkIO (fresh k) "")
                    = (Ok tt, mkIO (begun k new_reader) ""))
      by (destruct k; reflexivity).
    rewrite (bind_ok _ _ _ _ _ Hnext).
    rewrite (bind_ok _ _ _ _ _ (write_run _ _)).
    rewrite (bind_ok _ _ _ _ _ (for_each_writeChar_run _ _)).
    rewrite write_run. reflexivity.
  - unfold readString, quoted, str1.
    cbn [append]. rewrite append_assoc. cbn [append].
    assert (Hnext : forall t,
               readNext (mkIO (fresh k) t) = (Ok tt, mkIO (begun k new_reader) t))
      by (intros t; destruct k; reflexivity).
    rewrite (bind_ok _ _ _ _ _ (Hnext _)).
    assert (Hq : forall t,
               readSyntaxChar kJSONStringDelimiter
                 (mkIO (begun k new_reader) (String kJSONStringDelimiter t))
               = (Ok tt, mkIO (begun k (mkReader false kJSONStringDelimiter)) t))
      by (intros t; destruct k; reflexivity).
    rewrite (bind_ok _ _ _ _ _ (Hq _)).
    unfold bind at 1. cbn [get]. unfold input_fuel. cbn [trans_].
    unfold begun. rewrite readString_loop_escaped; [reflexivity | exact Hnul |].
    rewrite length_append. pose proof (json_escape_length str). lia.
Qed.

(** The NUL byte is written as an escape and lost on the way back: the code
    unit 0 ends the sequence handed to the conversion. *)
Lemma string_roundtrip_loses_nul :
  let str := String Ascii.zero "a" in
  let wire := trans_ (final (writeString str) (mkIO new_TJSONContext "")) in
  wire = quoted ("\u" ++ "0000a") /\
  outcome (readString false) (mkIO new_TJSONContext wire) = Ok "a".
Proof. split; vm_compute; reflexivity. Qed.

(** * Further properties of the sources *)

(** ** The lookahead reader *)

Lemma reader_read_pending (s : context_io) (c : ascii) (t : string) :
  pending s = String c t ->
  exists s', reader_read s = (Ok c, s') /\
             pending s' = t /\ trans_ s' = t /\
             hasData_ (reader_ (this s')) = false /\
             control s' = control s.
Proof.
  destruct s as [[k f col [[] d]] tr]; unfold pending; cbn.
  - intros H. injection H as -> ->. eexists. repeat split.
  - intros ->. eexists. repeat split.
Qed.

Lemma reader_peek_pending (s : context_io) (c : ascii) (t : string) :
  pending s = String c t ->
  exists s', reader_peek s = (Ok c, s') /\
             pending s' = String c t /\ control s' = control s.
Proof.
  destruct s as [[k f col [[] d]] tr]; unfold pending; cbn.
  - intros H. injection H as -> ->. eexists. repeat split.
  - intros ->. eexists. repeat split.
Qed.

Lemma reader_read_end (s : context_io) :
  pending s = "" -> reader_read s = (Err END_OF_FILE, s).
Proof.
  destruct s as [[k f col [[] d]] tr]; unfold pending; cbn;
    [discriminate | now intros ->].
Qed.

Lemma reader_peek_end (s : context_io) :
  pending s = "" -> reader_peek s = (Err END_OF_FILE, s).
Proof.
  destruct s as [[k f col [[] d]] tr]; unfold pending; cbn;
    [discriminate | now intros ->].
Qed.

(** X1.  A peek does not consume: whatever the reader holds, [peek] followed by
    [read] returns what [read] alone returns and leaves the state [read]
    alone leaves; a second [peek] returns the byte of the first and changes
    nothing; and both fail with end-of-file exactly when neither the reader
    nor the transport has a byte. *)
Theorem lookahead_peek_then_read (s : context_io) :
  (reader_peek ;; reader_read) s = reader_read s /\
  (reader_peek ;; reader_peek) s = reader_peek s /\
  (pending s = "" <-> outcome reader_read s = Err END_OF_FILE) /\
  (pending s = "" <-> outcome reader_peek s = Err END_OF_FILE) /\
  (forall c, outcome reader_peek s = Ok c -> outcome reader_read s = Ok c) /\
  pending (final reader_peek s) = pending s.
Proof.
  destruct s as [[k f col [[] d]] [|c tr]]; unfold pending, outcome, final;
    cbn; repeat split; try discriminate; try tauto.
Qed.

Lemma readSyntaxChar_pending (ch : ascii) (s : context_io) (t : string) :
  pending s = String ch t ->
  exists s', readSyntaxChar ch s = (Ok tt, s') /\
             pending s' = t /\ trans_ s' = t /\
             hasData_ (reader_ (this s')) = false /\
             control s' = control s.
Proof.
  intros H. destruct (reader_read_pending s ch t H) as (s' & E & Hp).
  exists s'. split; [|exact Hp].
  unfold readSyntaxChar. rewrite (bind_ok _ _ _ _ _ E).
  now rewrite Ascii.eqb_refl.
Qed.

Lemma readSyntaxChar_mismatch (ch c : ascii) (s : context_io) (t : string) :
  pending s = String c t -> c <> ch ->
  outcome (readSyntaxChar ch) s = Err INVALID_DATA.
Proof.
  intros H Hne. destruct (reader_read_pending s c t H) as (s' & E & _).
  unfold outcome, readSyntaxChar. rewrite (bind_ok _ _ _ _ _ E).
  apply Ascii.eqb_neq in Hne. now rewrite Hne.
Qed.

(** ** Decimal text *)

Lemma digit_code (m : N) : (m < 10)%N -> code (ascii_of_N (48 + m)) = (48 + m)%N.
Proof. intros H. unfold code. apply N_ascii_embedding. lia. Qed.

Lemma digit_is_digit (m : N) : (m < 10)%N -> is_digit (ascii_of_N (48 + m)) = true.
Proof.
  intros H. unfold is_digit. rewrite digit_code by exact H.
  apply andb_true_intro. split; apply N.leb_le; lia.
Qed.

Lemma is_digit_numeric (c : ascii) : is_digit c = true -> isJSONNumeric c = true.
Proof.
  intros H. destruct c as [b0 b1 b2 b3 b4 b5 b6 b7].
  destruct b0, b1, b2, b3, b4, b5, b6, b7; try discriminate H; reflexivity.
Qed.

Lemma decimal_digits_app (fuel : nat) :
  forall n acc, decimal_digits fuel n acc = decimal_digits fuel n "" ++ acc.
Proof.
  induction fuel as [|fuel IH]; intros n acc; [reflexivity|].
  cbn [decimal_digits]. destruct (n / 10 =? 0)%N; [reflexivity|].
  rewrite (IH _ (String _ acc)), (IH _ (String _ "")), append_assoc.
  reflexivity.
Qed.

Lemma digits_value_app (x y : string) :
  forall a, digits_value (x ++ y) a
            = match digits_value x a with
              | Some v => digits_value y v
              | None => None
              end.
Proof.
  induction x as [|c x IH]; intros a; [reflexivity|].
  cbn [append digits_value]. destruct (is_digit c); [apply IH | reflexivity].
Qed.

Lemma decimal_digits_value (fuel : nat) :
  forall n, (n < 10 ^ N.of_nat fuel)%N ->
  exists k, forall a,
      digits_value (decimal_digits fuel n "") a = Some (a * 10 ^ k + n)%N.
Proof.
  induction fuel as [|fuel IH]; intros n Hn.
  - exists 0%N. intros a. cbn in *. f_equal. lia.
  - cbn [decimal_digits].
    assert (Hm : (n mod 10 < 10)%N) by (apply N.mod_lt; discriminate).
    pose proof (N.div_mod n 10 ltac:(discriminate)) as Hdm.
    destruct (N.eqb_spec (n / 10) 0) as [Hz|Hnz].
    + exists 1%N. intros a. cbn [digits_value].
      rewrite digit_is_digit, digit_code by exact Hm. cbn [digits_value].
      f_equal. change (10 ^ 1)%N with 10%N. lia.
    + destruct (IH (n / 10)%N) as [k Hk].
      { rewrite Nat2N.inj_succ, N.pow_succ_r' in Hn.
        apply N.Div0.div_lt_upper_bound. exact Hn. }
      exists (N.succ k). intros a.
      rewrite decimal_digits_app, digits_value_app, Hk.
      cbn [digits_value].
      rewrite digit_is_digit, digit_code by exact Hm. cbn [digits_value].
      f_equal. rewrite N.pow_succ_r'. generalize (10 ^ k)%N. intros p.
      clear IH Hn Hk Hnz. revert Hdm Hm.
      generalize (n mod 10)%N (n / 10)%N. intros r q Hdm Hm. subst n.
      replace (48 + r - 48)%N with r by lia. ring.
Qed.

Lemma decimal_digits_head (fuel : nat) :
  forall n c s, is_digit c = true ->
  exists c' s', decimal_digits fuel n (String c s) = String c' s' /\
                is_digit c' = true.
Proof.
  induction fuel as [|fuel IH]; intros n c s Hc.
  - now exists c, s.
  - cbn [decimal_digits].
    assert (Hm : (n mod 10 < 10)%N) by (apply N.mod_lt; discriminate).
    destruct (n / 10 =? 0)%N.
    + eexists _, _. split; [reflexivity|]. now apply digit_is_digit.
    + apply IH. now apply digit_is_digit.
Qed.

Lemma decimal_digits_S_head (fuel : nat) (n : N) (acc : string) :
  exists c s, decimal_digits (S fuel) n acc = String c s /\ is_digit c = true.
Proof.
  cbn [decimal_digits].
  assert (Hm : (n mod 10 < 10)%N) by (apply N.mod_lt; discriminate).
  destruct (n / 10 =? 0)%N.
  - eexists _, _. split; [reflexivity|]. now apply digit_is_digit.
  - apply decimal_digits_head. now apply digit_is_digit.
Qed.

Lemma decimal_digits_20_head (n : N) :
  exists c s, decimal_digits 20 n "" = String c s /\ is_digit c = true.
Proof. exact (decimal_digits_S_head 19 n ""). Qed.

Lemma decimal_digits_numeric (fuel : nat) :
  forall n acc, string_forall isJSONNumeric acc = true ->
                string_forall isJSONNumeric (decimal_digits fuel n acc) = true.
Proof.
  induction fuel as [|fuel IH]; intros n acc Hacc; [exact Hacc|].
  cbn [decimal_digits].
  assert (Hm : (n mod 10 < 10)%N) by (apply N.mod_lt; discriminate).
  assert (Hd : string_forall isJSONNumeric
                 (String (ascii_of_N (48 + n mod 10)) acc) = true).
  { cbn [string_forall].
    now rewrite (is_digit_numeric _ (digit_is_digit _ Hm)), Hacc. }
  destruct (n / 10 =? 0)%N; [exact Hd | now apply IH].
Qed.

Lemma lexical_cast_string_numeric (num : Z) :
  string_forall isJSONNumeric (lexical_cast_string num) = true.
Proof.
  unfold lexical_cast_string. destruct (num <? 0)%Z.
  - cbn [string_forall]. change (isJSONNumeric "-") with true.
    now apply decimal_digits_numeric.
  - now apply decimal_digits_numeric.
Qed.

Lemma parse_decimal_digit (c : ascii) (s : string) :
  is_digit c = true ->
  parse_decimal (String c s)
  = option_map (fun n => (false, n)) (digits_value (String c s) 0).
Proof.
  intros H. destruct c as [b0 b1 b2 b3 b4 b5 b6 b7].
  destruct b0, b1, b2, b3, b4, b5, b6, b7; try discriminate H; reflexivity.
Qed.

(** The sign and magnitude of the text of a number of at most 20 digits. *)
Lemma parse_decimal_lexical_cast_string (num : Z) :
  (Z.abs num < 10 ^ 20)%Z ->
  parse_decimal (lexical_cast_string num)
  = Some ((num <? 0)%Z, Z.abs_N num).
Proof.
  intros Hnum. unfold lexical_cast_string.
  assert (Hn : (Z.abs_N num < 10 ^ N.of_nat 20)%N).
  { change (10 ^ N.of_nat 20)%N with (Z.to_N (10 ^ 20)). lia. }
  destruct (decimal_digits_value 20 _ Hn) as [k Hk].
  destruct (decimal_digits_20_head (Z.abs_N num)) as (c & s & Hs & Hc).
  destruct (Z.ltb_spec num 0) as [Hneg|Hpos].
  - unfold parse_decimal. rewrite Hs. rewrite <- Hs, Hk. cbn. f_equal.
  - replace (Z.to_N num) with (Z.abs_N num) by lia.
    rewrite Hs, parse_decimal_digit by exact Hc.
    rewrite <- Hs, Hk. cbn. f_equal.
Qed.

(** [lexical_cast] to a signed type reads back the text of every value of
    the type. *)
Lemma lexical_cast_signed_string (bits : N) (num : Z) :
  (0 < bits <= 64)%N ->
  (- 2 ^ (Z.of_N bits - 1) <= num < 2 ^ (Z.of_N bits - 1))%Z ->
  lexical_cast_signed bits (lexical_cast_string num) = Some num.
Proof.
  intros Hbits Hnum.
  assert (Hpow : (2 ^ (Z.of_N bits - 1) <= 2 ^ 63)%Z)
    by (apply Z.pow_le_mono_r; lia).
  assert (H63 : (2 ^ 63 < 10 ^ 20)%Z) by reflexivity.
  unfold lexical_cast_signed.
  rewrite parse_decimal_lexical_cast_string by lia.
  assert (Hz : (if (num <? 0)%Z then (- Z.of_N (Z.abs_N num))%Z
                else Z.of_N (Z.abs_N num)) = num).
  { destruct (Z.ltb_spec num 0); lia. }
  rewrite Hz.
  assert (Hin : ((- 2 ^ (Z.of_N bits - 1) <=? num)
                 && (num <? 2 ^ (Z.of_N bits - 1)))%Z = true).
  { apply andb_true_intro. split; [apply Z.leb_le | apply Z.ltb_lt]; lia. }
  now rewrite Hin.
Qed.

(** [lexical_cast] to an unsigned type of at most 64 bits reads back the
    text of every value of the type, and maps the text of a negative number
    of smaller magnitude to its two's complement. *)
Lemma lexical_cast_unsigned_string (bits : N) (num : Z) :
  (bits <= 64)%N ->
  (- 2 ^ Z.of_N bits < num < 2 ^ Z.of_N bits)%Z ->
  lexical_cast_unsigned bits (lexical_cast_string num)
  = Some (num mod 2 ^ Z.of_N bits)%Z.
Proof.
  intros Hbits Hnum.
  assert (Hpow : (2 ^ Z.of_N bits <= 2 ^ 64)%Z)
    by (apply Z.pow_le_mono_r; lia).
  assert (H64 : (2 ^ 64 < 10 ^ 20)%Z) by reflexivity.
  unfold lexical_cast_unsigned.
  rewrite parse_decimal_lexical_cast_string by lia.
  assert (Hlt : (Z.abs_N num <? 2 ^ bits)%N = true).
  { apply N.ltb_lt.
    assert (Z.of_N (2 ^ bits) = 2 ^ Z.of_N bits)%Z by apply N2Z.inj_pow.
    lia. }
  rewrite Hlt. f_equal.
  destruct (Z.ltb_spec num 0) as [Hneg|Hpos].
  - f_equal. lia.
  - rewrite Z.mod_small by lia. lia.
Qed.

(** ** Writing at a position of a context *)

Lemma writeNext_at (k : context_class) (n : nat) (r : LookaheadReader)
      (t : string) :
  writeNext (mkIO (context_at k n r) t)
  = (Ok tt, mkIO (context_at k (S n) r) (t ++ separator k n)).
Proof.
  destruct k.
  - cbn. now rewrite append_nil_r.
  - apply writeNext_pair.
  - destruct n as [|j]; cbn; [now rewrite append_nil_r | reflexivity].
Qed.

Lemma escapeNum_at (k : context_class) (n : nat) (r : LookaheadReader) :
  escapeNum (context_at k (S n) r) = quotes_numbers k n.
Proof. destruct k; reflexivity. Qed.

Lemma writeInteger_at (num : Z) (k : context_class) (n : nat)
      (r : LookaheadReader) (t : string) :
  writeInteger num (mkIO (context_at k n r) t)
  = (Ok tt, mkIO (context_at k (S n) r) (t ++ emission_text k n (Number num))).
Proof.
  unfold writeInteger.
  rewrite (bind_ok _ _ _ _ _ (writeNext_at k n r t)).
  unfold bind at 1. cbn [get this].
  rewrite escapeNum_at, lexical_cast_string_short.
  unfold emission_text, quoted.
  destruct (quotes_numbers k n); unfold bind, write, modify, ret, str1;
    cbn [this trans_ fst snd]; rewrite ?append_assoc; cbn [append];
    rewrite ?append_assoc; reflexivity.
Qed.

Lemma writeString_at (str : string) (k : context_class) (n : nat)
      (r : LookaheadReader) (t : string) :
  writeString str (mkIO (context_at k n r) t)
  = (Ok tt, mkIO (context_at k (S n) r) (t ++ emission_text k n (Text str))).
Proof.
  unfold writeString.
  rewrite (bind_ok _ _ _ _ _ (writeNext_at k n r t)).
  rewrite (bind_ok _ _ _ _ _ (write_run _ _)).
  rewrite (bind_ok _ _ _ _ _ (for_each_writeChar_run _ _)).
  rewrite write_run. unfold emission_text, quoted, str1.
  cbn [this trans_]. rewrite !append_assoc. cbn [append].
  now rewrite ?append_assoc.
Qed.

Lemma emit_at (e : emission) (k : context_class) (n : nat)
      (r : LookaheadReader) (t : string) :
  emit e (mkIO (context_at k n r) t)
  = (Ok tt, mkIO (context_at k (S n) r) (t ++ emission_text k n e)).
Proof. destruct e; [apply writeInteger_at | apply writeString_at]. Qed.

Lemma emit_all_at (es : list emission) :
  forall (k : context_class) (n : nat) (r : LookaheadReader) (t : string),
    emit_all es (mkIO (context_at k n r) t)
    = (Ok tt, mkIO (context_at k (n + List.length es) r)
                   (t ++ emissions_text k n es)).
Proof.
  induction es as [|e es IH]; intros k n r t.
  - cbn [emit_all emissions_text List.length]. rewrite append_nil_r, Nat.add_0_r.
    reflexivity.
  - cbn [emit_all emissions_text List.length].
    rewrite (bind_ok _ _ _ _ _ (emit_at e k n r t)), IH, append_assoc.
    now replace (S n + List.length es) with (n + S (List.length es)) by lia.
Qed.

(** ** Reading at a position of a context *)

Lemma control_context_at (k : context_class) (n : nat) (r : LookaheadReader)
      (t : string) :
  control (mkIO (context_at k n r) t) = control_at k n.
Proof. destruct k; reflexivity. Qed.

Lemma pending_new_reader (c : TJSONContext) (t : string) :
  hasData_ (reader_ c) = false -> pending (mkIO c t) = t.
Proof. unfold pending. cbn. now intros ->. Qed.

Lemma pending_context_at (k : context_class) (n : nat) (t : string) :
  pending (mkIO (context_at k n new_reader) t) = t.
Proof. apply pending_new_reader. destruct k; reflexivity. Qed.

Lemma pending_length (s : context_io) :
  String.length (pending s) <= S (String.length (trans_ s)).
Proof.
  unfold pending. destruct (hasData_ (reader_ (this s))); cbn; lia.
Qed.

Lemma escapeNum_control (k : context_class) (n : nat) (s : context_io) :
  control s = control_at k (S n) -> escapeNum (this s) = quotes_numbers k n.
Proof.
  destruct s as [[k' f col r] t]. intros H. unfold control, control_at in H.
  cbn in H. injection H as -> -> ->. destruct k; reflexivity.
Qed.

Lemma readNext_pending (k : context_class) (n : nat) (s : context_io)
      (t : string) :
  control s = control_at k n ->
  pending s = separator k n ++ t ->
  exists s', readNext s = (Ok tt, s') /\ pending s' = t /\
             control s' = control_at k (S n).
Proof.
  destruct s as [[k' f col r] tr]. intros H. unfold control, control_at in H.
  cbn [this class_ first_ colon_] in H. injection H as -> -> ->.
  destruct k.
  - cbn. intros Hp. eexists. repeat split. exact Hp.
  - destruct n as [|j].
    + cbn. intros Hp. eexists. repeat split. exact Hp.
    + unfold separator, pair_separator. rewrite Nat.odd_succ.
      cbn [context_at pair_context_after first_ colon_ class_ Nat.eqb].
      intros Hp.
      set (s1 := mkIO (mkContext JSONPairContext false
                                 (negb (Nat.even j)) r) tr).
      assert (Hp1 : pending s1
                    = String (if Nat.even j then kJSONPairSeparator
                              else kJSONElemSeparator) t).
      { unfold pending in *. cbn in *. rewrite Hp.
        now destruct (Nat.even j). }
      destruct (readSyntaxChar_pending _ s1 t Hp1) as (s' & E & Hp' & _ & _ & Hc).
      exists s'. split; [|split; [exact Hp'|]].
      * unfold readNext, bind at 1. cbn [get this class_ first_ colon_].
        unfold bind at 1, set_colon, modify.
        cbn [this class_ first_ colon_ reader_ trans_]. exact E.
      * rewrite Hc. unfold control, control_at, s1.
        cbn [context_at pair_context_after this class_ first_ colon_ Nat.eqb].
        now rewrite Nat.even_succ, Nat.negb_even.
  - destruct n as [|j].
    + cbn. intros Hp. eexists. repeat split. exact Hp.
    + cbn [separator append context_at first_ colon_ class_ Nat.eqb].
      intros Hp.
      destruct (readSyntaxChar_pending kJSONElemSeparator _ t Hp)
        as (s' & E & Hp' & _ & _ & Hc).
      exists s'. split; [exact E|]. split; [exact Hp'|]. rewrite Hc.
      reflexivity.
Qed.

(** A reader that finds another byte than the separator of its position
    raises [INVALID_DATA]. *)
Lemma readNext_mismatch (k : context_class) (n : nat) (s : context_io)
      (sep c : ascii) (t : string) :
  control s = control_at k n ->
  separator k n = str1 sep ->
  pending s = String c t -> c <> sep ->
  outcome readNext s = Err INVALID_DATA.
Proof.
  destruct s as [[k' f col r] tr]. intros H. unfold control, control_at in H.
  cbn [this class_ first_ colon_] in H. injection H as -> -> ->.
  destruct k; [discriminate| |]; (destruct n as [|j]; [discriminate|]).
  - unfold separator, pair_separator. rewrite Nat.odd_succ.
    cbn [context_at pair_context_after first_ colon_ class_ Nat.eqb].
    intros Hsep Hp Hne.
    unfold outcome, readNext, bind at 1. cbn [get this class_ first_ colon_].
    unfold bind at 1, set_colon, modify.
    cbn [this class_ first_ colon_ reader_ trans_ fst snd].
    apply (readSyntaxChar_mismatch _ c _ t).
    + exact Hp.
    + destruct (Nat.even j); injection Hsep as <-; exact Hne.
  - cbn [separator context_at first_ colon_ class_ Nat.eqb].
    intros Hsep Hp Hne. injection Hsep as <-.
    now apply (readSyntaxChar_mismatch _ c _ t).
Qed.

Lemma readNumericChars_loop_pending (digits : string) :
  forall fuel acc s c t,
    string_forall isJSONNumeric digits = true ->
    isJSONNumeric c = false ->
    pending s = digits ++ String c t ->
    String.length digits < fuel ->
    exists s', readNumericChars_loop fuel acc s = (Ok (acc ++ digits), s') /\
               pending s' = String c t /\ control s' = control s.
Proof.
  induction digits as [|d digits IH]; intros fuel acc s c t Hnum Hc Hp Hfuel;
    (destruct fuel as [|fuel]; [cbn in Hfuel; lia|]);
    cbn [readNumericChars_loop].
  - destruct (reader_peek_pending s c t Hp) as (s' & E & Hp' & Hc').
    exists s'. rewrite (bind_ok _ _ _ _ _ E), Hc, append_nil_r. now repeat split.
  - cbn [string_forall] in Hnum. apply andb_prop in Hnum.
    destruct Hnum as [Hd Hnum]. cbn [append] in Hp.
    destruct (reader_peek_pending s d _ Hp) as (s1 & E1 & Hp1 & Hc1).
    rewrite (bind_ok _ _ _ _ _ E1), Hd.
    destruct (reader_read_pending s1 d _ Hp1) as (s2 & E2 & Hp2 & _ & _ & Hc2).
    rewrite (bind_ok _ _ _ _ _ E2).
    destruct (IH fuel (acc ++ str1 d) s2 c t Hnum Hc Hp2) as (s' & E & Hp' & Hc').
    { cbn in Hfuel. lia. }
    exists s'. rewrite E. unfold str1. rewrite append_assoc. cbn [append].
    repeat split; [exact Hp' | congruence].
Qed.

Lemma readNumericChars_loop_end (digits : string) :
  forall fuel acc s,
    string_forall isJSONNumeric digits = true ->
    pending s = digits ->
    String.length digits < fuel ->
    outcome (readNumericChars_loop fuel acc) s = Err END_OF_FILE.
Proof.
  induction digits as [|d digits IH]; intros fuel acc s Hnum Hp Hfuel;
    (destruct fuel as [|fuel]; [cbn in Hfuel; lia|]);
    unfold outcome; cbn [readNumericChars_loop].
  - now rewrite (bind_err _ _ _ _ _ (reader_peek_end s Hp)).
  - cbn [string_forall] in Hnum. apply andb_prop in Hnum.
    destruct Hnum as [Hd Hnum].
    destruct (reader_peek_pending s d _ Hp) as (s1 & E1 & Hp1 & Hc1).
    rewrite (bind_ok _ _ _ _ _ E1), Hd.
    destruct (reader_read_pending s1 d _ Hp1) as (s2 & E2 & Hp2 & _ & _ & Hc2).
    rewrite (bind_ok _ _ _ _ _ E2).
    apply IH; [exact Hnum | exact Hp2 | cbn in Hfuel; lia].
Qed.

Lemma readNumericChars_pending (digits : string) (s : context_io) (c : ascii)
      (t : string) :
  string_forall isJSONNumeric digits = true ->
  isJSONNumeric c = false ->
  pending s = digits ++ String c t ->
  exists s', readNumericChars s = (Ok digits, s') /\
             pending s' = String c t /\ control s' = control s.
Proof.
  intros Hnum Hc Hp. unfold readNumericChars, bind at 1. cbn [get].
  apply (readNumericChars_loop_pending digits _ "" s c t Hnum Hc Hp).
  pose proof (pending_length s) as H. rewrite Hp, length_append in H.
  unfold input_fuel. cbn [String.length] in H. lia.
Qed.

Lemma readNumericChars_end (digits : string) (s : context_io) :
  string_forall isJSONNumeric digits = true ->
  pending s = digits ->
  outcome readNumericChars s = Err END_OF_FILE.
Proof.
  intros Hnum Hp. unfold outcome, readNumericChars, bind at 1. cbn [get].
  apply (readNumericChars_loop_end digits _ "" s Hnum Hp).
  pose proof (pending_length s) as H. rewrite Hp in H.
  unfold input_fuel. lia.
Qed.

Lemma delimiter_not_numeric : isJSONNumeric kJSONStringDelimiter = false.
Proof. reflexivity. Qed.

Lemma readInteger_pending (cast : string -> option Z) (k : context_class)
      (n : nat) (s : context_io) (num v : Z) (c : ascii) (t : string) :
  control s = control_at k n ->
  pending s = emission_text k n (Number num) ++ String c t ->
  isJSONNumeric c = false ->
  cast (lexical_cast_string num) = Some v ->
  exists s', readInteger cast s = (Ok v, s') /\
             pending s' = String c t /\ control s' = control_at k (S n).
Proof.
  intros Hctl Hp Hc Hcast. unfold emission_text in Hp.
  rewrite append_assoc in Hp.
  destruct (readNext_pending k n s _ Hctl Hp) as (s1 & E1 & Hp1 & Hc1).
  unfold readInteger. rewrite (bind_ok _ _ _ _ _ E1).
  unfold bind at 1. cbn [get].
  rewrite (escapeNum_control k n s1 Hc1).
  pose proof (lexical_cast_string_numeric num) as Hnum.
  destruct (quotes_numbers k n).
  - unfold quoted in Hp1. cbn [append] in Hp1. rewrite append_assoc in Hp1.
    cbn [append str1] in Hp1.
    destruct (readSyntaxChar_pending _ s1 _ Hp1) as (s2 & E2 & Hp2 & _ & _ & Hc2).
    rewrite (bind_ok _ _ _ _ _ E2).
    destruct (readNumericChars_pending _ s2 _ _ Hnum delimiter_not_numeric Hp2)
      as (s3 & E3 & Hp3 & Hc3).
    rewrite (bind_ok _ _ _ _ _ E3), Hcast.
    destruct (readSyntaxChar_pending _ s3 _ Hp3) as (s4 & E4 & Hp4 & _ & _ & Hc4).
    rewrite (bind_ok _ _ _ _ _ E4).
    exists s4. repeat split; [exact Hp4 | congruence].
  - unfold bind at 1, ret.
    destruct (readNumericChars_pending _ s1 _ _ Hnum Hc Hp1)
      as (s3 & E3 & Hp3 & Hc3).
    rewrite (bind_ok _ _ _ _ _ E3), Hcast.
    exists s3. unfold bind, ret. repeat split; [exact Hp3 | congruence].
Qed.

Lemma remove_nul_cons (c : ascii) (str : string) :
  remove_nul (String c str) = remove_nul (str1 c) ++ remove_nul str.
Proof. cbn. now destruct (is_nul c). Qed.

(** One turn of the loop of [readString] reads back what [writeChar] wrote
    for one byte, the NUL byte apart, which it drops. *)
Lemma readString_loop_written_char c fuel acc k f col d rest :
  readString_loop (S fuel) [] acc
    (mkIO (mkContext k f col (mkReader false d)) (json_escape_char c ++ rest))
  = readString_loop fuel [] (acc ++ remove_nul (str1 c))
      (mkIO (mkContext k f col
                       (mkReader false (last_byte d (json_escape_char c))))
            rest).
Proof.
  destruct c as [b0 b1 b2 b3 b4 b5 b6 b7].
  destruct b0, b1, b2, b3, b4, b5, b6, b7; reflexivity.
Qed.

Lemma readString_loop_written (str : string) :
  forall fuel acc k f col d rest,
    String.length str < fuel ->
    readString_loop fuel [] acc
      (mkIO (mkContext k f col (mkReader false d))
            (json_escape str ++ String kJSONStringDelimiter rest))
    = (Ok (acc ++ remove_nul str),
       mkIO (mkContext k f col (mkReader false kJSONStringDelimiter)) rest).
Proof.
  induction str as [|c str IH]; intros fuel acc k f col d rest Hfuel;
    (destruct fuel as [|fuel]; [simpl in Hfuel; lia|]).
  - cbn [json_escape append readString_loop remove_nul].
    rewrite (bind_ok _ _ _ _ _ (reader_read_run _ _ _ _ _ _)).
    rewrite Ascii.eqb_refl, append_nil_r. reflexivity.
  - cbn [json_escape].
    rewrite append_assoc, readString_loop_written_char.
    rewrite IH by (simpl in Hfuel; lia).
    now rewrite remove_nul_cons, append_assoc.
Qed.

Lemma readString_pending (k : context_class) (n : nat) (s : context_io)
      (str rest : string) :
  control s = control_at k n ->
  pending s = emission_text k n (Text str) ++ rest ->
  exists s', readString false s = (Ok (remove_nul str), s') /\
             pending s' = rest /\ control s' = control_at k (S n).
Proof.
  intros Hctl Hp. unfold emission_text in Hp. rewrite append_assoc in Hp.
  destruct (readNext_pending k n s _ Hctl Hp) as (s1 & E1 & Hp1 & Hc1).
  unfold readString. rewrite (bind_ok _ _ _ _ _ E1).
  unfold quoted in Hp1. cbn [append] in Hp1. rewrite append_assoc in Hp1.
  cbn [append str1] in Hp1.
  destruct (readSyntaxChar_pending _ s1 _ Hp1) as (s2 & E2 & _ & Ht2 & Hd2 & Hc2).
  rewrite (bind_ok _ _ _ _ _ E2).
  unfold bind at 1. cbn [get]. unfold input_fuel.
  destruct s2 as [[k2 f2 col2 [h2 d2]] t2]. cbn in Ht2, Hd2. subst h2 t2.
  cbn [trans_].
  rewrite (readString_loop_written str _ "")
    by (rewrite length_append; pose proof (json_escape_length str); lia).
  eexists. split; [reflexivity|]. split; [reflexivity|].
  rewrite <- Hc1, <- Hc2. reflexivity.
Qed.

(** ** The contexts on the wire *)

Lemma concat_separated (sep x : string) (xs : list string) :
  String.concat sep (x :: xs)
  = x ++ String.concat "" (map (fun y => sep ++ y) xs).
Proof.
  revert x. induction xs as [|y xs IH]; intros x.
  - cbn. now rewrite append_nil_r.
  - change (String.concat sep (x :: y :: xs))
      with (x ++ sep ++ String.concat sep (y :: xs)).
    rewrite IH. cbn [map].
    destruct xs as [|z xs].
    + cbn. now rewrite !append_nil_r.
    + change (String.concat "" ((sep ++ y) :: map (fun y0 => sep ++ y0) (z :: xs)))
        with ((sep ++ y) ++ "" ++ String.concat "" (map (fun y0 => sep ++ y0) (z :: xs))).
      cbn [append]. now rewrite append_assoc.
Qed.

Lemma concat_empty_cons (x : string) (xs : list string) :
  String.concat "" (x :: xs) = x ++ String.concat "" xs.
Proof.
  destruct xs as [|y xs]; [cbn; now rewrite append_nil_r | reflexivity].
Qed.

Lemma emissions_text_list_tail (es : list emission) :
  forall n,
    emissions_text JSONListContext (S n) es
    = String.concat "" (map (fun y => "," ++ y) (map emission_plain es)).
Proof.
  induction es as [|e es IH]; intros n; [reflexivity|].
  cbn [emissions_text map]. rewrite concat_empty_cons, IH.
  destruct e; reflexivity.
Qed.

Lemma emissions_text_list (es : list emission) :
  emissions_text JSONListContext 0 es
  = String.concat "," (map emission_plain es).
Proof.
  destruct es as [|e es]; [reflexivity|].
  cbn [emissions_text map]. rewrite concat_separated, emissions_text_list_tail.
  destruct e; reflexivity.
Qed.

Lemma emissions_text_bare (es : list emission) :
  forall n,
    emissions_text JSONContext n es = String.concat "" (map emission_plain es).
Proof.
  induction es as [|e es IH]; intros n; [reflexivity|].
  cbn [emissions_text map]. rewrite concat_empty_cons, IH.
  destruct e; reflexivity.
Qed.

Lemma fresh_context_at (k : context_class) :
  fresh k = context_at k 0 new_reader.
Proof. destruct k; reflexivity. Qed.

(** X2.  A list context writes its elements joined by commas, and the bare
    context of the bottom of the stack writes them one after the other with
    nothing between; neither ever quotes a number. *)
Theorem list_context_joins_with_commas (es : list emission) (w : string) :
  outcome (emit_all es) (mkIO new_TJSONListContext w) = Ok tt /\
  trans_ (final (emit_all es) (mkIO new_TJSONListContext w))
  = w ++ String.concat "," (map emission_plain es) /\
  outcome (emit_all es) (mkIO new_TJSONContext w) = Ok tt /\
  trans_ (final (emit_all es) (mkIO new_TJSONContext w))
  = w ++ String.concat "" (map emission_plain es).
Proof.
  unfold outcome, final.
  change new_TJSONListContext with (context_at JSONListContext 0 new_reader).
  change new_TJSONContext with (context_at JSONContext 0 new_reader).
  rewrite !emit_all_at. cbn [fst snd trans_].
  now rewrite emissions_text_list, emissions_text_bare.
Qed.

(** ** Numbers and strings read back *)

Lemma lexical_cast_string_head (num : Z) :
  exists c s, lexical_cast_string num = String c s /\
              c <> kJSONStringDelimiter.
Proof.
  unfold lexical_cast_string. destruct (num <? 0)%Z.
  - eexists _, _. split; [reflexivity | discriminate].
  - destruct (decimal_digits_20_head (Z.to_N num)) as (c & s & -> & Hc).
    exists c, s. split; [reflexivity|]. intros ->. discriminate Hc.
Qed.

Lemma separator_not_numeric (k : context_class) (n : nat) (t : string) :
  k <> JSONContext ->
  exists c t', separator k (S n) ++ t = String c t' /\ isJSONNumeric c = false.
Proof.
  intros Hk. destruct k; [congruence| |].
  - unfold separator, pair_separator. destruct (Nat.odd (S n));
      eexists _, _; split; reflexivity.
  - eexists _, _. split; reflexivity.
Qed.

Lemma emissions_text_not_numeric (k : context_class) (n : nat)
      (es : list emission) (c : ascii) (t : string) :
  k <> JSONContext -> isJSONNumeric c = false ->
  exists c' t', emissions_text k (S n) es ++ String c t = String c' t' /\
                isJSONNumeric c' = false.
Proof.
  intros Hk Hc. destruct es as [|e es].
  - now exists c, t.
  - cbn [emissions_text]. unfold emission_text. rewrite !append_assoc.
    now apply separator_not_numeric.
Qed.

Lemma receive_all_pending (es : list emission) :
  forall (k : context_class) (n : nat) (s : context_io) (c : ascii)
         (t : string),
    k <> JSONContext ->
    Forall (numbers_fit 64) es ->
    isJSONNumeric c = false ->
    control s = control_at k n ->
    pending s = emissions_text k n es ++ String c t ->
    exists s', receive_all es s = (Ok (map received es), s') /\
               pending s' = String c t /\
               control s' = control_at k (n + List.length es).
Proof.
  induction es as [|e es IH]; intros k n s c t Hk Hfit Hc Hctl Hp.
  - exists s. cbn [List.length]. rewrite Nat.add_0_r. now repeat split.
  - inversion Hfit as [|e' es' He Hes]; subst.
    cbn [emissions_text] in Hp. rewrite append_assoc in Hp.
    cbn [receive_all List.length map].
    assert (Hstep : exists s1, receive e s = (Ok (received e), s1) /\
                               pending s1 = emissions_text k (S n) es
                                            ++ String c t /\
                               control s1 = control_at k (S n)).
    { destruct e as [num|str]; cbn [receive received].
      - destruct (emissions_text_not_numeric k n es c t Hk Hc)
          as (c' & t' & Et & Hc').
        rewrite Et in Hp |- *.
        destruct (readInteger_pending (lexical_cast_signed 64) k n s num num
                    c' t' Hctl Hp Hc') as (s1 & E1 & Hp1 & Hc1).
        { apply lexical_cast_signed_string; [lia | exact He]. }
        exists s1. now rewrite (bind_ok _ _ _ _ _ E1).
      - destruct (readString_pending k n s str _ Hctl Hp)
          as (s1 & E1 & Hp1 & Hc1).
        exists s1. now rewrite (bind_ok _ _ _ _ _ E1). }
    destruct Hstep as (s1 & E1 & Hp1 & Hc1).
    destruct (IH k (S n) s1 c t Hk Hes Hc Hc1 Hp1) as (s' & E & Hp' & Hc').
    exists s'. rewrite (bind_ok _ _ _ _ _ E1), (bind_ok _ _ _ _ _ E).
    repeat split; [exact Hp'|].
    now replace (n + S (List.length es)) with (S n + List.length es) by lia.
Qed.

(** X3.  Whatever sequence of 64-bit numbers and strings is written into a fresh
    pair or list context is read back from a fresh context of the same
    class, in order, provided a byte that cannot be part of a number follows
    on the transport: the numbers as they were, the strings without their
    NUL bytes; the reader stops before that byte. *)
Theorem emissions_roundtrip (k : context_class) (es : list emission)
        (c : ascii) (rest : string) :
  k <> JSONContext ->
  Forall (numbers_fit 64) es ->
  isJSONNumeric c = false ->
  let wire := trans_ (final (emit_all es) (mkIO (fresh k) "")) in
  let s := mkIO (fresh k) (wire ++ String c rest) in
  outcome (receive_all es) s = Ok (map received es) /\
  pending (final (receive_all es) s) = String c rest.
Proof.
  intros Hk Hfit Hc wire s.
  assert (Hw : wire = emissions_text k 0 es).
  { unfold wire, final. now rewrite fresh_context_at, emit_all_at. }
  subst s. rewrite Hw, fresh_context_at. clear wire Hw.
  destruct (receive_all_pending es k 0 _ c rest Hk Hfit Hc
              (control_context_at k 0 new_reader _)
              (pending_context_at k _ _))
    as (s' & E & Hp' & _).
  unfold outcome, final. rewrite E. now split.
Qed.

Lemma emissions_roundtrip_witness :
  let es := [Text "id"; Number (-7); Text "a"; Number 42] in
  let s := mkIO (fresh JSONPairContext)
                (trans_ (final (emit_all es) (mkIO (fresh JSONPairContext) ""))
                 ++ String "}" "") in
  outcome (receive_all es) s = Ok (map received es) /\
  pending (final (receive_all es) s) = String "}" "".
Proof.
  apply (emissions_roundtrip JSONPairContext
           [Text "id"; Number (-7); Text "a"; Number 42] "}" "").
  - discriminate.
  - repeat constructor; cbn; lia.
  - reflexivity.
Defined.

(** X4.  A number of a signed type of 16, 32 or 64 bits written at any position
    of any context is read back by [readInteger] for that type at the same
    position, provided a byte that cannot be part of a number follows; the
    reader stops before that byte. *)
Theorem writeInteger_readInteger (bits : N) (k : context_class) (n : nat)
        (num : Z) (c : ascii) (rest : string) :
  In bits [16; 32; 64]%N ->
  (- 2 ^ (Z.of_N bits - 1) <= num < 2 ^ (Z.of_N bits - 1))%Z ->
  isJSONNumeric c = false ->
  let wire := trans_ (final (writeInteger num)
                            (mkIO (context_at k n new_reader) "")) in
  let s := mkIO (context_at k n new_reader) (wire ++ String c rest) in
  outcome (readInteger (lexical_cast_signed bits)) s = Ok num /\
  pending (final (readInteger (lexical_cast_signed bits)) s) = String c rest /\
  control (final (readInteger (lexical_cast_signed bits)) s)
  = control_at k (S n).
Proof.
  intros Hbits Hnum Hc wire s.
  assert (Hw : wire = emission_text k n (Number num)).
  { unfold wire, final. now rewrite writeInteger_at. }
  subst s. rewrite Hw. clear wire Hw.
  destruct (readInteger_pending (lexical_cast_signed bits) k n
              (mkIO (context_at k n new_reader)
                    (emission_text k n (Number num) ++ String c rest))
              num num c rest
              (control_context_at k n new_reader _)
              (pending_context_at k _ _) Hc)
    as (s' & E & Hp' & Hc').
  { apply lexical_cast_signed_string; [|exact Hnum].
    cbn in Hbits. lia. }
  unfold outcome, final. rewrite E. now repeat split.
Qed.

Lemma writeInteger_readInteger_witness :
  let s := mkIO (context_at JSONPairContext 1 new_reader)
                (trans_ (final (writeInteger (-32768))
                               (mkIO (context_at JSONPairContext 1 new_reader) ""))
                 ++ String "}" "") in
  outcome (readInteger (lexical_cast_signed 16)) s = Ok (-32768)%Z /\
  pending (final (readInteger (lexical_cast_signed 16)) s) = String "}" "" /\
  control (final (readInteger (lexical_cast_signed 16)) s)
  = control_at JSONPairContext 2.
Proof.
  apply (writeInteger_readInteger 16 JSONPairContext 1 (-32768) "}" "").
  - cbn. tauto.
  - cbn. lia.
  - reflexivity.
Defined.

(** X5.  A number that is not quoted and ends the input cannot be read, whatever
    the type asked for: [readNumericChars] looks for the byte after the
    last digit and raises end-of-file. *)
Theorem readInteger_at_end_of_input (cast : string -> option Z)
        (k : context_class) (n : nat) (num : Z) :
  quotes_numbers k n = false ->
  let wire := trans_ (final (writeInteger num)
                            (mkIO (context_at k n new_reader) "")) in
  outcome (readInteger cast) (mkIO (context_at k n new_reader) wire)
  = Err END_OF_FILE.
Proof.
  intros Hq wire.
  assert (Hw : wire = separator k n ++ lexical_cast_string num).
  { unfold wire, final. rewrite writeInteger_at. cbn [snd trans_ append].
    unfold emission_text. now rewrite Hq. }
  rewrite Hw. clear wire Hw.
  set (s := mkIO (context_at k n new_reader)
                 (separator k n ++ lexical_cast_string num)).
  assert (Hp : pending s = separator k n ++ lexical_cast_string num)
    by apply pending_context_at.
  destruct (readNext_pending k n s _ (control_context_at k n new_reader _) Hp)
    as (s1 & E1 & Hp1 & Hc1).
  unfold outcome, readInteger. rewrite (bind_ok _ _ _ _ _ E1).
  unfold bind at 1. cbn [get].
  rewrite (escapeNum_control k n s1 Hc1), Hq.
  unfold bind at 1, ret.
  pose proof (readNumericChars_end _ s1 (lexical_cast_string_numeric num) Hp1)
    as Hend.
  unfold outcome in Hend. unfold bind.
  destruct (readNumericChars s1) as [[str|e] s2]; cbn in Hend |- *;
    [discriminate Hend | now injection Hend as ->].
Qed.

Lemma readInteger_at_end_of_input_witness :
  outcome (readInteger (lexical_cast_signed 32))
          (mkIO (context_at JSONListContext 3 new_reader)
                (trans_ (final (writeInteger 5)
                               (mkIO (context_at JSONListContext 3 new_reader)
                                     ""))))
  = Err END_OF_FILE.
Proof.
  apply (readInteger_at_end_of_input (lexical_cast_signed 32)
           JSONListContext 3 5).
  reflexivity.
Defined.

(** X6.  [readInteger] insists on the quoting of its own position: a number
    written where numbers are quoted is rejected where they are not, and
    the other way round, even when the separators agree. *)
Theorem readInteger_quoting_mismatch (cast : string -> option Z)
        (k k' : context_class) (n n' : nat) (num : Z) (rest : string) :
  cast "" = None ->
  separator k n = separator k' n' ->
  quotes_numbers k n <> quotes_numbers k' n' ->
  let wire := trans_ (final (writeInteger num)
                            (mkIO (context_at k n new_reader) "")) in
  outcome (readInteger cast) (mkIO (context_at k' n' new_reader) (wire ++ rest))
  = Err INVALID_DATA.
Proof.
  intros Hcast Hsep Hq wire.
  assert (Hw : wire = emission_text k n (Number num)).
  { unfold wire, final. now rewrite writeInteger_at. }
  rewrite Hw. clear wire Hw. unfold emission_text. rewrite Hsep, append_assoc.
  set (s := mkIO (context_at k' n' new_reader) _).
  destruct (readNext_pending k' n' s _ (control_context_at k' n' new_reader _)
              (pending_context_at k' n' _)) as (s1 & E1 & Hp1 & Hc1).
  unfold outcome, readInteger. rewrite (bind_ok _ _ _ _ _ E1).
  unfold bind at 1. cbn [get].
  rewrite (escapeNum_control k' n' s1 Hc1).
  destruct (quotes_numbers k n), (quotes_numbers k' n'); try congruence.
  - unfold bind at 1, ret. unfold quoted in Hp1. cbn [append] in Hp1.
    destruct (readNumericChars_pending "" s1 _ _ eq_refl delimiter_not_numeric
                Hp1) as (s2 & E2 & _).
    now rewrite (bind_ok _ _ _ _ _ E2), Hcast.
  - destruct (lexical_cast_string_head num) as (c & t & Et & Hc).
    rewrite Et in Hp1. cbn [append] in Hp1.
    pose proof (readSyntaxChar_mismatch kJSONStringDelimiter c s1 _ Hp1 Hc)
      as Hbad.
    unfold outcome in Hbad. unfold bind.
    destruct (readSyntaxChar kJSONStringDelimiter s1) as [[u|e] s2];
      cbn in Hbad |- *; [discriminate Hbad | now injection Hbad as ->].
Qed.

Lemma readInteger_quoting_mismatch_witness :
  outcome (readInteger (lexical_cast_signed 32))
          (mkIO (context_at JSONListContext 0 new_reader)
                (trans_ (final (writeInteger 5)
                               (mkIO (context_at JSONPairContext 0 new_reader)
                                     ""))
                 ++ "]"))
  = Err INVALID_DATA.
Proof.
  apply (readInteger_quoting_mismatch (lexical_cast_signed 32)
           JSONPairContext JSONListContext 0 0 5 "]").
  - reflexivity.
  - reflexivity.
  - discriminate.
Defined.

Lemma remove_nul_id (str : string) :
  string_forall (fun c => negb (is_nul c)) str = true -> remove_nul str = str.
Proof.
  induction str as [|c str IH]; [reflexivity|].
  cbn [string_forall remove_nul]. intros H. apply andb_prop in H.
  destruct H as [Hc Hstr]. apply negb_true_iff in Hc.
  now rewrite Hc, IH.
Qed.

(** X7.  Whatever string [writeString] writes at a position of a context,
    [readString] reads back at that position without its NUL bytes, hence
    unchanged when it has none, and leaves what follows on the transport
    untouched. *)
Theorem writeString_readString (k : context_class) (n : nat)
        (str rest : string) :
  let wire := trans_ (final (writeString str)
                            (mkIO (context_at k n new_reader) "")) in
  let s := mkIO (context_at k n new_reader) (wire ++ rest) in
  outcome (readString false) s = Ok (remove_nul str) /\
  pending (final (readString false) s) = rest /\
  control (final (readString false) s) = control_at k (S n) /\
  (string_forall (fun c => negb (is_nul c)) str = true ->
   outcome (readString false) s = Ok str).
Proof.
  intros wire s.
  assert (Hw : wire = emission_text k n (Text str)).
  { unfold wire, final. now rewrite writeString_at. }
  subst s. rewrite Hw. clear wire Hw.
  destruct (readString_pending k n _ str rest
              (control_context_at k n new_reader _)
              (pending_context_at k n _)) as (s' & E & Hp' & Hc').
  unfold outcome, final. rewrite E. cbn [fst snd].
  repeat match goal with |- _ /\ _ => split end; try assumption; try reflexivity.
  intros Hnul. now rewrite remove_nul_id.
Qed.

(** ** Escapes [readString] does not take *)

Lemma readString_loop_prefix (str : string) :
  forall fuel acc k f col d rest,
  exists d',
    readString_loop (String.length str + fuel) [] acc
      (mkIO (mkContext k f col (mkReader false d)) (json_escape str ++ rest))
    = readString_loop fuel [] (acc ++ remove_nul str)
        (mkIO (mkContext k f col (mkReader false d')) rest).
Proof.
  induction str as [|c str IH]; intros fuel acc k f col d rest.
  - exists d. cbn [String.length json_escape append remove_nul Nat.add].
    now rewrite append_nil_r.
  - cbn [String.length json_escape Nat.add].
    rewrite append_assoc, readString_loop_written_char.
    destruct (IH fuel (acc ++ remove_nul (str1 c)) k f col
                 (last_byte d (json_escape_char c)) rest) as [d' E].
    exists d'. now rewrite E, remove_nul_cons, append_assoc.
Qed.

Lemma readString_begins (k : context_class) (text : string) :
  readString false (mkIO (fresh k) (String kJSONStringDelimiter text))
  = readString_loop (S (S (String.length text))) [] ""
      (mkIO (begun k (mkReader false kJSONStringDelimiter)) text).
Proof.
  unfold readString.
  assert (Hnext : forall t,
             readNext (mkIO (fresh k) t) = (Ok tt, mkIO (begun k new_reader) t))
    by (intros t; destruct k; reflexivity).
  rewrite (bind_ok _ _ _ _ _ (Hnext _)).
  assert (Hq : forall t,
             readSyntaxChar kJSONStringDelimiter
               (mkIO (begun k new_reader) (String kJSONStringDelimiter t))
             = (Ok tt, mkIO (begun k (mkReader false kJSONStringDelimiter)) t))
    by (intros t; destruct k; reflexivity).
  rewrite (bind_ok _ _ _ _ _ (Hq _)).
  unfold bind at 1. cbn [get]. reflexivity.
Qed.

(** X8.  After a backslash [readString] takes [u] and the seven bytes of
    [kEscapeChars] only: any other byte, such as the solidus JSON allows,
    raises [INVALID_DATA], whatever was read before in the string. *)
Theorem readString_rejects_other_escapes (k : context_class)
        (prefix : string) (c : ascii) (rest : string) :
  c <> kJSONEscapeChar ->
  index_of c kEscapeChars 0 = None ->
  outcome (readString false)
          (mkIO (fresh k)
                (String kJSONStringDelimiter
                        (json_escape prefix
                         ++ String kJSONBackslash (String c rest))))
  = Err INVALID_DATA.
Proof.
  intros Hu Hidx. unfold outcome.
  rewrite readString_begins, length_append. cbn [String.length].
  pose proof (json_escape_length prefix) as Hlen.
  replace (S (S (String.length (json_escape prefix)
                 + S (S (String.length rest)))))
    with (String.length prefix
          + S (String.length (json_escape prefix) - String.length prefix
               + S (S (S (String.length rest))))) by lia.
  unfold begun.
  destruct (readString_loop_prefix prefix
              (S (String.length (json_escape prefix) - String.length prefix
                  + S (S (S (String.length rest)))))
              "" k match k with JSONContext => true | _ => false end true
              kJSONStringDelimiter (String kJSONBackslash (String c rest)))
    as [d' ->].
  cbn [readString_loop].
  rewrite (bind_ok _ _ _ _ _ (reader_read_run _ _ _ _ _ _)).
  change (Ascii.eqb kJSONBackslash kJSONStringDelimiter) with false.
  rewrite Ascii.eqb_refl.
  rewrite (bind_ok _ _ _ _ _ (reader_read_run _ _ _ _ _ _)).
  apply Ascii.eqb_neq in Hu. now rewrite Hu, Hidx.
Qed.

Lemma readString_rejects_other_escapes_witness :
  outcome (readString false)
          (mkIO (fresh JSONListContext)
                (String kJSONStringDelimiter
                        (json_escape "a"
                         ++ String kJSONBackslash
                                   (String "/" (String kJSONStringDelimiter "")))))
  = Err INVALID_DATA.
Proof.
  apply (readString_rejects_other_escapes JSONListContext "a" "/"
           (String kJSONStringDelimiter "")).
  - discriminate.
  - reflexivity.
Defined.

Lemma readEscapeChar_bad_digit k f col d b0 b1 b2 b3 rest :
  In (Err INVALID_DATA) (map hexVal [b0; b1; b2; b3]) ->
  outcome readEscapeChar
          (mkIO (mkContext k f col (mkReader false d))
                (String b0 (String b1 (String b2 (String b3 rest)))))
  = Err INVALID_DATA.
Proof.
  intros Hin. unfold outcome, readEscapeChar.
  rewrite (bind_ok _ _ _ _ _ (reader_read_run _ _ _ _ _ _)).
  rewrite (bind_ok _ _ _ _ _ (reader_read_run _ _ _ _ _ _)).
  rewrite (bind_ok _ _ _ _ _ (reader_read_run _ _ _ _ _ _)).
  rewrite (bind_ok _ _ _ _ _ (reader_read_run _ _ _ _ _ _)).
  cbn [map In] in Hin.
  destruct (hexVal b0), (hexVal b1), (hexVal b2), (hexVal b3);
    try reflexivity.
  repeat destruct Hin as [Hin|Hin]; try discriminate Hin; contradiction.
Qed.

(** X9.  The four bytes after [\u] must be digits [hexVal] knows, that is
    [0-9a-f]: with any other byte among them, an upper-case hexadecimal
    digit included, [readString] raises [INVALID_DATA]. *)
Theorem readString_rejects_other_hex_digits (k : context_class)
        (prefix : string) (b0 b1 b2 b3 : ascii) (rest : string) :
  In (Err INVALID_DATA) (map hexVal [b0; b1; b2; b3]) ->
  outcome (readString false)
          (mkIO (fresh k)
                (String kJSONStringDelimiter
                        (json_escape prefix
                         ++ String kJSONBackslash
                              (String kJSONEscapeChar
                                 (String b0 (String b1 (String b2
                                    (String b3 rest))))))))
  = Err INVALID_DATA.
Proof.
  intros Hin. unfold outcome.
  match goal with |- context [json_escape prefix ++ ?tail] =>
    set (tl := tail) end.
  rewrite readString_begins, length_append.
  pose proof (json_escape_length prefix) as Hlen.
  replace (S (S (String.length (json_escape prefix) + String.length tl)))
    with (String.length prefix
          + S (String.length (json_escape prefix) - String.length prefix
               + S (String.length tl))) by lia.
  unfold begun.
  destruct (readString_loop_prefix prefix
              (S (String.length (json_escape prefix) - String.length prefix
                  + S (String.length tl)))
              "" k match k with JSONContext => true | _ => false end true
              kJSONStringDelimiter tl)
    as [d' ->].
  unfold tl. cbn [readString_loop].
  rewrite (bind_ok _ _ _ _ _ (reader_read_run _ _ _ _ _ _)).
  change (Ascii.eqb kJSONBackslash kJSONStringDelimiter) with false.
  rewrite Ascii.eqb_refl.
  rewrite (bind_ok _ _ _ _ _ (reader_read_run _ _ _ _ _ _)).
  rewrite Ascii.eqb_refl.
  pose proof (readEscapeChar_bad_digit k
                match k with JSONContext => true | _ => false end true
                kJSONEscapeChar b0 b1 b2 b3 rest Hin) as Hbad.
  unfold outcome in Hbad. unfold bind.
  destruct (readEscapeChar _) as [[cp|e] s2]; cbn in Hbad |- *;
    [discriminate Hbad | now injection Hbad as ->].
Qed.

Lemma readString_rejects_other_hex_digits_witness :
  outcome (readString false)
          (mkIO (fresh JSONContext)
                (String kJSONStringDelimiter
                        (json_escape ""
                         ++ String kJSONBackslash
                              (String kJSONEscapeChar
                                 (String "0" (String "0" (String "E"
                                    (String "9"
                                       (String kJSONStringDelimiter "")))))))))
  = Err INVALID_DATA.
Proof.
  apply (readString_rejects_other_hex_digits JSONContext "" "0" "0" "E" "9"
           (String kJSONStringDelimiter "")).
  cbn. tauto.
Defined.

(** ** Hexadecimal digits *)

Lemma hexChar_masked (v : N) : hexChar v = hexChar (N.land v 15).
Proof.
  unfold hexChar. cbv zeta.
  now rewrite <- N.land_assoc, (N.land_diag 15).
Qed.

Lemma hexVal_hexChar_small (m : N) :
  (m < 16)%N -> hexVal (hexChar m) = Ok m.
Proof.
  intros H.
  assert (Hcases : In m (map N.of_nat (seq 0 16))).
  { replace m with (N.of_nat (N.to_nat m)) by lia.
    apply in_map, in_seq. lia. }
  cbn in Hcases.
  repeat destruct Hcases as [<-|Hcases]; try reflexivity; contradiction.
Qed.

(** X10.  [hexVal] undoes [hexChar] on the four bits [hexChar] keeps, and takes
    the sixteen digits [hexChar] writes and no other byte: each byte it
    accepts is the digit of its value, and an upper-case digit is not
    among them. *)
Theorem hexVal_inverts_hexChar :
  (forall v : N, hexVal (hexChar v) = Ok (N.land v 15)) /\
  (forall (ch : ascii) (v : N),
      hexVal ch = Ok v -> (v < 16)%N /\ hexChar v = ch) /\
  (forall ch : ascii,
      hexVal ch = Err INVALID_DATA <-> index_of ch hex_digits 0 = None).
Proof.
  split; [|split].
  - intros v. rewrite hexChar_masked. apply hexVal_hexChar_small.
    change 15%N with (N.ones 4). rewrite N.land_ones.
    apply N.mod_lt. discriminate.
  - intros ch v. destruct ch as [b0 b1 b2 b3 b4 b5 b6 b7].
    destruct b0, b1, b2, b3, b4, b5, b6, b7; cbn; intros H;
      try discriminate H; injection H as <-; split; reflexivity.
  - intros ch. destruct ch as [b0 b1 b2 b3 b4 b5 b6 b7].
    destruct b0, b1, b2, b3, b4, b5, b6, b7; cbn; split; intros H;
      try discriminate H; reflexivity.
Qed.

(** ** Type tags *)

Lemma type_name_without_nul (t : TType) (name : string) :
  getTypeNameForTypeID t = Ok name ->
  remove_nul name = name /\ getTypeIDForTypeName name = Ok t.
Proof.
  destruct t; cbn; intros H; try discriminate H; injection H as <-;
    split; reflexivity.
Qed.

(** X11.  Each of the eleven types that has a name is written by [writeTypeID] at
    any position of any context as that name and read back by [readTypeID]
    as itself; for any other type [writeTypeID] raises [NOT_IMPLEMENTED]
    before anything is written, the separator included. *)
Theorem writeTypeID_readTypeID (t : TType) :
  (In t (map snd type_names) ->
   forall (k : context_class) (n : nat) (rest : string),
     let wire := trans_ (final (writeTypeID t)
                               (mkIO (context_at k n new_reader) "")) in
     let s := mkIO (context_at k n new_reader) (wire ++ rest) in
     outcome (writeTypeID t) (mkIO (context_at k n new_reader) "") = Ok tt /\
     outcome readTypeID s = Ok t /\
     pending (final readTypeID s) = rest /\
     control (final readTypeID s) = control_at k (S n)) /\
  (~ In t (map snd type_names) ->
   forall s : context_io, writeTypeID t s = (Err NOT_IMPLEMENTED, s)).
Proof.
  split.
  - intros Hin k n rest wire s.
    assert (Hname : exists name, getTypeNameForTypeID t = Ok name).
    { cbn in Hin. repeat destruct Hin as [<-|Hin]; try contradiction;
        eexists; reflexivity. }
    destruct Hname as [name Hname].
    destruct (type_name_without_nul t name Hname) as [Hnul Hback].
    assert (Hwrite : writeTypeID t (mkIO (context_at k n new_reader) "")
                     = (Ok tt, mkIO (context_at k (S n) new_reader)
                                    (emission_text k n (Text name)))).
    { unfold writeTypeID. rewrite Hname. now rewrite writeString_at. }
    assert (Hw : wire = emission_text k n (Text name)).
    { unfold wire, final. now rewrite Hwrite. }
    subst s. rewrite Hw. clear wire Hw.
    destruct (readString_pending k n _ name rest
                (control_context_at k n new_reader _)
                (pending_context_at k n _)) as (s' & E & Hp' & Hc').
    unfold outcome, final, readTypeID.
    rewrite Hwrite, (bind_ok _ _ _ _ _ E), Hnul, Hback. now repeat split.
  - intros Hout s. unfold writeTypeID.
    destruct t; try reflexivity; exfalso; apply Hout; cbn; tauto.
Qed.

(** ** The stack of contexts *)

Lemma on_top_ok {A : Type} (m : M context_io A) (ch : channel) (v : A)
      (s' : context_io) :
  m (top ch) = (Ok v, s') ->
  on_top m ch
  = (Ok v, mkChannel (mkStack (this s') (contexts_ (stack_ ch))) (trans_ s')).
Proof. unfold on_top, zoom, top. now intros ->. Qed.

Lemma on_top_err {A : Type} (m : M context_io A) (ch : channel) (e : error)
      (s' : context_io) :
  m (top ch) = (Err e, s') ->
  on_top m ch
  = (Err e, mkChannel (mkStack (this s') (contexts_ (stack_ ch))) (trans_ s')).
Proof. unfold on_top, zoom, top. now intros ->. Qed.

Lemma on_top_run {A : Type} (m : M context_io A) (c : TJSONContext)
      (cs : list TJSONContext) (b : string) (v : A) (s' : context_io) :
  m (mkIO c b) = (Ok v, s') ->
  on_top m (mkChannel (mkStack c cs) b)
  = (Ok v, mkChannel (mkStack (this s') cs) (trans_ s')).
Proof. apply (on_top_ok m (mkChannel (mkStack c cs) b)). Qed.

Lemma top_eta (s : context_io) (cs : list TJSONContext) :
  top (mkChannel (mkStack (this s) cs) (trans_ s)) = s.
Proof. now destruct s. Qed.

Lemma on_top_outcome {A : Type} (m : M context_io A) (ch : channel) :
  outcome (on_top m) ch = outcome m (top ch).
Proof.
  unfold outcome, on_top, zoom, top. now destruct (m _) as [r s'].
Qed.

Lemma pushWrite_run (c : TJSONContext) (k : context_class) (n : nat)
      (r : LookaheadReader) (cs : list TJSONContext) (b : string) :
  pushWrite c (mkChannel (mkStack (context_at k n r) cs) b)
  = (Ok tt, mkChannel (mkStack c (context_at k (S n) r :: cs))
                      (b ++ separator k n ++ str1 (opener (class_ c)))).
Proof.
  unfold pushWrite.
  rewrite (bind_ok _ _ _ _ _ (on_top_run _ _ cs _ _ _ (writeNext_at k n r b))).
  cbn [this trans_ stack_ contexts_].
  unfold bind, on_new, push, modify, write. cbn.
  destruct c. cbn. now rewrite append_assoc.
Qed.

Lemma popWrite_run (c p : TJSONContext) (cs : list TJSONContext) (b : string) :
  popWrite (mkChannel (mkStack c (p :: cs)) b)
  = (Ok tt, mkChannel (mkStack p cs) (b ++ str1 (closer (class_ c)))).
Proof. reflexivity. Qed.

Lemma on_top_emit_all (es : list emission) (k : context_class) (n : nat)
      (r : LookaheadReader) (cs : list TJSONContext) (b : string) :
  on_top (emit_all es) (mkChannel (mkStack (context_at k n r) cs) b)
  = (Ok tt, mkChannel (mkStack (context_at k (n + List.length es) r) cs)
                      (b ++ emissions_text k n es)).
Proof. now rewrite (on_top_run _ _ cs _ _ _ (emit_all_at es k n r b)). Qed.

Lemma write_elements_run (k kp : context_class) (n : nat)
      (r : LookaheadReader) (es : list emission) (cs : list TJSONContext)
      (b : string) :
  write_elements k es (mkChannel (mkStack (context_at kp n r) cs) b)
  = (Ok tt, mkChannel (mkStack (context_at kp (S n) r) cs)
                      (b ++ separator kp n ++ str1 (opener k)
                         ++ emissions_text k 0 es ++ str1 (closer k))).
Proof.
  unfold write_elements.
  rewrite (bind_ok _ _ _ _ _ (pushWrite_run _ _ _ _ _ _)).
  rewrite fresh_context_at.
  rewrite (bind_ok _ _ _ _ _ (on_top_emit_all _ _ _ _ _ _)).
  rewrite popWrite_run.
  replace (class_ (context_at k 0 new_reader)) with k by (now destruct k).
  replace (class_ (context_at k (0 + List.length es) new_reader)) with k
    by (now destruct k).
  now rewrite !append_assoc.
Qed.

(** The separator is read through the reader of the parent; once it is,
    that reader holds nothing, and the bytes that follow are those of the
    transport. *)
Lemma readNext_settles (k : context_class) (n : nat) (s : context_io)
      (t : string) :
  control s = control_at k n ->
  pending s = separator k n ++ t ->
  hasData_ (reader_ (this s)) = false \/ separator k n <> "" ->
  exists s', readNext s = (Ok tt, s') /\ trans_ s' = t /\
             hasData_ (reader_ (this s')) = false /\
             control s' = control_at k (S n).
Proof.
  intros Hctl Hp Hdata.
  destruct s as [[k' f col [h d]] tr].
  unfold control, control_at in Hctl. cbn [this class_ first_ colon_] in Hctl.
  unfold pending in Hp. cbn [this reader_ hasData_ data_ trans_] in Hp, Hdata.
  assert (Hnone : separator k n = "" ->
                  f = true \/ k = JSONContext ->
                  class_ (context_at k n new_reader) = k' ->
                  exists s', readNext (mkIO (mkContext k' f col (mkReader h d)) tr)
                             = (Ok tt, s') /\ trans_ s' = t /\
                               hasData_ (reader_ (this s')) = false /\
                               control s' = control_at k (S n)).
  { intros Hsep Hf Hk. rewrite Hsep in Hp, Hdata.
    destruct Hdata as [->|H]; [|now elim H]. cbn in Hp. subst tr.
    destruct k; cbn in Hk; subst k'.
    - injection Hctl as -> ->. eexists. repeat split.
    - destruct Hf as [->|Hf]; [|discriminate Hf].
      destruct n;
        [|unfold separator, pair_separator in Hsep;
          destruct (Nat.odd (S n)); discriminate Hsep].
      injection Hctl as ->. eexists. repeat split.
    - destruct Hf as [->|Hf]; [|discriminate Hf].
      destruct n; [|discriminate Hsep]. injection Hctl as ->.
      eexists. repeat split. }
  destruct k.
  - apply Hnone; [reflexivity | now right | now injection Hctl].
  - destruct n as [|j].
    + apply Hnone; [reflexivity | left; now injection Hctl
                    | now injection Hctl].
    + clear Hnone Hdata.
      cbn [context_at pair_context_after class_ first_ colon_ Nat.eqb] in Hctl.
      injection Hctl as -> -> ->.
      unfold separator, pair_separator in Hp. rewrite Nat.odd_succ in Hp.
      unfold control_at.
      cbn [context_at pair_context_after class_ first_ colon_ Nat.eqb].
      rewrite Nat.even_succ, <- Nat.negb_even.
      destruct (Nat.even j), h; cbn in Hp;
        try (injection Hp as -> ->); try subst tr;
        eexists; (split; [cbn; reflexivity|]); repeat split.
  - destruct n as [|j].
    + apply Hnone; [reflexivity | left; now injection Hctl
                    | now injection Hctl].
    + clear Hnone Hdata.
      cbn [context_at class_ first_ colon_ Nat.eqb] in Hctl.
      injection Hctl as -> -> ->. cbn [separator] in Hp.
      destruct h; cbn in Hp;
        try (injection Hp as -> ->); try subst tr;
        eexists; (split; [cbn; reflexivity|]); repeat split.
Qed.

Lemma pushRead_top (k' k : context_class) (n : nat) (ch : channel)
      (t : string) :
  control (top ch) = control_at k n ->
  pending (top ch) = separator k n ++ String (opener k') t ->
  hasData_ (reader_ (context_ (stack_ ch))) = false \/ separator k n <> "" ->
  exists ch' p,
    pushRead (fresh k') ch = (Ok tt, ch') /\
    top ch' = mkIO (context_at k' 0 (mkReader false (opener k'))) t /\
    contexts_ (stack_ ch') = p :: contexts_ (stack_ ch) /\
    control (mkIO p t) = control_at k (S n) /\
    hasData_ (reader_ p) = false.
Proof.
  intros Hctl Hp Hdata.
  destruct (readNext_settles k n (top ch) _ Hctl Hp Hdata)
    as (s1 & E1 & Ht1 & Hd1 & Hc1).
  unfold pushRead. rewrite (bind_ok _ _ _ _ _ (on_top_ok _ _ _ _ E1)).
  eexists _, (this s1). split.
  - unfold bind, on_new, push, modify. cbn [bytes_ stack_ contexts_ context_].
    rewrite Ht1.
    assert (Hread : readSyntaxChar (opener (class_ (fresh k')))
                      (mkIO (fresh k') (String (opener k') t))
                    = (Ok tt, mkIO (context_at k' 0 (mkReader false (opener k')))
                                   t))
      by (destruct k'; reflexivity).
    rewrite Hread. cbn. reflexivity.
  - cbn. repeat match goal with |- _ /\ _ => split end; trivial.
Qed.

Lemma popRead_top (ch : channel) (p : TJSONContext) (cs : list TJSONContext)
      (t : string) :
  contexts_ (stack_ ch) = p :: cs ->
  pending (top ch) = String (closer (class_ (context_ (stack_ ch)))) t ->
  popRead ch = (Ok tt, mkChannel (mkStack p cs) t).
Proof.
  intros Hcs Hp. unfold popRead.
  assert (Hend : exists s', readEnd (top ch) = (Ok tt, s') /\ trans_ s' = t).
  { unfold readEnd, bind at 1. cbn [get].
    destruct (readSyntaxChar_pending _ (top ch) t Hp) as (s' & E & _ & Ht & _).
    now exists s'. }
  destruct Hend as (s' & E & Ht).
  rewrite (bind_ok _ _ _ _ _ (on_top_ok _ _ _ _ E)).
  unfold pop, bind at 1. cbn [get stack_ contexts_]. rewrite Hcs.
  unfold modify. cbn. now rewrite Ht.
Qed.

Lemma control_class (k : context_class) (n : nat) (s : context_io) :
  control s = control_at k n -> class_ (this s) = k.
Proof.
  destruct s as [[k' f col r] t]. unfold control, control_at. cbn.
  intros H. injection H as -> _ _. now destruct k.
Qed.

Lemma closer_not_numeric (k : context_class) : isJSONNumeric (closer k) = false.
Proof. now destruct k. Qed.

Lemma read_elements_run (k kp : context_class) (n : nat)
      (es : list emission) (ch : channel) (rest : string) :
  k <> JSONContext ->
  Forall (numbers_fit 64) es ->
  control (top ch) = control_at kp n ->
  hasData_ (reader_ (context_ (stack_ ch))) = false ->
  bytes_ ch = separator kp n ++ str1 (opener k) ++ emissions_text k 0 es
                             ++ String (closer k) rest ->
  exists p,
    read_elements k es ch
    = (Ok (map received es),
       mkChannel (mkStack p (contexts_ (stack_ ch))) rest) /\
    control (mkIO p rest) = control_at kp (S n) /\
    hasData_ (reader_ p) = false.
Proof.
  intros Hk Hfit Hctl Hdata Hbytes.
  destruct (pushRead_top k kp n ch
              (emissions_text k 0 es ++ String (closer k) rest) Hctl)
    as (ch1 & p & E1 & Htop1 & Hcs1 & Hcp & Hdp).
  { unfold top. rewrite (pending_new_reader _ _ Hdata), Hbytes.
    unfold str1. cbn [append]. reflexivity. }
  { now left. }
  destruct (receive_all_pending es k 0 (top ch1) (closer k) rest Hk Hfit
              (closer_not_numeric k))
    as (s2 & E2 & Hp2 & Hc2).
  { rewrite Htop1. apply control_context_at. }
  { rewrite Htop1. apply pending_new_reader. now destruct k. }
  pose proof (on_top_ok _ _ _ _ E2) as E2'.
  set (ch2 := mkChannel _ _) in E2'.
  assert (E3 : popRead ch2
               = (Ok tt, mkChannel (mkStack p (contexts_ (stack_ ch))) rest)).
  { apply popRead_top.
    - unfold ch2. cbn. rewrite Hcs1. reflexivity.
    - unfold ch2, top. cbn [stack_ context_ bytes_].
      replace (mkIO (this s2) (trans_ s2)) with s2 by (now destruct s2).
      now rewrite Hp2, (control_class _ _ _ Hc2). }
  exists p. split; [|split; [exact Hcp | exact Hdp]].
  unfold read_elements.
  rewrite (bind_ok _ _ _ _ _ E1), (bind_ok _ _ _ _ _ E2').
  now rewrite (bind_ok _ _ _ _ _ E3).
Qed.

(** X12.  A pair or list context pushed on the stack, filled and popped leaves on
    the transport the separator of its parent, its opening byte, its
    elements and its closing byte, and the parent advanced by one element
    on top of the stack; the same steps on the reading side take these
    bytes and no more, return the elements (strings without their NUL
    bytes) and leave the stack as the writer left it. *)
Theorem container_roundtrip (k kp : context_class) (n : nat)
        (es : list emission) (cs : list TJSONContext) (rest : string) :
  k <> JSONContext ->
  Forall (numbers_fit 64) es ->
  let ch0 := mkChannel (mkStack (context_at kp n new_reader) cs) "" in
  let wire := bytes_ (final (write_elements k es) ch0) in
  let ch := mkChannel (mkStack (context_at kp n new_reader) cs)
                      (wire ++ rest) in
  wire = separator kp n ++ str1 (opener k) ++ emissions_text k 0 es
                        ++ str1 (closer k) /\
  stack_ (final (write_elements k es) ch0)
  = mkStack (context_at kp (S n) new_reader) cs /\
  outcome (read_elements k es) ch = Ok (map received es) /\
  bytes_ (final (read_elements k es) ch) = rest /\
  contexts_ (stack_ (final (read_elements k es) ch)) = cs /\
  control (top (final (read_elements k es) ch)) = control_at kp (S n).
Proof.
  intros Hk Hfit ch0 wire ch.
  assert (Hw : wire = separator kp n ++ str1 (opener k)
                      ++ emissions_text k 0 es ++ str1 (closer k)).
  { unfold wire, ch0, final. now rewrite write_elements_run. }
  split; [exact Hw|]. split.
  { unfold ch0, final. now rewrite write_elements_run. }
  destruct (read_elements_run k kp n es ch rest Hk Hfit)
    as (p & E & Hcp & Hdp).
  { apply control_context_at. }
  { unfold ch. cbn. now destruct kp. }
  { unfold ch. cbn [bytes_]. rewrite Hw. unfold str1.
    rewrite !append_assoc. cbn [append]. now rewrite ?append_assoc. }
  unfold outcome, final. rewrite E. cbn [fst snd bytes_ stack_ contexts_].
  repeat match goal with |- _ /\ _ => split end; try reflexivity.
  exact Hcp.
Qed.

Lemma container_roundtrip_witness :
  let es := [Text "i32"; Number 21] in
  let cs := [new_TJSONContext] in
  let ch0 := mkChannel (mkStack (context_at JSONPairContext 1 new_reader) cs)
                       "" in
  let wire := bytes_ (final (write_elements JSONPairContext es) ch0) in
  let ch := mkChannel (mkStack (context_at JSONPairContext 1 new_reader) cs)
                      (wire ++ "}") in
  wire = ":{" ++ quoted "i32" ++ ":21}" /\
  outcome (read_elements JSONPairContext es) ch = Ok es /\
  bytes_ (final (read_elements JSONPairContext es) ch) = "}".
Proof.
  pose proof (container_roundtrip JSONPairContext JSONPairContext 1
                [Text "i32"; Number 21] [new_TJSONContext] "}"
                ltac:(discriminate)
                ltac:(repeat constructor; cbn; lia)) as H.
  cbv zeta in H. destruct H as (Hw & _ & Hout & Hbytes & _).
  exact (conj Hw (conj Hout Hbytes)).
Defined.

(** ** The base protocol: headers *)

Lemma on_top_step {A : Type} (m : M context_io A) (ch : channel) (v : A)
      (s' : context_io) :
  m (top ch) = (Ok v, s') ->
  exists ch', on_top m ch = (Ok v, ch') /\ top ch' = s' /\
              contexts_ (stack_ ch') = contexts_ (stack_ ch).
Proof.
  intros E. eexists. split; [apply (on_top_ok _ _ _ _ E)|].
  split; [apply top_eta | reflexivity].
Qed.

Lemma on_top_writeInteger (num : Z) (k : context_class) (n : nat)
      (r : LookaheadReader) (cs : list TJSONContext) (b : string) :
  on_top (writeInteger num) (mkChannel (mkStack (context_at k n r) cs) b)
  = (Ok tt, mkChannel (mkStack (context_at k (S n) r) cs)
                      (b ++ emission_text k n (Number num))).
Proof. now rewrite (on_top_run _ _ cs _ _ _ (writeInteger_at num k n r b)). Qed.

Lemma on_top_writeString (str : string) (k : context_class) (n : nat)
      (r : LookaheadReader) (cs : list TJSONContext) (b : string) :
  on_top (writeString str) (mkChannel (mkStack (context_at k n r) cs) b)
  = (Ok tt, mkChannel (mkStack (context_at k (S n) r) cs)
                      (b ++ emission_text k n (Text str))).
Proof. now rewrite (on_top_run _ _ cs _ _ _ (writeString_at str k n r b)). Qed.

Lemma writeTypeID_at (t : TType) (name : string) (k : context_class)
      (n : nat) (r : LookaheadReader) (b : string) :
  getTypeNameForTypeID t = Ok name ->
  writeTypeID t (mkIO (context_at k n r) b)
  = (Ok tt, mkIO (context_at k (S n) r) (b ++ emission_text k n (Text name))).
Proof. intros H. unfold writeTypeID. rewrite H. apply writeString_at. Qed.

Lemma on_top_writeTypeID (t : TType) (name : string) (k : context_class)
      (n : nat) (r : LookaheadReader) (cs : list TJSONContext) (b : string) :
  getTypeNameForTypeID t = Ok name ->
  on_top (writeTypeID t) (mkChannel (mkStack (context_at k n r) cs) b)
  = (Ok tt, mkChannel (mkStack (context_at k (S n) r) cs)
                      (b ++ emission_text k n (Text name))).
Proof.
  intros H. now rewrite (on_top_run _ _ cs _ _ _ (writeTypeID_at t name k n r b H)).
Qed.

Lemma type_name_of (t : TType) :
  In t (map snd type_names) -> exists name, getTypeNameForTypeID t = Ok name.
Proof.
  intros Hin. cbn in Hin.
  repeat destruct Hin as [<-|Hin]; try contradiction; eexists; reflexivity.
Qed.

Lemma readTypeID_pending (t : TType) (name : string) (k : context_class)
      (n : nat) (s : context_io) (rest : string) :
  getTypeNameForTypeID t = Ok name ->
  control s = control_at k n ->
  pending s = emission_text k n (Text name) ++ rest ->
  exists s', readTypeID s = (Ok t, s') /\ pending s' = rest /\
             control s' = control_at k (S n).
Proof.
  intros Hname Hctl Hp.
  destruct (type_name_without_nul t name Hname) as [Hnul Hback].
  destruct (readString_pending k n s name rest Hctl Hp) as (s' & E & Hp' & Hc').
  exists s'. unfold readTypeID.
  now rewrite (bind_ok _ _ _ _ _ E), Hnul, Hback.
Qed.

Lemma top_init (wire : string) :
  top (TJSONProtocol.init wire) = mkIO (context_at JSONContext 0 new_reader) wire.
Proof. reflexivity. Qed.

Lemma messageType_of_named (t : TMessageType) :
  In t [T_CALL; T_REPLY; T_EXCEPTION; T_ONEWAY] ->
  (0 <= messageType_value t < 5)%Z /\
  messageType_of_value (messageType_value t) = t.
Proof.
  intros Hin. cbn in Hin.
  repeat destruct Hin as [<-|Hin]; try contradiction; cbn; split; (lia || reflexivity).
Qed.

Lemma base_writeMessageBegin_run (name : string) (mt : TMessageType)
      (seqid : Z) :
  TJSONProtocol.writeMessageBegin name mt seqid (TJSONProtocol.init "")
  = (Ok tt,
     mkChannel (mkStack (context_at JSONListContext 4 new_reader)
                        [context_at JSONContext 1 new_reader])
               (String "[" (lexical_cast_string 1
                  ++ String "," (quoted (json_escape name)
                  ++ String "," (lexical_cast_string (messageType_value mt)
                  ++ String "," (lexical_cast_string seqid)))))).
Proof.
  unfold TJSONProtocol.writeMessageBegin.
  change (TJSONProtocol.init "")
    with (mkChannel (mkStack (context_at JSONContext 0 new_reader) []) "").
  rewrite (bind_ok _ _ _ _ _ (pushWrite_run _ _ _ _ _ _)).
  change new_TJSONListContext with (context_at JSONListContext 0 new_reader).
  rewrite (bind_ok _ _ _ _ _ (on_top_writeInteger _ _ _ _ _ _)).
  rewrite (bind_ok _ _ _ _ _ (on_top_writeString _ _ _ _ _ _)).
  rewrite (bind_ok _ _ _ _ _ (on_top_writeInteger _ _ _ _ _ _)).
  rewrite on_top_writeInteger.
  unfold emission_text.
  cbn [separator quotes_numbers append class_ context_at opener str1
       TJSONProtocol.kThriftVersion1].
  rewrite !append_assoc. cbn [append]. rewrite ?append_assoc.
  cbn [append]. rewrite ?append_assoc. reflexivity.
Qed.

(** X13.  What [writeMessageBegin] of the base protocol writes for a message of
    one of the four named types, [readMessageBegin] reads back: the name
    without its NUL bytes, the type and the sequence id; unless the
    sequence id is negative, which is read as an unsigned number above the
    largest [int32_t] and raises [SIZE_LIMIT]. *)
Theorem base_message_header_roundtrip (name : string) (mt : TMessageType)
        (seqid : Z) (c : ascii) (rest : string) :
  In mt [T_CALL; T_REPLY; T_EXCEPTION; T_ONEWAY] ->
  (- 2 ^ 31 <= seqid < 2 ^ 31)%Z ->
  isJSONNumeric c = false ->
  let wire := base_wire_of (TJSONProtocol.writeMessageBegin name mt seqid) in
  let ch := TJSONProtocol.init (wire ++ String c rest) in
  wire = "[1," ++ quoted (json_escape name) ++ ","
         ++ lexical_cast_string (messageType_value mt) ++ ","
         ++ lexical_cast_string seqid /\
  outcome TJSONProtocol.readMessageBegin ch
  = (if (seqid <? 0)%Z then Err SIZE_LIMIT
     else Ok (remove_nul name, mt, seqid)) /\
  pending (top (final TJSONProtocol.readMessageBegin ch)) = String c rest.
Proof.
  intros Hmt Hseq Hc wire ch.
  destruct (messageType_of_named mt Hmt) as [Hrange Hback].
  assert (Hw : wire = String "[" (lexical_cast_string 1
                  ++ String "," (quoted (json_escape name)
                  ++ String "," (lexical_cast_string (messageType_value mt)
                  ++ String "," (lexical_cast_string seqid))))).
  { unfold wire, base_wire_of, final. now rewrite base_writeMessageBegin_run. }
  split.
  { rewrite Hw. change (lexical_cast_string 1) with "1". cbn [append].
    reflexivity. }
  subst ch. rewrite Hw. clear wire Hw.
  cbn [append]. rewrite !append_assoc. cbn [append].
  rewrite !append_assoc. cbn [append]. rewrite !append_assoc. cbn [append].
  set (ch := TJSONProtocol.init _).
  destruct (pushRead_top JSONListContext JSONContext 0 ch
              (lexical_cast_string 1
               ++ String "," (quoted (json_escape name)
               ++ String "," (lexical_cast_string (messageType_value mt)
               ++ String "," (lexical_cast_string seqid ++ String c rest)))))
    as (ch1 & p & E1 & Htop1 & Hcs1 & _ & _);
    [reflexivity | reflexivity | now left |].
  destruct (readInteger_pending (lexical_cast_unsigned 64) JSONListContext 0
              (top ch1) 1 1 ","
              (quoted (json_escape name)
               ++ String "," (lexical_cast_string (messageType_value mt)
               ++ String "," (lexical_cast_string seqid ++ String c rest))))
    as (s2 & E2 & Hp2 & Hc2);
    [now rewrite Htop1 | now rewrite Htop1 | reflexivity | reflexivity |].
  destruct (on_top_step _ ch1 _ _ E2) as (ch2 & E2' & Htop2 & Hcs2).
  destruct (readString_pending JSONListContext 1 (top ch2) name
              (String "," (lexical_cast_string (messageType_value mt)
               ++ String "," (lexical_cast_string seqid ++ String c rest))))
    as (s3 & E3 & Hp3 & Hc3).
  { now rewrite Htop2. }
  { rewrite Htop2, Hp2. unfold emission_text, quoted, str1.
    cbn [separator append]. rewrite !append_assoc. reflexivity. }
  destruct (on_top_step _ ch2 _ _ E3) as (ch3 & E3' & Htop3 & Hcs3).
  destruct (readInteger_pending (lexical_cast_unsigned 64) JSONListContext 2
              (top ch3) (messageType_value mt) (messageType_value mt) ","
              (lexical_cast_string seqid ++ String c rest))
    as (s4 & E4 & Hp4 & Hc4).
  { now rewrite Htop3. }
  { now rewrite Htop3, Hp3. }
  { reflexivity. }
  { rewrite lexical_cast_unsigned_string; [|lia|lia].
    rewrite Z.mod_small; [reflexivity|]. change (Z.of_N 64) with 64%Z. lia. }
  destruct (on_top_step _ ch3 _ _ E4) as (ch4 & E4' & Htop4 & Hcs4).
  destruct (readInteger_pending (lexical_cast_unsigned 64) JSONListContext 3
              (top ch4) seqid (seqid mod 2 ^ 64) c rest)
    as (s5 & E5 & Hp5 & Hc5).
  { now rewrite Htop4. }
  { now rewrite Htop4, Hp4. }
  { exact Hc. }
  { rewrite lexical_cast_unsigned_string; [reflexivity|lia|].
    change (Z.of_N 64) with 64%Z. lia. }
  destruct (on_top_step _ ch4 _ _ E5) as (ch5 & E5' & Htop5 & Hcs5).
  assert (E : TJSONProtocol.readMessageBegin ch
              = (if (seqid <? 0)%Z then Err SIZE_LIMIT
                 else Ok (remove_nul name, mt, seqid), ch5)).
  { unfold TJSONProtocol.readMessageBegin.
    change new_TJSONListContext with (fresh JSONListContext).
    rewrite (bind_ok _ _ _ _ _ E1), (bind_ok _ _ _ _ _ E2').
    change (negb (1 =? TJSONProtocol.kThriftVersion1)%Z) with false.
    cbv iota.
    rewrite (bind_ok _ _ _ _ _ E3'), (bind_ok _ _ _ _ _ E4').
    rewrite (bind_ok _ _ _ _ _ E5'), Hback.
    destruct (Z.ltb_spec seqid 0) as [Hneg|Hpos].
    - replace (seqid mod 2 ^ 64)%Z with (seqid + 2 ^ 64)%Z.
      + destruct (Z.ltb_spec 2147483647 (seqid + 2 ^ 64)) as [_|Hbad];
          [reflexivity | exfalso; lia].
      + rewrite <- (Z.mod_small (seqid + 2 ^ 64) (2 ^ 64)) at 1 by lia.
        now rewrite <- Z.add_mod_idemp_r, Z.mod_same, Z.add_0_r by lia.
    - rewrite Z.mod_small by lia.
      destruct (Z.ltb_spec 2147483647 seqid) as [Hbad|_];
        [exfalso; lia | reflexivity]. }
  unfold outcome, final. rewrite E. cbn [fst snd]. split; [reflexivity|].
  now rewrite Htop5.
Qed.

Lemma base_message_header_roundtrip_witness :
  let wire := base_wire_of (TJSONProtocol.writeMessageBegin "Janky" T_CALL 7) in
  let ch := TJSONProtocol.init (wire ++ String "," "{}]") in
  wire = "[1," ++ quoted "Janky" ++ ",1,7" /\
  outcome TJSONProtocol.readMessageBegin ch = Ok ("Janky", T_CALL, 7%Z) /\
  pending (top (final TJSONProtocol.readMessageBegin ch)) = String "," "{}]".
Proof.
  apply (base_message_header_roundtrip "Janky" T_CALL 7 "," "{}]").
  - cbn. tauto.
  - lia.
  - reflexivity.
Defined.

(** [readInteger] where the conversion refuses the digits it has read. *)
Lemma readInteger_refused (cast : string -> option Z) (k : context_class)
      (n : nat) (s : context_io) (num : Z) (c : ascii) (t : string) :
  control s = control_at k n ->
  pending s = emission_text k n (Number num) ++ String c t ->
  isJSONNumeric c = false ->
  cast (lexical_cast_string num) = None ->
  outcome (readInteger cast) s = Err INVALID_DATA.
Proof.
  intros Hctl Hp Hc Hcast. unfold emission_text in Hp.
  rewrite append_assoc in Hp.
  destruct (readNext_pending k n s _ Hctl Hp) as (s1 & E1 & Hp1 & Hc1).
  unfold outcome, readInteger. rewrite (bind_ok _ _ _ _ _ E1).
  unfold bind at 1. cbn [get].
  rewrite (escapeNum_control k n s1 Hc1).
  pose proof (lexical_cast_string_numeric num) as Hnum.
  destruct (quotes_numbers k n).
  - unfold quoted in Hp1. cbn [append] in Hp1. rewrite append_assoc in Hp1.
    cbn [append str1] in Hp1.
    destruct (readSyntaxChar_pending _ s1 _ Hp1) as (s2 & E2 & Hp2 & _ & _ & Hc2).
    rewrite (bind_ok _ _ _ _ _ E2).
    destruct (readNumericChars_pending _ s2 _ _ Hnum delimiter_not_numeric Hp2)
      as (s3 & E3 & Hp3 & Hc3).
    rewrite (bind_ok _ _ _ _ _ E3), Hcast. reflexivity.
  - unfold bind at 1, ret.
    destruct (readNumericChars_pending _ s1 _ _ Hnum Hc Hp1)
      as (s3 & E3 & Hp3 & Hc3).
    rewrite (bind_ok _ _ _ _ _ E3), Hcast. reflexivity.
Qed.

(** A magnitude of 2^64 or more does not convert to [uint64_t]. *)
Lemma lexical_cast_unsigned_overflow (num : Z) :
  (2 ^ 64 <= Z.abs num < 10 ^ 20)%Z ->
  lexical_cast_unsigned 64 (lexical_cast_string num) = None.
Proof.
  intros H. unfold lexical_cast_unsigned.
  rewrite parse_decimal_lexical_cast_string by lia.
  assert (Hge : (Z.abs_N num <? 2 ^ 64)%N = false).
  { apply N.ltb_ge. apply N2Z.inj_le. rewrite N2Z.inj_abs_N.
    change (Z.of_N (2 ^ 64)) with (2 ^ 64)%Z. lia. }
  now rewrite Hge.
Qed.

(** X14.  [readMessageBegin] of the base protocol reads the version number as a
    [uint64_t] and compares it with 1.  On a message that begins with a
    number of magnitude below 2^64 that is not 1 modulo 2^64 it raises
    [BAD_VERSION]: that is every number from 0 to 2^64 - 1 other than 1,
    and every negative number above -2^64 other than 1 - 2^64, which the
    conversion wraps to 1.  On a number of magnitude 2^64 or more the
    conversion fails and [INVALID_DATA] is raised instead. *)
Theorem base_readMessageBegin_bad_version (version : Z) (c : ascii)
        (rest : string) :
  (Z.abs version < 10 ^ 20)%Z ->
  isJSONNumeric c = false ->
  let ch := TJSONProtocol.init
              (String "[" (lexical_cast_string version ++ String c rest)) in
  ((Z.abs version < 2 ^ 64)%Z -> (version mod 2 ^ 64)%Z <> 1%Z ->
   outcome TJSONProtocol.readMessageBegin ch = Err BAD_VERSION) /\
  ((2 ^ 64 <= Z.abs version)%Z ->
   outcome TJSONProtocol.readMessageBegin ch = Err INVALID_DATA).
Proof.
  intros Hdigits Hc ch.
  destruct (pushRead_top JSONListContext JSONContext 0 ch
              (lexical_cast_string version ++ String c rest))
    as (ch1 & p & E1 & Htop1 & Hcs1 & _ & _);
    [reflexivity | reflexivity | now left |].
  split.
  - intros Hv Hne.
    destruct (readInteger_pending (lexical_cast_unsigned 64) JSONListContext 0
                (top ch1) version (version mod 2 ^ 64)%Z c rest)
      as (s2 & E2 & Hp2 & Hc2);
      [now rewrite Htop1 | now rewrite Htop1 | exact Hc | |].
    { rewrite lexical_cast_unsigned_string;
        [reflexivity | lia | change (Z.of_N 64) with 64%Z; lia]. }
    destruct (on_top_step _ ch1 _ _ E2) as (ch2 & E2' & Htop2 & Hcs2).
    unfold outcome, TJSONProtocol.readMessageBegin.
    change new_TJSONListContext with (fresh JSONListContext).
    rewrite (bind_ok _ _ _ _ _ E1), (bind_ok _ _ _ _ _ E2').
    unfold TJSONProtocol.kThriftVersion1.
    apply Z.eqb_neq in Hne. now rewrite Hne.
  - intros Hv.
    pose proof (readInteger_refused (lexical_cast_unsigned 64) JSONListContext
                  0 (top ch1) version c rest) as E2.
    unfold outcome in E2.
    destruct (readInteger (lexical_cast_unsigned 64) (top ch1))
      as [r2 s2] eqn:Er.
    cbn [fst] in E2. rewrite E2 in Er;
      [| now rewrite Htop1 | now rewrite Htop1 | exact Hc
       | apply lexical_cast_unsigned_overflow; lia ].
    unfold outcome, TJSONProtocol.readMessageBegin.
    change new_TJSONListContext with (fresh JSONListContext).
    rewrite (bind_ok _ _ _ _ _ E1).
    rewrite (bind_err _ _ _ _ _ (on_top_err _ ch1 _ _ Er)). reflexivity.
Qed.

Lemma base_readMessageBegin_bad_version_witness :
  outcome TJSONProtocol.readMessageBegin
          (TJSONProtocol.init
             (String "[" (lexical_cast_string 2 ++ String "," "")))
  = Err BAD_VERSION /\
  outcome TJSONProtocol.readMessageBegin
          (TJSONProtocol.init
             (String "[" (lexical_cast_string (-5) ++ String "," "")))
  = Err BAD_VERSION /\
  outcome TJSONProtocol.readMessageBegin
          (TJSONProtocol.init
             (String "[" (lexical_cast_string (2 ^ 64) ++ String "," "")))
  = Err INVALID_DATA.
Proof.
  split; [|split].
  - apply (base_readMessageBegin_bad_version 2 "," "");
      [reflexivity | reflexivity | reflexivity | discriminate].
  - apply (base_readMessageBegin_bad_version (-5) "," "");
      [reflexivity | reflexivity | reflexivity | discriminate].
  - apply (base_readMessageBegin_bad_version (2 ^ 64) "," "");
      [reflexivity | reflexivity | discriminate].
Defined.

(** ** The base protocol: fields and containers *)

Lemma lexical_cast_unsigned_small (num : Z) :
  (0 <= num < 2 ^ 64)%Z ->
  lexical_cast_unsigned 64 (lexical_cast_string num) = Some num.
Proof.
  intros H. rewrite lexical_cast_unsigned_string;
    [|lia|change (Z.of_N 64) with 64%Z; lia].
  rewrite Z.mod_small; [reflexivity|]. change (Z.of_N 64) with 64%Z. lia.
Qed.

Lemma lexical_cast_unsigned_negative (num : Z) :
  (- 2 ^ 63 <= num < 0)%Z ->
  lexical_cast_unsigned 64 (lexical_cast_string num) = Some (num + 2 ^ 64)%Z.
Proof.
  intros H. rewrite lexical_cast_unsigned_string;
    [|lia|change (Z.of_N 64) with 64%Z; lia].
  f_equal. change (Z.of_N 64) with 64%Z.
  rewrite <- (Z.mod_add num 1 (2 ^ 64)) by lia. rewrite Z.mul_1_l.
  apply Z.mod_small. lia.
Qed.

Lemma base_writeFieldBegin_run (t : TType) (name : string) (fieldId : Z)
      (n : nat) (cs : list TJSONContext) (b : string) :
  getTypeNameForTypeID t = Ok name ->
  TJSONProtocol.writeFieldBegin t fieldId
    (mkChannel (mkStack (context_at JSONPairContext n new_reader) cs) b)
  = (Ok tt,
     mkChannel (mkStack (context_at JSONPairContext 1 new_reader)
                        (context_at JSONPairContext (S (S n)) new_reader :: cs))
               (b ++ emission_text JSONPairContext n (Number fieldId)
                  ++ separator JSONPairContext (S n)
                  ++ String "{" (quoted (json_escape name)))).
Proof.
  intros Hname. unfold TJSONProtocol.writeFieldBegin.
  rewrite (bind_ok _ _ _ _ _ (on_top_writeInteger _ _ _ _ _ _)).
  rewrite (bind_ok _ _ _ _ _ (pushWrite_run _ _ _ _ _ _)).
  change new_TJSONPairContext with (context_at JSONPairContext 0 new_reader).
  rewrite (on_top_writeTypeID _ _ _ _ _ _ _ Hname).
  change (emission_text JSONPairContext 0 (Text name))
    with (quoted (json_escape name)).
  cbn [class_ context_at pair_context_after opener str1].
  rewrite !append_assoc. reflexivity.
Qed.

(** X15.  A field header written by [writeFieldBegin] of the base protocol at a
    key position of a struct is read back by [readFieldBegin] there: the
    type and the field id; unless the id is negative, which is read as an
    unsigned number above the largest [int16_t] and raises [SIZE_LIMIT]. *)
Theorem base_field_header_roundtrip (t : TType) (fieldId : Z) (n : nat)
        (cs : list TJSONContext) (rest : string) :
  In t (map snd type_names) ->
  (- 2 ^ 15 <= fieldId < 2 ^ 15)%Z ->
  Nat.even n = true ->
  let struct := mkStack (context_at JSONPairContext n new_reader) cs in
  let wire := bytes_ (final (TJSONProtocol.writeFieldBegin t fieldId)
                            (mkChannel struct "")) in
  let ch := mkChannel struct (wire ++ rest) in
  outcome (TJSONProtocol.writeFieldBegin t fieldId) (mkChannel struct "")
  = Ok tt /\
  outcome TJSONProtocol.readFieldBegin ch
  = (if (fieldId <? 0)%Z then Err SIZE_LIMIT else Ok (t, Some fieldId)) /\
  ((0 <= fieldId)%Z ->
   pending (top (final TJSONProtocol.readFieldBegin ch)) = rest /\
   control (top (final TJSONProtocol.readFieldBegin ch))
   = control_at JSONPairContext 1).
Proof.
  intros Ht Hid Heven struct wire ch.
  destruct (type_name_of t Ht) as [name Hname].
  pose proof (base_writeFieldBegin_run t name fieldId n cs "" Hname) as Hrun.
  assert (Hw : wire = emission_text JSONPairContext n (Number fieldId)
                      ++ separator JSONPairContext (S n)
                      ++ String "{" (quoted (json_escape name))).
  { unfold wire, struct, final. now rewrite Hrun. }
  split.
  { unfold outcome, struct. now rewrite Hrun. }
  subst ch. rewrite Hw. clear wire Hw Hrun.
  assert (Hsep : separator JSONPairContext (S n) = ":").
  { unfold separator, pair_separator. now rewrite Nat.odd_succ, Heven. }
  rewrite Hsep.
  set (ch := mkChannel struct _).
  assert (Hp0 : pending (top ch)
                = emission_text JSONPairContext n (Number fieldId)
                  ++ String ":" (String "{" (quoted (json_escape name) ++ rest))).
  { unfold ch, top, struct. cbn [stack_ context_ bytes_].
    rewrite pending_context_at, !append_assoc. reflexivity. }
  assert (Hc0 : control (top ch) = control_at JSONPairContext n).
  { unfold ch, top, struct. cbn [stack_ context_ bytes_].
    apply control_context_at. }
  (* the peek *)
  assert (Hhead : exists c0 t0,
             pending (top ch) = String c0 t0 /\ c0 <> kJSONObjectEnd).
  { rewrite Hp0. unfold emission_text, quotes_numbers. rewrite Heven.
    destruct n as [|j].
    - eexists _, _. split; [reflexivity | discriminate].
    - unfold separator, pair_separator. destruct (Nat.odd (S j));
        eexists _, _; (split; [reflexivity | discriminate]). }
  destruct Hhead as (c0 & t0 & Hp0' & Hne).
  destruct (reader_peek_pending (top ch) c0 t0 Hp0') as (s1 & E1 & Hp1 & Hc1).
  destruct (on_top_step _ ch _ _ E1) as (ch1 & E1' & Htop1 & Hcs1).
  apply Ascii.eqb_neq in Hne.
  destruct (readInteger_pending (lexical_cast_unsigned 64) JSONPairContext n
              (top ch1) fieldId
              (if (fieldId <? 0)%Z then fieldId + 2 ^ 64 else fieldId)%Z
              ":" (String "{" (quoted (json_escape name) ++ rest)))
    as (s2 & E2 & Hp2 & Hc2).
  { rewrite Htop1. congruence. }
  { rewrite Htop1. congruence. }
  { reflexivity. }
  { destruct (Z.ltb_spec fieldId 0).
    - apply lexical_cast_unsigned_negative. lia.
    - apply lexical_cast_unsigned_small. lia. }
  destruct (on_top_step _ ch1 _ _ E2) as (ch2 & E2' & Htop2 & Hcs2).
  destruct (Z.ltb_spec fieldId 0) as [Hneg|Hpos].
  - split; [|intros; lia].
    unfold outcome, TJSONProtocol.readFieldBegin.
    rewrite (bind_ok _ _ _ _ _ E1'), Hne, (bind_ok _ _ _ _ _ E2').
    destruct (Z.ltb_spec 32767 (fieldId + 2 ^ 64)); [reflexivity | lia].
  - destruct (pushRead_top JSONPairContext JSONPairContext (S n) ch2
                (quoted (json_escape name) ++ rest))
      as (ch3 & p & E3 & Htop3 & Hcs3 & _ & _).
    { now rewrite Htop2. }
    { now rewrite Htop2, Hp2, Hsep. }
    { right. rewrite Hsep. discriminate. }
    destruct (readTypeID_pending t name JSONPairContext 0 (top ch3) rest Hname)
      as (s4 & E4 & Hp4 & Hc4).
    { now rewrite Htop3. }
    { now rewrite Htop3. }
    destruct (on_top_step _ ch3 _ _ E4) as (ch4 & E4' & Htop4 & Hcs4).
    assert (E : TJSONProtocol.readFieldBegin ch = (Ok (t, Some fieldId), ch4)).
    { unfold TJSONProtocol.readFieldBegin.
      rewrite (bind_ok _ _ _ _ _ E1'), Hne, (bind_ok _ _ _ _ _ E2').
      destruct (Z.ltb_spec 32767 fieldId); [lia|].
      change new_TJSONPairContext with (fresh JSONPairContext).
      now rewrite (bind_ok _ _ _ _ _ E3), (bind_ok _ _ _ _ _ E4'). }
    unfold outcome, final. rewrite E. cbn [fst snd].
    split; [reflexivity|]. intros _. rewrite Htop4. now split.
Qed.

Lemma base_field_header_roundtrip_witness :
  let struct := mkStack (context_at JSONPairContext 2 new_reader)
                        [new_TJSONContext] in
  let wire := bytes_ (final (TJSONProtocol.writeFieldBegin T_I32 2)
                            (mkChannel struct "")) in
  let ch := mkChannel struct (wire ++ ":5}}") in
  wire = "," ++ quoted "2" ++ ":{" ++ quoted "i32" /\
  outcome TJSONProtocol.readFieldBegin ch = Ok (T_I32, Some 2%Z) /\
  pending (top (final TJSONProtocol.readFieldBegin ch)) = ":5}}".
Proof.
  pose proof (base_field_header_roundtrip T_I32 2 2 [new_TJSONContext] ":5}}"
                ltac:(cbn; tauto) ltac:(lia) eq_refl) as H.
  cbv zeta in H. destruct H as (_ & Hout & Hrest).
  destruct (Hrest ltac:(lia)) as [Hp _].
  exact (conj eq_refl (conj Hout Hp)).
Defined.

(** X16.  At the closing brace of a struct [readFieldBegin] of the base protocol
    returns [T_STOP] without taking the brace, whatever the state of the
    context; [readStructEnd] then takes it and returns to the enclosing
    context. *)
Theorem base_readFieldBegin_stop (ch : channel) (p : TJSONContext)
        (cs : list TJSONContext) (t : string) :
  pending (top ch) = String kJSONObjectEnd t ->
  class_ (context_ (stack_ ch)) = JSONPairContext ->
  contexts_ (stack_ ch) = p :: cs ->
  outcome TJSONProtocol.readFieldBegin ch = Ok (T_STOP, None) /\
  pending (top (final TJSONProtocol.readFieldBegin ch))
  = String kJSONObjectEnd t /\
  control (top (final TJSONProtocol.readFieldBegin ch)) = control (top ch) /\
  (TJSONProtocol.readFieldBegin ;; TJSONProtocol.readStructEnd) ch
  = (Ok tt, mkChannel (mkStack p cs) t).
Proof.
  intros Hp Hclass Hcs.
  destruct (reader_peek_pending (top ch) _ t Hp) as (s1 & E1 & Hp1 & Hc1).
  destruct (on_top_step _ ch _ _ E1) as (ch1 & E1' & Htop1 & Hcs1).
  assert (E : TJSONProtocol.readFieldBegin ch = (Ok (T_STOP, None), ch1)).
  { unfold TJSONProtocol.readFieldBegin.
    now rewrite (bind_ok _ _ _ _ _ E1'), Ascii.eqb_refl. }
  unfold outcome, final. rewrite E. cbn [fst snd]. rewrite Htop1.
  repeat match goal with |- _ /\ _ => split end; trivial.
  rewrite (bind_ok _ _ _ _ _ E). unfold TJSONProtocol.readStructEnd.
  apply popRead_top; [congruence|].
  rewrite Htop1, Hp1.
  assert (Hk : class_ (context_ (stack_ ch1)) = JSONPairContext).
  { change (class_ (this (top ch1)) = JSONPairContext). rewrite Htop1.
    unfold control in Hc1. injection Hc1 as Hk _ _. rewrite Hk. exact Hclass. }
  now rewrite Hk.
Qed.

Lemma base_readFieldBegin_stop_witness :
  let ch := mkChannel (mkStack (context_at JSONPairContext 2 new_reader)
                               [new_TJSONContext]) "}]" in
  outcome TJSONProtocol.readFieldBegin ch = Ok (T_STOP, None) /\
  (TJSONProtocol.readFieldBegin ;; TJSONProtocol.readStructEnd) ch
  = (Ok tt, mkChannel (mkStack new_TJSONContext []) "]").
Proof.
  pose proof (base_readFieldBegin_stop
                (mkChannel (mkStack (context_at JSONPairContext 2 new_reader)
                                    [new_TJSONContext]) "}]")
                new_TJSONContext [] "]" eq_refl eq_refl eq_refl) as H.
  destruct H as (Hout & _ & _ & Hend).
  exact (conj Hout Hend).
Defined.

Lemma bind_assoc {S A B C : Type} (m : M S A) (f : A -> M S B)
      (g : B -> M S C) (s : S) :
  bind (bind m f) g s = bind m (fun x => bind (f x) g) s.
Proof. unfold bind. destruct (m s) as [[a|e] s']; reflexivity. Qed.

Lemma bind_ret {S A B : Type} (v : A) (k : A -> M S B) (s : S) :
  bind (ret v) k s = k v s.
Proof. reflexivity. Qed.

Lemma pending_settled (p : TJSONContext) (t : string) :
  hasData_ (reader_ p) = false -> pending (mkIO p t) = t.
Proof. apply pending_new_reader. Qed.

Lemma base_write_list_run (t : TType) (name : string) (size : Z)
      (es : list emission) (kp : context_class) (n : nat)
      (cs : list TJSONContext) (b : string) :
  getTypeNameForTypeID t = Ok name ->
  base_write_list t size es
    (mkChannel (mkStack (context_at kp n new_reader) cs) b)
  = (Ok tt,
     mkChannel (mkStack (context_at kp (S n) new_reader) cs)
               (b ++ separator kp n
                  ++ String "[" (emissions_text JSONListContext 0
                                   (Text name :: Number size :: es)
                                 ++ "]"))).
Proof.
  intros Hname. unfold base_write_list, TJSONProtocol.writeListBegin,
                  TJSONProtocol.writeListEnd.
  rewrite bind_assoc.
  rewrite (bind_ok _ _ _ _ _ (pushWrite_run _ _ _ _ _ _)).
  rewrite bind_assoc.
  change new_TJSONListContext with (context_at JSONListContext 0 new_reader).
  rewrite (bind_ok _ _ _ _ _ (on_top_writeTypeID _ _ _ _ _ _ _ Hname)).
  rewrite (bind_ok _ _ _ _ _ (on_top_writeInteger _ _ _ _ _ _)).
  rewrite (bind_ok _ _ _ _ _ (on_top_emit_all _ _ _ _ _ _)).
  rewrite popWrite_run. cbn [emissions_text class_ context_at opener closer str1].
  rewrite !append_assoc. cbn [append]. rewrite ?append_assoc. reflexivity.
Qed.

Lemma base_read_list_run (t : TType) (name : string) (size : Z)
      (es : list emission) (kp : context_class) (n : nat) (ch : channel)
      (rest : string) :
  getTypeNameForTypeID t = Ok name ->
  (0 <= size < 2 ^ 32)%Z ->
  Forall (numbers_fit 64) es ->
  control (top ch) = control_at kp n ->
  hasData_ (reader_ (context_ (stack_ ch))) = false ->
  bytes_ ch = separator kp n
              ++ String "[" (emissions_text JSONListContext 0
                               (Text name :: Number size :: es)
                             ++ String "]" rest) ->
  exists p,
    base_read_list es ch
    = (Ok (t, size, map received es),
       mkChannel (mkStack p (contexts_ (stack_ ch))) rest) /\
    control (mkIO p rest) = control_at kp (S n) /\
    hasData_ (reader_ p) = false.
Proof.
  intros Hname Hsize Hfit Hctl Hdata Hbytes.
  cbn [emissions_text] in Hbytes. rewrite !append_assoc in Hbytes.
  destruct (pushRead_top JSONListContext kp n ch
              (emission_text JSONListContext 0 (Text name)
               ++ emission_text JSONListContext 1 (Number size)
               ++ emissions_text JSONListContext 2 es ++ String "]" rest)
              Hctl) as
      (ch1 & p & E1 & Htop1 & Hcs1 & Hcp & Hdp); [|now left|].
  { unfold top. rewrite pending_settled by exact Hdata. exact Hbytes. }
  destruct (readTypeID_pending t name JSONListContext 0 (top ch1)
              (emission_text JSONListContext 1 (Number size)
               ++ emissions_text JSONListContext 2 es ++ String "]" rest)
              Hname)
    as (s2 & E2 & Hp2 & Hc2);
    [now rewrite Htop1 | now rewrite Htop1 |].
  destruct (on_top_step _ ch1 _ _ E2) as (ch2 & E2' & Htop2 & Hcs2).
  destruct (emissions_text_not_numeric JSONListContext 1 es "]" rest
              ltac:(discriminate) eq_refl) as (c' & t' & Et & Hc').
  rewrite Et in Hp2.
  destruct (readInteger_pending (lexical_cast_unsigned 64) JSONListContext 1
              (top ch2) size size c' t') as (s3 & E3 & Hp3 & Hc3).
  { now rewrite Htop2. }
  { now rewrite Htop2. }
  { exact Hc'. }
  { apply lexical_cast_unsigned_small. lia. }
  destruct (on_top_step _ ch2 _ _ E3) as (ch3 & E3' & Htop3 & Hcs3).
  rewrite <- Et in Hp3.
  destruct (receive_all_pending es JSONListContext 2 (top ch3) "]" rest
              ltac:(discriminate) Hfit eq_refl)
    as (s4 & E4 & Hp4 & Hc4).
  { now rewrite Htop3. }
  { now rewrite Htop3. }
  destruct (on_top_step _ ch3 _ _ E4) as (ch4 & E4' & Htop4 & Hcs4).
  assert (E5 : popRead ch4
               = (Ok tt, mkChannel (mkStack p (contexts_ (stack_ ch))) rest)).
  { apply popRead_top; [congruence|].
    assert (Hk : class_ (context_ (stack_ ch4)) = JSONListContext).
    { change (class_ (this (top ch4)) = JSONListContext). rewrite Htop4.
      apply (control_class _ _ _ Hc4). }
    now rewrite Hk, Htop4. }
  exists p. split; [|split; [exact Hcp | exact Hdp]].
  unfold base_read_list, TJSONProtocol.readListBegin,
    TJSONProtocol.readListEnd.
  change new_TJSONListContext with (fresh JSONListContext).
  rewrite bind_assoc, (bind_ok _ _ _ _ _ E1).
  rewrite bind_assoc, (bind_ok _ _ _ _ _ E2').
  rewrite bind_assoc, (bind_ok _ _ _ _ _ E3').
  destruct (Z.ltb_spec 4294967295 size); [lia|]. rewrite bind_ret.
  now rewrite (bind_ok _ _ _ _ _ E4'), (bind_ok _ _ _ _ _ E5).
Qed.

(** X17.  A list or a set of numbers and strings written by the base protocol
    is read back by it: the element type, the size, the elements (strings
    without their NUL bytes); the reader takes the bytes of the container
    and no more, and leaves the stack as the writer left it.  The number
    of elements is not compared with the size. *)
Theorem base_list_roundtrip (t : TType) (size : Z) (es : list emission)
        (kp : context_class) (n : nat) (cs : list TJSONContext)
        (rest : string) :
  In t (map snd type_names) ->
  (0 <= size < 2 ^ 32)%Z ->
  Forall (numbers_fit 64) es ->
  let parent := mkStack (context_at kp n new_reader) cs in
  let wire := bytes_ (final (base_write_list t size es)
                            (mkChannel parent "")) in
  let ch := mkChannel parent (wire ++ rest) in
  final (base_write_list t size es) (mkChannel parent "")
  = mkChannel (mkStack (context_at kp (S n) new_reader) cs) wire /\
  final (base_write_set t size es) (mkChannel parent "")
  = mkChannel (mkStack (context_at kp (S n) new_reader) cs) wire /\
  outcome (base_read_list es) ch = Ok (t, size, map received es) /\
  outcome (base_read_set es) ch = Ok (t, size, map received es) /\
  bytes_ (final (base_read_list es) ch) = rest /\
  contexts_ (stack_ (final (base_read_list es) ch)) = cs /\
  control (top (final (base_read_list es) ch)) = control_at kp (S n).
Proof.
  intros Ht Hsize Hfit parent wire ch.
  destruct (type_name_of t Ht) as [name Hname].
  pose proof (base_write_list_run t name size es kp n cs "" Hname) as Hrun.
  assert (Hw : wire = separator kp n
                      ++ String "[" (emissions_text JSONListContext 0
                                       (Text name :: Number size :: es)
                                     ++ "]")).
  { unfold wire, parent, final. now rewrite Hrun. }
  assert (Hfinal : final (base_write_list t size es) (mkChannel parent "")
                   = mkChannel (mkStack (context_at kp (S n) new_reader) cs)
                               wire).
  { rewrite Hw. unfold final, parent. now rewrite Hrun. }
  split; [exact Hfinal|]. split; [exact Hfinal|].
  destruct (base_read_list_run t name size es kp n ch rest Hname Hsize Hfit)
    as (p & E & Hcp & Hdp).
  { apply control_context_at. }
  { unfold ch, parent. cbn. now destruct kp. }
  { unfold ch. cbn [bytes_]. rewrite Hw, !append_assoc. cbn [append].
    now rewrite !append_assoc. }
  assert (Eset : base_read_set es ch = base_read_list es ch) by reflexivity.
  unfold outcome, final. rewrite Eset, E.
  cbn [fst snd bytes_ stack_ contexts_ context_].
  repeat match goal with |- _ /\ _ => split end; try reflexivity.
  exact Hcp.
Qed.

Lemma base_list_roundtrip_witness :
  let es := [Number 1; Number (-2); Number 3] in
  let parent := mkStack (context_at JSONPairContext 1 new_reader)
                        [new_TJSONContext] in
  let wire := bytes_ (final (base_write_list T_I32 3 es)
                            (mkChannel parent "")) in
  let ch := mkChannel parent (wire ++ "}") in
  wire = ":[" ++ quoted "i32" ++ ",3,1,-2,3]" /\
  outcome (base_read_list es) ch = Ok (T_I32, 3%Z, es) /\
  bytes_ (final (base_read_list es) ch) = "}".
Proof.
  pose proof (base_list_roundtrip T_I32 3 [Number 1; Number (-2); Number 3]
                JSONPairContext 1 [new_TJSONContext] "}"
                ltac:(cbn; tauto) ltac:(lia)
                ltac:(repeat constructor; cbn; lia)) as H.
  cbv zeta in H. destruct H as (_ & _ & Hout & _ & Hbytes & _).
  exact (conj eq_refl (conj Hout Hbytes)).
Defined.

Lemma base_write_map_run (kt vt : TType) (kname vname : string) (size : Z)
      (es : list emission) (kp : context_class) (n : nat)
      (cs : list TJSONContext) (b : string) :
  getTypeNameForTypeID kt = Ok kname ->
  getTypeNameForTypeID vt = Ok vname ->
  base_write_map kt vt size es
    (mkChannel (mkStack (context_at kp n new_reader) cs) b)
  = (Ok tt,
     mkChannel (mkStack (context_at kp (S n) new_reader) cs)
               (b ++ separator kp n
                  ++ String "[" (emissions_text JSONListContext 0
                                   [Text kname; Text vname; Number size]
                                 ++ String "," (String "{"
                                      (emissions_text JSONPairContext 0 es
                                       ++ "}]"))))).
Proof.
  intros Hk Hv. unfold base_write_map, TJSONProtocol.writeMapBegin,
                  TJSONProtocol.writeMapEnd.
  rewrite bind_assoc.
  rewrite (bind_ok _ _ _ _ _ (pushWrite_run _ _ _ _ _ _)).
  change new_TJSONListContext with (context_at JSONListContext 0 new_reader).
  rewrite bind_assoc.
  rewrite (bind_ok _ _ _ _ _ (on_top_writeTypeID _ _ _ _ _ _ _ Hk)).
  rewrite bind_assoc.
  rewrite (bind_ok _ _ _ _ _ (on_top_writeTypeID _ _ _ _ _ _ _ Hv)).
  rewrite bind_assoc.
  rewrite (bind_ok _ _ _ _ _ (on_top_writeInteger _ _ _ _ _ _)).
  rewrite (bind_ok _ _ _ _ _ (pushWrite_run _ _ _ _ _ _)).
  change new_TJSONPairContext with (context_at JSONPairContext 0 new_reader).
  rewrite (bind_ok _ _ _ _ _ (on_top_emit_all _ _ _ _ _ _)).
  rewrite (bind_ok _ _ _ _ _ (popWrite_run _ _ _ _)).
  rewrite popWrite_run.
  cbn [emissions_text class_ context_at pair_context_after opener closer str1
       separator].
  rewrite !append_assoc. cbn [append]. rewrite ?append_assoc.
  cbn [append]. rewrite ?append_assoc. reflexivity.
Qed.

Lemma base_read_map_run (kt vt : TType) (kname vname : string) (size : Z)
      (es : list emission) (kp : context_class) (n : nat) (ch : channel)
      (rest : string) :
  getTypeNameForTypeID kt = Ok kname ->
  getTypeNameForTypeID vt = Ok vname ->
  (0 <= size < 2 ^ 32)%Z ->
  Forall (numbers_fit 64) es ->
  control (top ch) = control_at kp n ->
  hasData_ (reader_ (context_ (stack_ ch))) = false ->
  bytes_ ch = separator kp n
              ++ String "[" (emissions_text JSONListContext 0
                               [Text kname; Text vname; Number size]
                             ++ String "," (String "{"
                                  (emissions_text JSONPairContext 0 es
                                   ++ String "}" (String "]" rest)))) ->
  exists p,
    base_read_map es ch
    = (Ok (kt, vt, size, map received es),
       mkChannel (mkStack p (contexts_ (stack_ ch))) rest) /\
    control (mkIO p rest) = control_at kp (S n) /\
    hasData_ (reader_ p) = false.
Proof.
  intros Hk Hv Hsize Hfit Hctl Hdata Hbytes.
  cbn [emissions_text] in Hbytes. rewrite !append_assoc in Hbytes.
  cbn [append] in Hbytes.
  set (tail := String "," (String "{" (emissions_text JSONPairContext 0 es
                                       ++ String "}" (String "]" rest))))
    in Hbytes.
  destruct (pushRead_top JSONListContext kp n ch
              (emission_text JSONListContext 0 (Text kname)
               ++ emission_text JSONListContext 1 (Text vname)
               ++ emission_text JSONListContext 2 (Number size) ++ tail)
              Hctl) as
      (ch1 & p & E1 & Htop1 & Hcs1 & Hcp & Hdp); [|now left|].
  { unfold top. rewrite pending_settled by exact Hdata. exact Hbytes. }
  destruct (readTypeID_pending kt kname JSONListContext 0 (top ch1)
              (emission_text JSONListContext 1 (Text vname)
               ++ emission_text JSONListContext 2 (Number size) ++ tail) Hk)
    as (s2 & E2 & Hp2 & Hc2);
    [now rewrite Htop1 | now rewrite Htop1 |].
  destruct (on_top_step _ ch1 _ _ E2) as (ch2 & E2' & Htop2 & Hcs2).
  destruct (readTypeID_pending vt vname JSONListContext 1 (top ch2)
              (emission_text JSONListContext 2 (Number size) ++ tail) Hv)
    as (s3 & E3 & Hp3 & Hc3);
    [now rewrite Htop2 | now rewrite Htop2 |].
  destruct (on_top_step _ ch2 _ _ E3) as (ch3 & E3' & Htop3 & Hcs3).
  destruct (readInteger_pending (lexical_cast_unsigned 64) JSONListContext 2
              (top ch3) size size ","
              (String "{" (emissions_text JSONPairContext 0 es
                           ++ String "}" (String "]" rest))))
    as (s4 & E4 & Hp4 & Hc4).
  { now rewrite Htop3. }
  { now rewrite Htop3. }
  { reflexivity. }
  { apply lexical_cast_unsigned_small. lia. }
  destruct (on_top_step _ ch3 _ _ E4) as (ch4 & E4' & Htop4 & Hcs4).
  destruct (pushRead_top JSONPairContext JSONListContext 3 ch4
              (emissions_text JSONPairContext 0 es
               ++ String "}" (String "]" rest)))
    as (ch5 & q & E5 & Htop5 & Hcs5 & Hcq & Hdq).
  { now rewrite Htop4. }
  { now rewrite Htop4. }
  { right. discriminate. }
  destruct (receive_all_pending es JSONPairContext 0 (top ch5) "}"
              (String "]" rest) ltac:(discriminate) Hfit eq_refl)
    as (s6 & E6 & Hp6 & Hc6).
  { now rewrite Htop5. }
  { now rewrite Htop5. }
  destruct (on_top_step _ ch5 _ _ E6) as (ch6 & E6' & Htop6 & Hcs6).
  assert (E7 : popRead ch6
               = (Ok tt, mkChannel (mkStack q (p :: contexts_ (stack_ ch)))
                                   (String "]" rest))).
  { apply popRead_top; [congruence|].
    assert (Hclass : class_ (context_ (stack_ ch6)) = JSONPairContext).
    { change (class_ (this (top ch6)) = JSONPairContext). rewrite Htop6.
      apply (control_class _ _ _ Hc6). }
    now rewrite Hclass, Htop6. }
  assert (E8 : popRead (mkChannel (mkStack q (p :: contexts_ (stack_ ch)))
                                  (String "]" rest))
               = (Ok tt, mkChannel (mkStack p (contexts_ (stack_ ch))) rest)).
  { apply popRead_top; [reflexivity|].
    unfold top. cbn [stack_ context_ bytes_].
    rewrite pending_settled by exact Hdq.
    pose proof (control_class _ _ _ Hcq) as Hq. cbn [this] in Hq.
    now rewrite Hq. }
  exists p. split; [|split; [exact Hcp | exact Hdp]].
  unfold base_read_map, TJSONProtocol.readMapBegin, TJSONProtocol.readMapEnd.
  change new_TJSONListContext with (fresh JSONListContext).
  change new_TJSONPairContext with (fresh JSONPairContext).
  rewrite bind_assoc, (bind_ok _ _ _ _ _ E1).
  rewrite bind_assoc, (bind_ok _ _ _ _ _ E2').
  rewrite bind_assoc, (bind_ok _ _ _ _ _ E3').
  rewrite bind_assoc, (bind_ok _ _ _ _ _ E4').
  destruct (Z.ltb_spec 4294967295 size); [lia|].
  rewrite bind_assoc, (bind_ok _ _ _ _ _ E5), bind_ret.
  rewrite (bind_ok _ _ _ _ _ E6').
  rewrite bind_assoc, (bind_ok _ _ _ _ _ E7), (bind_ok _ _ _ _ _ E8).
  reflexivity.
Qed.

(** X18.  A map whose keys and values are numbers and strings, written by the
    base protocol as a list that holds the two types, the size and one
    object, is read back by it: numeric keys are quoted on the wire and
    read from their quotes, and the reader takes the bytes of the map and
    no more. *)
Theorem base_map_roundtrip (kt vt : TType) (size : Z) (es : list emission)
        (kp : context_class) (n : nat) (cs : list TJSONContext)
        (rest : string) :
  In kt (map snd type_names) ->
  In vt (map snd type_names) ->
  (0 <= size < 2 ^ 32)%Z ->
  Forall (numbers_fit 64) es ->
  let parent := mkStack (context_at kp n new_reader) cs in
  let wire := bytes_ (final (base_write_map kt vt size es)
                            (mkChannel parent "")) in
  let ch := mkChannel parent (wire ++ rest) in
  final (base_write_map kt vt size es) (mkChannel parent "")
  = mkChannel (mkStack (context_at kp (S n) new_reader) cs) wire /\
  outcome (base_read_map es) ch = Ok (kt, vt, size, map received es) /\
  bytes_ (final (base_read_map es) ch) = rest /\
  contexts_ (stack_ (final (base_read_map es) ch)) = cs /\
  control (top (final (base_read_map es) ch)) = control_at kp (S n).
Proof.
  intros Hkt Hvt Hsize Hfit parent wire ch.
  destruct (type_name_of kt Hkt) as [kname Hk].
  destruct (type_name_of vt Hvt) as [vname Hv].
  pose proof (base_write_map_run kt vt kname vname size es kp n cs "" Hk Hv)
    as Hrun.
  assert (Hw : wire = separator kp n
                  ++ String "[" (emissions_text JSONListContext 0
                                   [Text kname; Text vname; Number size]
                                 ++ String "," (String "{"
                                      (emissions_text JSONPairContext 0 es
                                       ++ "}]")))).
  { unfold wire, parent, final. now rewrite Hrun. }
  split.
  { rewrite Hw. unfold final, parent. now rewrite Hrun. }
  destruct (base_read_map_run kt vt kname vname size es kp n ch rest
              Hk Hv Hsize Hfit)
    as (p & E & Hcp & Hdp).
  { apply control_context_at. }
  { unfold ch, parent. cbn. now destruct kp. }
  { unfold ch. cbn [bytes_]. rewrite Hw, !append_assoc. cbn [append].
    rewrite !append_assoc. cbn [append]. rewrite ?append_assoc.
    cbn [append]. now rewrite ?append_assoc. }
  unfold outcome, final. rewrite E.
  cbn [fst snd bytes_ stack_ contexts_ context_].
  repeat match goal with |- _ /\ _ => split end; try reflexivity.
  exact Hcp.
Qed.

Lemma base_map_roundtrip_witness :
  let es := [Number 1; Text "one"; Number 2; Text "two"] in
  let parent := mkStack (context_at JSONPairContext 1 new_reader)
                        [new_TJSONContext] in
  let wire := bytes_ (final (base_write_map T_I32 T_STRING 2 es)
                            (mkChannel parent "")) in
  let ch := mkChannel parent (wire ++ "}") in
  wire = ":[" ++ quoted "i32" ++ "," ++ quoted "str" ++ ",2,{"
         ++ quoted "1" ++ ":" ++ quoted "one" ++ ","
         ++ quoted "2" ++ ":" ++ quoted "two" ++ "}]" /\
  outcome (base_read_map es) ch = Ok (T_I32, T_STRING, 2%Z, es) /\
  bytes_ (final (base_read_map es) ch) = "}".
Proof.
  pose proof (base_map_roundtrip T_I32 T_STRING 2
                [Number 1; Text "one"; Number 2; Text "two"]
                JSONPairContext 1 [new_TJSONContext] "}"
                ltac:(cbn; tauto) ltac:(cbn; tauto) ltac:(lia)
                ltac:(repeat constructor; cbn; lia)) as H.
  cbv zeta in H. destruct H as (_ & Hout & Hbytes & _).
  exact (conj eq_refl (conj Hout Hbytes)).
Defined.

(** ** Doubles read back *)

Lemma numeric_char_plain (c : ascii) :
  isJSONNumeric c = true ->
  json_escape_char c = str1 c /\ is_nul c = false.
Proof.
  destruct c as [b0 b1 b2 b3 b4 b5 b6 b7].
  destruct b0, b1, b2, b3, b4, b5, b6, b7; intros H; try discriminate H;
    split; reflexivity.
Qed.

Lemma numeric_text_plain (text : string) :
  string_forall isJSONNumeric text = true ->
  json_escape text = text /\ remove_nul text = text.
Proof.
  induction text as [|c text IH]; [now split|].
  cbn [string_forall json_escape remove_nul]. intros H.
  apply andb_prop in H. destruct H as [Hc Ht].
  destruct (numeric_char_plain c Hc) as [-> ->].
  destruct (IH Ht) as [-> ->]. now split.
Qed.

Lemma numeric_text_not_token (text : string) :
  string_forall isJSONNumeric text = true ->
  String.eqb text kThriftNan = false /\
  String.eqb text kThriftInfinity = false /\
  String.eqb text kThriftNegativeInfinity = false.
Proof.
  intros H. repeat split; apply String.eqb_neq; intros ->; discriminate H.
Qed.

(** [readString] called with [skipContext]: the string is read where the
    reader stands, and the context does not advance. *)
Lemma readString_skip_pending (s : context_io) (str rest : string) :
  pending s = quoted (json_escape str) ++ rest ->
  exists s', readString true s = (Ok (remove_nul str), s') /\
             pending s' = rest /\ control s' = control s.
Proof.
  intros Hp. unfold readString. rewrite bind_ret.
  unfold quoted in Hp. cbn [append] in Hp. rewrite append_assoc in Hp.
  cbn [append str1] in Hp.
  destruct (readSyntaxChar_pending _ s _ Hp) as (s2 & E2 & _ & Ht2 & Hd2 & Hc2).
  rewrite (bind_ok _ _ _ _ _ E2).
  unfold bind at 1. cbn [get]. unfold input_fuel.
  destruct s2 as [[k2 f2 col2 [h2 d2]] t2]. cbn in Ht2, Hd2. subst h2 t2.
  cbn [trans_].
  rewrite (readString_loop_written str _ "")
    by (rewrite length_append; pose proof (json_escape_length str); lia).
  eexists. split; [reflexivity|]. split; [reflexivity|].
  rewrite <- Hc2. reflexivity.
Qed.

Section DoubleRoundTrip.

Variable ostream_double : Z -> PrimFloat.float -> string.
Variable stringToDouble : string -> option PrimFloat.float.

(** The text [writeDouble] puts after the separator. *)
Lemma writeDouble_at (num : PrimFloat.float) (k : context_class) (n : nat)
      (r : LookaheadReader) (t : string) :
  (fpclassify num <> FP_INFINITE -> fpclassify num <> FP_NAN ->
   (size (ostream_double 17 num) <= UINT32_MAX)%N) ->
  writeDouble ostream_double num (mkIO (context_at k n r) t)
  = (Ok tt,
     mkIO (context_at k (S n) r)
          (t ++ separator k n
             ++ match PrimFloat.classify num with
                | FloatClass.PInf => quoted kThriftInfinity
                | FloatClass.NInf => quoted kThriftNegativeInfinity
                | FloatClass.NaN => quoted kThriftNan
                | _ => if quotes_numbers k n
                       then quoted (ostream_double 17 num)
                       else ostream_double 17 num
                end)).
Proof.
  intros Hshort.
  assert (H1 : (UINT32_MAX <? size kThriftInfinity)%N = false) by reflexivity.
  assert (H2 : (UINT32_MAX <? size kThriftNegativeInfinity)%N = false)
    by reflexivity.
  assert (H3 : (UINT32_MAX <? size kThriftNan)%N = false) by reflexivity.
  unfold writeDouble. rewrite (bind_ok _ _ _ _ _ (writeNext_at k n r t)).
  unfold fpclassify, signbit, doubleToString, digits10 in *.
  change (2 + 15)%Z with 17%Z.
  destruct (PrimFloat.classify num);
    try (specialize (Hshort ltac:(discriminate) ltac:(discriminate));
         apply N.ltb_ge in Hshort);
    unfold bind at 1; cbn [get this]; cbv beta iota;
    rewrite ?escapeNum_at; cbn [orb];
    try (destruct (quotes_numbers k n));
    unfold bind, write, modify, ret, quoted, str1; cbn [this trans_];
    rewrite ?Hshort, ?H1, ?H2, ?H3; cbn [fst snd this trans_];
    rewrite ?append_assoc; cbn [append]; rewrite ?append_assoc; reflexivity.
Qed.

(** X19.  The three special values come back whatever the context and whatever
    the formatter and the parser of the library: an infinity as the infinity
    of its sign, a NaN as a NaN. *)
Theorem special_double_roundtrip (num : PrimFloat.float)
        (k : context_class) (n : nat) (rest : string) :
  fpclassify num = FP_INFINITE \/ fpclassify num = FP_NAN ->
  let wire := trans_ (final (writeDouble ostream_double num)
                            (mkIO (context_at k n new_reader) "")) in
  let s := mkIO (context_at k n new_reader) (wire ++ rest) in
  exists d,
    outcome (readDouble stringToDouble) s = Ok d /\
    PrimFloat.classify d = PrimFloat.classify num /\
    pending (final (readDouble stringToDouble) s) = rest /\
    control (final (readDouble stringToDouble) s) = control_at k (S n).
Proof.
  intros Hspecial wire s.
  set (token := match PrimFloat.classify num with
                | FloatClass.PInf => kThriftInfinity
                | FloatClass.NInf => kThriftNegativeInfinity
                | _ => kThriftNan
                end).
  assert (Hw : wire = separator k n ++ quoted (json_escape token)).
  { unfold wire, final. rewrite writeDouble_at by (destruct Hspecial; congruence).
    unfold fpclassify in Hspecial. unfold token. cbn [snd trans_ append].
    destruct (PrimFloat.classify num);
      try (destruct Hspecial; discriminate); reflexivity. }
  subst s. rewrite Hw, append_assoc. clear wire Hw.
  set (s := mkIO _ _).
  destruct (readNext_pending k n s (quoted (json_escape token) ++ rest)
              (control_context_at k n new_reader _)
              (pending_context_at k n _)) as (s1 & E1 & Hp1 & Hc1).
  assert (Hp1' : pending s1
                 = String kJSONStringDelimiter
                          (json_escape token ++ String kJSONStringDelimiter rest)).
  { rewrite Hp1. unfold quoted, str1. cbn [append].
    now rewrite append_assoc. }
  destruct (reader_peek_pending s1 _ _ Hp1') as (s2 & E2 & Hp2 & Hc2).
  destruct (readString_skip_pending s2 token rest) as (s3 & E3 & Hp3 & Hc3).
  { rewrite Hp2. unfold quoted, str1. cbn [append]. now rewrite append_assoc. }
  assert (Hrun : exists d,
             readDouble stringToDouble s = (Ok d, s3) /\
             PrimFloat.classify d = PrimFloat.classify num).
  { unfold readDouble.
    rewrite (bind_ok _ _ _ _ _ E1), (bind_ok _ _ _ _ _ E2), Ascii.eqb_refl.
    rewrite (bind_ok _ _ _ _ _ E3).
    unfold token, fpclassify in *.
    destruct (PrimFloat.classify num) eqn:Hclass;
      try (destruct Hspecial; discriminate);
      eexists; (split; [reflexivity|]); reflexivity. }
  destruct Hrun as (d & E & Hclass).
  exists d. unfold outcome, final. rewrite E. cbn [fst snd].
  repeat match goal with |- _ /\ _ => split end; trivial.
  congruence.
Qed.

(** X20.  A finite double comes back as the parser of the library reads the text
    its formatter gave at precision 17, between quotes or not as the
    position asks, when that text is not empty and made of the bytes
    [readNumericChars] takes, and a byte it does not take follows; when the
    parser refuses the text, [INVALID_DATA] is raised. *)
Theorem finite_double_roundtrip (num : PrimFloat.float)
        (k : context_class) (n : nat) (c : ascii) (rest : string) :
  fpclassify num <> FP_INFINITE -> fpclassify num <> FP_NAN ->
  (size (ostream_double 17 num) <= UINT32_MAX)%N ->
  string_forall isJSONNumeric (ostream_double 17 num) = true ->
  ostream_double 17 num <> "" ->
  isJSONNumeric c = false ->
  let wire := trans_ (final (writeDouble ostream_double num)
                            (mkIO (context_at k n new_reader) "")) in
  let s := mkIO (context_at k n new_reader) (wire ++ String c rest) in
  outcome (readDouble stringToDouble) s
  = match stringToDouble (ostream_double 17 num) with
    | Some d => Ok d
    | None => Err INVALID_DATA
    end /\
  pending (final (readDouble stringToDouble) s) = String c rest.
Proof.
  intros Hinf Hnan Hshort Hnum Hne0 Hc wire s.
  set (text := ostream_double 17 num) in *.
  assert (Hw : wire = separator k n
                      ++ (if quotes_numbers k n then quoted text else text)).
  { unfold wire, final.
    rewrite (writeDouble_at num k n new_reader "" (fun _ _ => Hshort)).
    cbn [snd trans_ append]. fold text. unfold fpclassify in Hinf, Hnan.
    destruct (PrimFloat.classify num); congruence. }
  subst s. rewrite Hw, append_assoc. clear wire Hw.
  set (s := mkIO _ _).
  destruct (readNext_pending k n s _ (control_context_at k n new_reader _)
              (pending_context_at k n _)) as (s1 & E1 & Hp1 & Hc1).
  destruct (numeric_text_plain text Hnum) as [Hesc Hnul].
  destruct (numeric_text_not_token text Hnum) as (Hn1 & Hn2 & Hn3).
  pose proof (escapeNum_control k n s1 Hc1) as Hesc1.
  destruct (quotes_numbers k n) eqn:Hq.
  - (* between quotes *)
    assert (Hp1' : pending s1
                   = String kJSONStringDelimiter
                       (text ++ String kJSONStringDelimiter (String c rest))).
    { rewrite Hp1. unfold quoted, str1. cbn [append].
      now rewrite append_assoc. }
    destruct (reader_peek_pending s1 _ _ Hp1') as (s2 & E2 & Hp2 & Hc2).
    destruct (readString_skip_pending s2 text (String c rest))
      as (s3 & E3 & Hp3 & Hc3).
    { rewrite Hp2, Hesc. unfold quoted, str1. cbn [append].
      now rewrite append_assoc. }
    rewrite Hnul in E3.
    assert (Hesc3 : escapeNum (this s3) = true).
    { rewrite <- Hesc1. unfold escapeNum.
      unfold control in Hc2, Hc3. rewrite Hc2 in Hc3.
      injection Hc3 as -> _ ->. reflexivity. }
    assert (E : readDouble stringToDouble s
                = (match stringToDouble text with
                   | Some d => Ok d
                   | None => Err INVALID_DATA
                   end, s3)).
    { unfold readDouble.
      rewrite (bind_ok _ _ _ _ _ E1), (bind_ok _ _ _ _ _ E2), Ascii.eqb_refl.
      rewrite (bind_ok _ _ _ _ _ E3), Hn1, Hn2, Hn3.
      unfold bind at 1. cbn [get]. rewrite Hesc3. cbn [negb].
      now destruct (stringToDouble text). }
    unfold outcome, final. rewrite E. now split.
  - (* a bare number *)
    assert (Hhead : exists c0 t0, pending s1 = String c0 t0 /\
                                  c0 <> kJSONStringDelimiter).
    { rewrite Hp1. destruct text as [|c0 t0].
      - now elim Hne0.
      - exists c0, (t0 ++ String c rest). split; [reflexivity|].
        intros ->. discriminate Hnum. }
    destruct Hhead as (c0 & t0 & Hp0 & Hne).
    destruct (reader_peek_pending s1 _ _ Hp0) as (s2 & E2 & Hp2 & Hc2).
    apply Ascii.eqb_neq in Hne.
    assert (Hesc2 : escapeNum (this s2) = false).
    { rewrite <- Hesc1. unfold escapeNum. unfold control in Hc2.
      injection Hc2 as -> _ ->. reflexivity. }
    destruct (readNumericChars_pending text s2 c rest Hnum Hc)
      as (s3 & E3 & Hp3 & Hc3).
    { now rewrite Hp2, <- Hp0. }
    assert (E : readDouble stringToDouble s
                = (match stringToDouble text with
                   | Some d => Ok d
                   | None => Err INVALID_DATA
                   end, s3)).
    { unfold readDouble.
      rewrite (bind_ok _ _ _ _ _ E1), (bind_ok _ _ _ _ _ E2), Hne.
      unfold bind at 1. cbn [get]. rewrite Hesc2. rewrite bind_ret.
      rewrite (bind_ok _ _ _ _ _ E3).
      now destruct (stringToDouble text). }
    unfold outcome, final. rewrite E. now split.
Qed.

(** X21.  [readDouble] insists on the quoting of its position: a string that is
    none of the three tokens is refused where numbers are not quoted,
    before the parser sees it, and a bare number is refused where they
    are. *)
Theorem readDouble_quoting_mismatch (k : context_class) (n : nat)
        (s : context_io) :
  control s = control_at k n ->
  (forall (str rest : string),
      quotes_numbers k n = false ->
      ~ In (remove_nul str)
           [kThriftNan; kThriftInfinity; kThriftNegativeInfinity] ->
      pending s = separator k n ++ quoted (json_escape str) ++ rest ->
      outcome (readDouble stringToDouble) s = Err INVALID_DATA) /\
  (forall (c : ascii) (rest : string),
      quotes_numbers k n = true ->
      c <> kJSONStringDelimiter ->
      pending s = separator k n ++ String c rest ->
      outcome (readDouble stringToDouble) s = Err INVALID_DATA).
Proof.
  intros Hctl. split.
  - intros str rest Hq Htok Hp.
    destruct (readNext_pending k n s _ Hctl Hp) as (s1 & E1 & Hp1 & Hc1).
    assert (Hp1' : pending s1
                   = String kJSONStringDelimiter
                       (json_escape str ++ String kJSONStringDelimiter rest)).
    { rewrite Hp1. unfold quoted, str1. cbn [append].
      now rewrite append_assoc. }
    destruct (reader_peek_pending s1 _ _ Hp1') as (s2 & E2 & Hp2 & Hc2).
    destruct (readString_skip_pending s2 str rest) as (s3 & E3 & Hp3 & Hc3).
    { rewrite Hp2. unfold quoted, str1. cbn [append].
      now rewrite append_assoc. }
    assert (Hesc3 : escapeNum (this s3) = false).
    { rewrite <- Hq, <- (escapeNum_control k n s1 Hc1). unfold escapeNum.
      unfold control in Hc2, Hc3. rewrite Hc2 in Hc3.
      injection Hc3 as -> _ ->. reflexivity. }
    unfold outcome, readDouble.
    rewrite (bind_ok _ _ _ _ _ E1), (bind_ok _ _ _ _ _ E2), Ascii.eqb_refl.
    rewrite (bind_ok _ _ _ _ _ E3).
    cbn [In] in Htok.
    destruct (String.eqb_spec (remove_nul str) kThriftNan) as [e|_];
      [symmetry in e; tauto|].
    destruct (String.eqb_spec (remove_nul str) kThriftInfinity) as [e|_];
      [symmetry in e; tauto|].
    destruct (String.eqb_spec (remove_nul str) kThriftNegativeInfinity)
      as [e|_]; [symmetry in e; tauto|].
    unfold bind at 1. cbn [get]. now rewrite Hesc3.
  - intros c rest Hq Hne Hp.
    destruct (readNext_pending k n s _ Hctl Hp) as (s1 & E1 & Hp1 & Hc1).
    destruct (reader_peek_pending s1 _ _ Hp1) as (s2 & E2 & Hp2 & Hc2).
    assert (Hesc2 : escapeNum (this s2) = true).
    { rewrite <- Hq, <- (escapeNum_control k n s1 Hc1). unfold escapeNum.
      unfold control in Hc2. injection Hc2 as -> _ ->. reflexivity. }
    pose proof (readSyntaxChar_mismatch kJSONStringDelimiter c s2 rest Hp2 Hne)
      as Hbad.
    unfold outcome, readDouble.
    rewrite (bind_ok _ _ _ _ _ E1), (bind_ok _ _ _ _ _ E2).
    apply Ascii.eqb_neq in Hne. rewrite Hne.
    unfold bind at 1. cbn [get]. rewrite Hesc2.
    unfold outcome in Hbad. unfold bind.
    destruct (readSyntaxChar kJSONStringDelimiter s2) as [[u|e] s3];
      cbn in Hbad |- *; [discriminate Hbad | now injection Hbad as ->].
Qed.

End DoubleRoundTrip.

Lemma special_double_roundtrip_witness :
  let fmt := fun (_ : Z) (_ : PrimFloat.float) => "0" in
  let parse := fun _ : string => @None PrimFloat.float in
  let wire := trans_ (final (writeDouble fmt PrimFloat.neg_infinity)
                            (mkIO (context_at JSONListContext 1 new_reader)
                                  "")) in
  let s := mkIO (context_at JSONListContext 1 new_reader) (wire ++ "]") in
  exists d,
    outcome (readDouble parse) s = Ok d /\
    PrimFloat.classify d = FloatClass.NInf /\
    pending (final (readDouble parse) s) = "]" /\
    control (final (readDouble parse) s) = control_at JSONListContext 2.
Proof.
  apply (special_double_roundtrip (fun _ _ => "0") (fun _ => None)
           PrimFloat.neg_infinity JSONListContext 1 "]").
  left. reflexivity.
Defined.

Lemma finite_double_roundtrip_witness :
  let fmt := fun (_ : Z) (_ : PrimFloat.float) => "1" in
  let parse := fun s : string =>
                 if String.eqb s "1" then Some PrimFloat.one else None in
  let wire := trans_ (final (writeDouble fmt PrimFloat.one)
                            (mkIO (context_at JSONPairContext 0 new_reader)
                                  "")) in
  let s := mkIO (context_at JSONPairContext 0 new_reader) (wire ++ ":2}") in
  wire = quoted "1" /\
  outcome (readDouble parse) s = Ok PrimFloat.one /\
  pending (final (readDouble parse) s) = ":2}".
Proof.
  split; [reflexivity|].
  apply (finite_double_roundtrip
           (fun _ _ => "1")
           (fun s => if String.eqb s "1" then Some PrimFloat.one else None)
           PrimFloat.one JSONPairContext 0 ":" "2}").
  - vm_compute. discriminate.
  - vm_compute. discriminate.
  - vm_compute. discriminate.
  - reflexivity.
  - discriminate.
  - reflexivity.
Defined.

Lemma readDouble_quoting_mismatch_witness :
  let parse := fun _ : string => Some PrimFloat.one in
  outcome (readDouble parse)
          (mkIO (context_at JSONListContext 0 new_reader)
                (quoted "1.5" ++ "]"))
  = Err INVALID_DATA /\
  outcome (readDouble parse)
          (mkIO (context_at JSONPairContext 0 new_reader) "1.5:2}")
  = Err INVALID_DATA.
Proof.
  split.
  - apply (proj1 (readDouble_quoting_mismatch (fun _ => Some PrimFloat.one)
                    JSONListContext 0
                    (mkIO (context_at JSONListContext 0 new_reader)
                          (quoted "1.5" ++ "]"))
                    eq_refl) "1.5" "]").
    + reflexivity.
    + cbn. intros [H|[H|[H|H]]]; try discriminate H; exact H.
    + reflexivity.
  - apply (proj2 (readDouble_quoting_mismatch (fun _ => Some PrimFloat.one)
                    JSONPairContext 0
                    (mkIO (context_at JSONPairContext 0 new_reader) "1.5:2}")
                    eq_refl) "1"%char ".5:2}").
    + reflexivity.
    + discriminate.
    + reflexivity.
Defined.

(** ** The JSON-RPC protocol: what is written *)

Module RPCWire.
Import TJSONRPCProtocol.

Lemma bind_modify {S B : Type} (f : S -> S) (k : unit -> M S B) (s : S) :
  bind (modify f) k s = k tt (f s).
Proof. reflexivity. Qed.

Lemma bind_get {S B : Type} (k : S -> M S B) (s : S) :
  bind get k s = k s s.
Proof. reflexivity. Qed.

Lemma contexts_transport {A : Type} (m : M channel A) msg f buf b st bc
      (v : A) (ch' : channel) :
  m (mkChannel st b) = (Ok v, ch') ->
  contexts m (mkState RW_TRANSPORT msg f buf b st bc)
  = (Ok v, mkState RW_TRANSPORT msg f buf (bytes_ ch') (stack_ ch') bc).
Proof.
  intros E. unfold contexts, zoom. cbn [mode_ transport_contexts_ ptrans_].
  now rewrite E.
Qed.

Lemma rpc_pushWrite (c : TJSONContext) msg f buf b k n r cs bc :
  contexts (pushWrite c)
    (mkState RW_TRANSPORT msg f buf b (mkStack (context_at k n r) cs) bc)
  = (Ok tt,
     mkState RW_TRANSPORT msg f buf
             (b ++ separator k n ++ str1 (opener (class_ c)))
             (mkStack c (context_at k (S n) r :: cs)) bc).
Proof. now rewrite (contexts_transport _ _ _ _ _ _ _ _ _ (pushWrite_run _ _ _ _ _ _)). Qed.

Lemma rpc_popWrite msg f buf b c p cs bc :
  contexts popWrite (mkState RW_TRANSPORT msg f buf b (mkStack c (p :: cs)) bc)
  = (Ok tt,
     mkState RW_TRANSPORT msg f buf (b ++ str1 (closer (class_ c)))
             (mkStack p cs) bc).
Proof. now rewrite (contexts_transport _ _ _ _ _ _ _ _ _ (popWrite_run _ _ _ _)). Qed.

Lemma rpc_emit_all (es : list emission) msg f buf b k n r cs bc :
  context (emit_all es)
    (mkState RW_TRANSPORT msg f buf b (mkStack (context_at k n r) cs) bc)
  = (Ok tt,
     mkState RW_TRANSPORT msg f buf (b ++ emissions_text k n es)
             (mkStack (context_at k (n + List.length es) r) cs) bc).
Proof.
  unfold context.
  now rewrite (contexts_transport _ _ _ _ _ _ _ _ _
                 (on_top_emit_all _ _ _ _ _ _)).
Qed.

Lemma rpc_writeString (str : string) msg f buf b k n r cs bc :
  writeString str
    (mkState RW_TRANSPORT msg f buf b (mkStack (context_at k n r) cs) bc)
  = (Ok tt,
     mkState RW_TRANSPORT msg f buf (b ++ emission_text k n (Text str))
             (mkStack (context_at k (S n) r) cs) bc).
Proof.
  unfold writeString, context.
  now rewrite (contexts_transport _ _ _ _ _ _ _ _ _
                 (on_top_writeString _ _ _ _ _ _)).
Qed.

Lemma rpc_writeI32 (num : Z) msg f buf b k n r cs bc :
  writeI32 num
    (mkState RW_TRANSPORT msg f buf b (mkStack (context_at k n r) cs) bc)
  = (Ok tt,
     mkState RW_TRANSPORT msg f buf (b ++ emission_text k n (Number num))
             (mkStack (context_at k (S n) r) cs) bc).
Proof.
  unfold writeI32, context.
  now rewrite (contexts_transport _ _ _ _ _ _ _ _ _
                 (on_top_writeInteger _ _ _ _ _ _)).
Qed.

(** The steps of a writer on an explicit state. *)
Ltac rpc_step :=
  first
    [ rewrite bind_assoc
    | rewrite bind_modify
    | rewrite bind_get
    | rewrite bind_ret
    | rewrite (bind_ok _ _ _ _ _ (rpc_writeString _ _ _ _ _ _ _ _ _ _))
    | rewrite (bind_ok _ _ _ _ _ (rpc_writeI32 _ _ _ _ _ _ _ _ _ _))
    | rewrite (bind_ok _ _ _ _ _ (rpc_emit_all _ _ _ _ _ _ _ _ _ _))
    | rewrite (bind_ok _ _ _ _ _ (rpc_pushWrite _ _ _ _ _ _ _ _ _ _))
    | rewrite (bind_ok _ _ _ _ _ (rpc_popWrite _ _ _ _ _ _ _ _)) ];
  cbn [mode_ message_ flags_ buffer_ ptrans_ transport_contexts_
       buffer_contexts_ method id error_code error_message];
  repeat match goal with
         | |- context [N.eqb ?a ?b] =>
             let v := eval vm_compute in (N.eqb a b) in
             change (N.eqb a b) with v
         end;
  cbn [orb].

Lemma rpc_send_run (name : string) (mt : TMessageType) (seqid : Z)
      (es : list emission) (w : string) :
  In mt [T_CALL; T_REPLY; T_EXCEPTION; T_ONEWAY] ->
  exists msg,
    rpc_send name mt seqid es (init w)
    = (Ok tt,
       mkState RW_TRANSPORT msg JSONRPC_UNSET ""
               (w ++ rpc_envelope name mt seqid (struct_text es))
               new_TJSONContextStack new_TJSONContextStack).
Proof.
  intros Hmt. unfold rpc_send, init.
  change new_TJSONContextStack
    with (mkStack (context_at JSONContext 0 new_reader) []) at 1.
  unfold writeMessageBegin, writeMessageEnd, writeStructBegin, writeStructEnd,
    set_mode, resetBuffer, set_flags, set_method, set_id, set_error_code,
    set_error_message, set_message, set_buffer.
  change new_TJSONPairContext with (context_at JSONPairContext 0 new_reader).
  cbn in Hmt.
  destruct Hmt as [<-|[<-|[<-|[<-|[]]]]]; eexists;
    repeat rpc_step.
  all: unfold rpc_envelope, struct_text, emission_text, quoted, str1,
         kJSONRPCVersion, kJSONRPCMethod, kJSONRPCParams, kJSONRPCId,
         kJSONRPCResult, kJSONRPCError, kJSONRPCCode, kJSONRPCMessage,
         kJSONRPCData;
       change (lexical_cast_string (-32000)) with "-32000";
       generalize (json_escape name) (lexical_cast_string seqid)
                  (emissions_text JSONPairContext 0 es);
       intros A B C; unfold modify; cbn;
       repeat (rewrite !append_assoc; cbn [append]);
       reflexivity.
Qed.

(** X22.  A message of each of the four named types, with a struct of numbers
    and strings for body, written by a fresh protocol after whatever the
    transport holds, is the JSON-RPC 2.0 object of its type: a request with
    [method], [params] and [id] for a call, the same without [id] for a
    oneway call, [result] and [id] for a reply, and for an exception [error]
    with the code -32000, the message [Thrift exception] and the struct as
    [data], then [id].  Afterwards the flags and the buffer are reset and
    the stack of the transport is at its bottom. *)
Theorem rpc_send_wire (name : string) (mt : TMessageType) (seqid : Z)
        (es : list emission) (w : string) :
  In mt [T_CALL; T_REPLY; T_EXCEPTION; T_ONEWAY] ->
  let s := final (rpc_send name mt seqid es) (init w) in
  outcome (rpc_send name mt seqid es) (init w) = Ok tt /\
  ptrans_ s = w ++ rpc_envelope name mt seqid (struct_text es) /\
  flags_ s = JSONRPC_UNSET /\
  buffer_ s = "" /\
  mode_ s = RW_TRANSPORT /\
  transport_contexts_ s = new_TJSONContextStack.
Proof.
  intros Hmt s. destruct (rpc_send_run name mt seqid es w Hmt) as [msg E].
  unfold s, outcome, final. rewrite E. cbn. repeat split.
Qed.

Lemma rpc_send_wire_witness :
  let s := final (rpc_send "voidMethod" T_EXCEPTION 999
                           [Number 1; Text "Exception"])
                 (init "") in
  ptrans_ s
  = "{" ++ quoted "jsonrpc" ++ ":" ++ quoted "2.0" ++ ","
        ++ quoted "error" ++ ":{" ++ quoted "code" ++ ":-32000,"
        ++ quoted "message" ++ ":" ++ quoted "Thrift exception" ++ ","
        ++ quoted "data" ++ ":{" ++ quoted "1" ++ ":" ++ quoted "Exception"
        ++ "}}," ++ quoted "id" ++ ":999}" /\
  flags_ s = JSONRPC_UNSET.
Proof.
  pose proof (rpc_send_wire "voidMethod" T_EXCEPTION 999
                [Number 1; Text "Exception"] ""
                ltac:(cbn; tauto)) as H.
  cbv zeta in H. destruct H as (_ & Hw & Hf & _).
  exact (conj Hw Hf).
Defined.

End RPCWire.

(** ** The JSON-RPC protocol: what is read *)

Module RPCRead.
Import TJSONRPCProtocol.

Lemma context_run {A : Type} (m : M context_io A) msg f buf io cs bc
      (v : A) (io' : context_io) :
  m io = (Ok v, io') ->
  context m (rpc_state msg f buf io cs bc)
  = (Ok v, rpc_state msg f buf io' cs bc).
Proof.
  intros E. destruct io as [c t].
  unfold context, contexts, zoom, on_top, zoom, rpc_state.
  cbn [mode_ transport_contexts_ ptrans_ stack_ bytes_ context_ contexts_
       this trans_].
  now rewrite E.
Qed.

Lemma context_err {A : Type} (m : M context_io A) msg f buf io cs bc
      (e : error) (io' : context_io) :
  m io = (Err e, io') ->
  context m (rpc_state msg f buf io cs bc)
  = (Err e, rpc_state msg f buf io' cs bc).
Proof.
  intros E. destruct io as [c t].
  unfold context, contexts, zoom, on_top, zoom, rpc_state.
  cbn [mode_ transport_contexts_ ptrans_ stack_ bytes_ context_ contexts_
       this trans_].
  now rewrite E.
Qed.

Lemma buffer_write_run (bytes : string) msg f buf io cs bc :
  buffer_write bytes (rpc_state msg f buf io cs bc)
  = (Ok tt, rpc_state msg f (buf ++ bytes) io cs bc).
Proof. reflexivity. Qed.

Lemma or_flags_run (fl : N) msg f buf io cs bc :
  or_flags fl (rpc_state msg f buf io cs bc)
  = (Ok tt, rpc_state msg (N.lor f fl) buf io cs bc).
Proof. reflexivity. Qed.

Lemma set_method_run (v : string) msg f buf io cs bc :
  set_method v (rpc_state msg f buf io cs bc)
  = (Ok tt, rpc_state (mkMessage v (id msg) (error_code msg)
                                 (error_message msg)) f buf io cs bc).
Proof. reflexivity. Qed.

Lemma set_id_run (v : Z) msg f buf io cs bc :
  set_id v (rpc_state msg f buf io cs bc)
  = (Ok tt, rpc_state (mkMessage (method msg) v (error_code msg)
                                 (error_message msg)) f buf io cs bc).
Proof. reflexivity. Qed.

(** *** [readObject] *)

Lemma uint32_inc (d : nat) :
  (N.of_nat d + 1 < 4294967296)%N ->
  ((N.of_nat d + 1) mod 4294967296)%N = N.of_nat (S d).
Proof. intros H. rewrite N.mod_small by exact H. lia. Qed.

Lemma uint32_dec_pred (d : nat) :
  1 <= d -> (N.of_nat d < 4294967296)%N ->
  uint32_dec (N.of_nat d) = N.of_nat (Nat.pred d).
Proof.
  intros Hd Hlt. unfold uint32_dec, UINT32_MAX.
  replace (N.of_nat d + 4294967295)%N
    with (N.of_nat (Nat.pred d) + 1 * 4294967296)%N by lia.
  rewrite N.Div0.mod_add. apply N.mod_small. lia.
Qed.

Lemma readObject_loop_run (text : string) :
  forall (fuel d : nat) msg f buf io cs bc rest,
    1 <= d ->
    closes_at_end d text = true ->
    String.length text <= fuel ->
    (N.of_nat d + N.of_nat (String.length text) < 4294967296)%N ->
    pending io = text ++ rest ->
    exists io',
      readObject_loop fuel (N.of_nat d) (rpc_state msg f buf io cs bc)
      = (Ok tt, rpc_state msg f (buf ++ text) io' cs bc) /\
      pending io' = rest /\ control io' = control io.
Proof.
  induction text as [|c text IH];
    intros fuel d msg f buf io cs bc rest Hd Hclose Hfuel Hwrap Hp;
    [discriminate Hclose|].
  destruct fuel as [|fuel]; [cbn in Hfuel; lia|].
  cbn [String.length] in Hfuel, Hwrap. cbn [append] in Hp.
  destruct (reader_read_pending io c _ Hp) as (io1 & E1 & Hp1 & _ & _ & Hc1).
  cbn [readObject_loop].
  replace (N.of_nat d =? 0)%N with false by (symmetry; apply N.eqb_neq; lia).
  rewrite (bind_ok _ _ _ _ _ (context_run _ _ _ _ _ _ _ _ _ E1)).
  rewrite (bind_ok _ _ _ _ _ (buffer_write_run _ _ _ _ _ _ _)).
  cbn [closes_at_end] in Hclose.
  set (d' := if Ascii.eqb c kJSONObjectStart then S d
             else if Ascii.eqb c kJSONObjectEnd then Nat.pred d else d) in *.
  assert (Hnest :
            (if Ascii.eqb c kJSONObjectEnd
             then uint32_dec (if Ascii.eqb c kJSONObjectStart
                              then ((N.of_nat d + 1) mod 4294967296)%N
                              else N.of_nat d)
             else (if Ascii.eqb c kJSONObjectStart
                   then ((N.of_nat d + 1) mod 4294967296)%N
                   else N.of_nat d))
            = N.of_nat d').
  { unfold d'. destruct (Ascii.eqb_spec c kJSONObjectStart) as [->|Hno].
    - change (Ascii.eqb kJSONObjectStart kJSONObjectEnd) with false.
      cbv iota. apply uint32_inc. lia.
    - destruct (Ascii.eqb c kJSONObjectEnd); [|reflexivity].
      apply uint32_dec_pred; lia. }
  rewrite Hnest.
  assert (Hd' : d' <= S d).
  { unfold d'. destruct (Ascii.eqb c kJSONObjectStart); [lia|].
    destruct (Ascii.eqb c kJSONObjectEnd); lia. }
  destruct d' as [|d''].
  - destruct text; [|discriminate Hclose].
    cbn [append] in Hp1. exists io1.
    destruct fuel; cbn [readObject_loop N.of_nat N.eqb]; unfold ret;
      unfold str1; repeat split; trivial.
  - destruct (IH fuel (S d'') msg f (buf ++ str1 c) io1 cs bc rest)
      as (io' & E & Hp' & Hc'); try assumption; try lia.
    exists io'. rewrite E. unfold str1. rewrite append_assoc. cbn [append].
    repeat split; [exact Hp' | congruence].
Qed.

Lemma pending_trans_length (io : context_io) :
  String.length (pending io) <= S (String.length (trans_ io)).
Proof. apply pending_length. Qed.

Lemma readObject_run (object : string) (k : context_class) (n : nat)
      msg f buf io cs bc rest :
  whole_object object ->
  control io = control_at k n ->
  pending io = separator k n ++ object ++ rest ->
  exists io',
    readObject (rpc_state msg f buf io cs bc)
    = (Ok tt, rpc_state msg f (buf ++ object) io' cs bc) /\
    pending io' = rest /\ control io' = control_at k (S n).
Proof.
  intros Hobj Hctl Hp.
  destruct object as [|c text]; [contradiction|].
  destruct Hobj as (-> & Hclose & Hlen).
  destruct (readNext_pending k n io _ Hctl Hp) as (io1 & E1 & Hp1 & Hc1).
  cbn [append] in Hp1.
  destruct (readSyntaxChar_pending _ io1 _ Hp1) as (io2 & E2 & Hp2 & Ht2 & _ & Hc2).
  unfold readObject.
  rewrite (bind_ok _ _ _ _ _ (context_run _ _ _ _ _ _ _ _ _ E1)).
  rewrite (bind_ok _ _ _ _ _ (context_run _ _ _ _ _ _ _ _ _ E2)).
  rewrite (bind_ok _ _ _ _ _ (buffer_write_run _ _ _ _ _ _ _)).
  unfold bind at 1. cbn [get].
  destruct (readObject_loop_run text
              (wire_fuel (rpc_state msg f (buf ++ str1 kJSONObjectStart)
                                    io2 cs bc))
              1 msg f (buf ++ str1 kJSONObjectStart) io2 cs bc rest)
    as (io' & E & Hp' & Hc'); trivial.
  - unfold wire_fuel, rpc_state. cbn [ptrans_ buffer_]. rewrite Ht2.
    rewrite length_append. lia.
  - unfold UINT32_MAX in Hlen. lia.
  - exists io'. change (N.of_nat 1) with 1%N in E. rewrite E.
    unfold str1. rewrite append_assoc. cbn [append].
    repeat split; [exact Hp' | congruence].
Qed.

(** *** The members of the envelope *)

Ltac eval_eqb :=
  repeat match goal with
         | |- context [String.eqb ?a ?b] =>
             let v := eval vm_compute in (String.eqb a b) in
             change (String.eqb a b) with v
         end;
  cbv iota.

Lemma key_text (n : nat) (name : string) :
  Nat.even n = true ->
  exists c t, emission_text JSONPairContext n (Text name) = String c t /\
              c <> kJSONObjectEnd.
Proof.
  intros Heven. unfold emission_text.
  destruct n as [|j].
  - eexists _, _. split; [reflexivity | discriminate].
  - unfold separator, pair_separator. destruct (Nat.odd (S j));
      eexists _, _; (split; [reflexivity | discriminate]).
Qed.

Lemma member_text_head (n : nat) (m : member) (t : string) :
  Nat.even n = true ->
  exists c t', member_text n m ++ t = String c t' /\ c <> kJSONObjectEnd.
Proof.
  intros Heven.
  assert (H : exists key tail,
             member_text n m = emission_text JSONPairContext n (Text key)
                               ++ tail).
  { destruct m; eexists _, _; reflexivity. }
  destruct H as (key & tail & ->).
  destruct (key_text n key Heven) as (c & t' & -> & Hc).
  eexists _, _. split; [reflexivity | exact Hc].
Qed.

Lemma member_run (m : member) (n fuel : nat) msg f buf io cs bc
      (c : ascii) (rest : string) :
  member_ok m ->
  isJSONNumeric c = false ->
  control io = control_at JSONPairContext n ->
  pending io = member_text n m ++ String c rest ->
  exists io',
    readJSONRPCField (S fuel) (rpc_state msg f buf io cs bc)
    = (Ok tt,
       let '(msg', f', buf') := scan_member m (msg, f, buf) in
       rpc_state msg' f' buf' io' cs bc) /\
    pending io' = String c rest /\
    control io' = control_at JSONPairContext (S (S n)).
Proof.
  intros Hok Hc Hctl Hp.
  destruct m as [|name|seqid|object|object]; cbn [member_text] in Hp;
    rewrite append_assoc in Hp;
    (destruct (readString_pending JSONPairContext n io _ _ Hctl Hp)
      as (io1 & E1 & Hp1 & Hc1));
    cbn [readJSONRPCField]; unfold readString at 1;
    rewrite (bind_ok _ _ _ _ _ (context_run _ _ _ _ _ _ _ _ _ E1));
    eval_eqb.
  - (* jsonrpc *)
    destruct (readString_pending JSONPairContext (S n) io1 _ _ Hc1 Hp1)
      as (io2 & E2 & Hp2 & Hc2).
    unfold readString at 1.
    rewrite (bind_ok _ _ _ _ _ (context_run _ _ _ _ _ _ _ _ _ E2)).
    eval_eqb. cbn [negb]. exists io2. split; [apply or_flags_run|].
    now split.
  - (* method *)
    destruct (readString_pending JSONPairContext (S n) io1 _ _ Hc1 Hp1)
      as (io2 & E2 & Hp2 & Hc2).
    unfold readString at 1.
    rewrite (bind_ok _ _ _ _ _ (context_run _ _ _ _ _ _ _ _ _ E2)).
    rewrite (bind_ok _ _ _ _ _ (set_method_run _ _ _ _ _ _ _)).
    exists io2. split; [apply or_flags_run|]. now split.
  - (* id *)
    destruct (readInteger_pending (lexical_cast_signed 32) JSONPairContext
                (S n) io1 seqid seqid c rest Hc1 Hp1 Hc)
      as (io2 & E2 & Hp2 & Hc2).
    { apply lexical_cast_signed_string; [lia | exact Hok]. }
    unfold readI32 at 1.
    rewrite (bind_ok _ _ _ _ _ (context_run _ _ _ _ _ _ _ _ _ E2)).
    rewrite (bind_ok _ _ _ _ _ (set_id_run _ _ _ _ _ _ _)).
    exists io2. split; [apply or_flags_run|]. now split.
  - (* params *)
    rewrite append_assoc in Hp1.
    destruct (readObject_run object JSONPairContext (S n) msg f buf io1 cs bc
                (String c rest) Hok Hc1 Hp1) as (io2 & E2 & Hp2 & Hc2).
    rewrite (bind_ok _ _ _ _ _ E2).
    exists io2. split; [apply or_flags_run|]. now split.
  - (* result *)
    rewrite append_assoc in Hp1.
    destruct (readObject_run object JSONPairContext (S n) msg f buf io1 cs bc
                (String c rest) Hok Hc1 Hp1) as (io2 & E2 & Hp2 & Hc2).
    rewrite (bind_ok _ _ _ _ _ E2).
    exists io2. split; [apply or_flags_run|]. now split.
Qed.

Lemma members_text_next (n : nat) (ms : list member) (rest : string) :
  Nat.even n = true ->
  exists c t, members_text n ms ++ String kJSONObjectEnd rest = String c t /\
              isJSONNumeric c = false.
Proof.
  intros Heven. destruct ms as [|m ms].
  - eexists _, _. split; reflexivity.
  - cbn [members_text]. rewrite append_assoc.
    assert (H : exists key tail,
               member_text n m = emission_text JSONPairContext n (Text key)
                                 ++ tail).
    { destruct m; eexists _, _; reflexivity. }
    destruct H as (key & tail & ->). unfold emission_text.
    destruct n as [|j].
    + eexists _, _. split; reflexivity.
    + unfold separator, pair_separator. destruct (Nat.odd (S j));
        eexists _, _; split; reflexivity.
Qed.

Lemma readMessageBegin_fields_run (ms : list member) :
  forall (n fuel : nat) msg f buf io cs bc rest,
    Forall member_ok ms ->
    Nat.even n = true ->
    List.length ms < fuel ->
    control io = control_at JSONPairContext n ->
    pending io = members_text n ms ++ String kJSONObjectEnd rest ->
    exists io',
      readMessageBegin_fields fuel (rpc_state msg f buf io cs bc)
      = (Ok tt,
         let '(msg', f', buf') := scan_members ms (msg, f, buf) in
         rpc_state msg' f' buf' io' cs bc) /\
      pending io' = String kJSONObjectEnd rest /\
      class_ (this io') = JSONPairContext.
Proof.
  induction ms as [|m ms IH];
    intros n fuel msg f buf io cs bc rest Hok Heven Hfuel Hctl Hp;
    (destruct fuel as [|fuel]; [cbn in Hfuel; lia|]);
    cbn [readMessageBegin_fields].
  - cbn [members_text append] in Hp.
    destruct (reader_peek_pending io _ _ Hp) as (io1 & E1 & Hp1 & Hc1).
    rewrite (bind_ok _ _ _ _ _ (context_run _ _ _ _ _ _ _ _ _ E1)).
    rewrite Ascii.eqb_refl. exists io1. split; [reflexivity|].
    split; [exact Hp1|].
    rewrite Hctl in Hc1. apply (control_class _ _ _ Hc1).
  - inversion Hok as [|m' ms' Hm Hms]; subst.
    cbn [members_text] in Hp. rewrite append_assoc in Hp.
    destruct (member_text_head n m
                (members_text (S (S n)) ms ++ String kJSONObjectEnd rest)
                Heven) as (c0 & t0 & Eh & Hne).
    assert (Hp0 : pending io = String c0 t0) by congruence.
    destruct (reader_peek_pending io _ _ Hp0) as (io1 & E1 & Hp1 & Hc1).
    rewrite (bind_ok _ _ _ _ _ (context_run _ _ _ _ _ _ _ _ _ E1)).
    apply Ascii.eqb_neq in Hne. rewrite Hne.
    unfold bind at 1. cbn [get]. unfold wire_fuel at 1.
    destruct (members_text_next (S (S n)) ms rest) as (c & t & Et & Hc).
    { now rewrite !Nat.even_succ_succ. }
    rewrite Et in Hp.
    match goal with
    | |- context [readJSONRPCField (S ?fu)] =>
        destruct (member_run m n fu msg f buf io1 cs bc c t Hm Hc)
          as (io2 & E2 & Hp2 & Hc2); [congruence | congruence |]
    end.
    rewrite (bind_ok _ _ _ _ _ E2).
    destruct (scan_member m (msg, f, buf)) as [[msg1 f1] buf1] eqn:Escan.
    destruct (IH (S (S n)) fuel msg1 f1 buf1 io2 cs bc rest Hms)
      as (io' & E & Hp' & Hc').
    { now rewrite !Nat.even_succ_succ. }
    { cbn in Hfuel. lia. }
    { exact Hc2. }
    { now rewrite Hp2, <- Et. }
    exists io'. rewrite E. cbn [scan_members fold_left]. rewrite Escan.
    now repeat split.
Qed.

Lemma members_text_length (ms : list member) :
  forall n, List.length ms <= String.length (members_text n ms).
Proof.
  induction ms as [|m ms IH]; intros n; [cbn; lia|].
  cbn [members_text List.length]. rewrite length_append.
  specialize (IH (S (S n))).
  assert (1 <= String.length (member_text n m)).
  { destruct m; cbn [member_text]; unfold emission_text, quoted;
      rewrite !length_append; cbn [String.length]; lia. }
  lia.
Qed.

Lemma readMessageBegin_scan_run (ms : list member) (rest : string) :
  Forall member_ok ms ->
  readMessageBegin_scan (init (envelope_of ms ++ rest))
  = (Ok tt,
     let '(msg, f, buf) :=
       scan_members ms (mkMessage "" 0 0 "", JSONRPC_UNSET, "") in
     mkState RW_TRANSPORT msg f buf rest new_TJSONContextStack
             new_TJSONContextStack).
Proof.
  intros Hok. unfold readMessageBegin_scan, envelope_of, init,
                resetBuffer, set_buffer, set_mode, set_flags.
  rewrite !RPCWire.bind_modify.
  cbn [mode_ message_ flags_ buffer_ ptrans_ transport_contexts_
       buffer_contexts_ append].
  rewrite append_assoc. cbn [append].
  set (text := members_text 0 ms ++ String "}" rest).
  assert (Ebegin :
            readStructBegin
              (mkState RW_TRANSPORT (mkMessage "" 0 0 "") JSONRPC_UNSET ""
                       (String "{" text) new_TJSONContextStack
                       new_TJSONContextStack)
            = (Ok tt,
               rpc_state (mkMessage "" 0 0 "") JSONRPC_UNSET ""
                         (mkIO (context_at JSONPairContext 0
                                           (mkReader false "{")) text)
                         [new_TJSONContext] new_TJSONContextStack))
    by reflexivity.
  rewrite (bind_ok _ _ _ _ _ Ebegin).
  unfold bind at 1. cbn [get].
  destruct (readMessageBegin_fields_run ms 0
              (wire_fuel
                 (rpc_state (mkMessage "" 0 0 "") JSONRPC_UNSET ""
                            (mkIO (context_at JSONPairContext 0
                                              (mkReader false "{")) text)
                            [new_TJSONContext] new_TJSONContextStack))
              (mkMessage "" 0 0 "") JSONRPC_UNSET ""
              (mkIO (context_at JSONPairContext 0 (mkReader false "{")) text)
              [new_TJSONContext] new_TJSONContextStack rest Hok eq_refl)
    as (io' & E & Hp' & Hc').
  { unfold wire_fuel, rpc_state, text. cbn [ptrans_ buffer_ trans_].
    rewrite length_append. pose proof (members_text_length ms 0). lia. }
  { reflexivity. }
  { reflexivity. }
  rewrite (bind_ok _ _ _ _ _ E).
  destruct (scan_members ms (mkMessage "" 0 0 "", JSONRPC_UNSET, ""))
    as [[msg f] buf].
  unfold readStructEnd, rpc_state.
  rewrite (RPCWire.contexts_transport popRead _ _ _ _ _ _ tt
             (mkChannel (mkStack new_TJSONContext []) rest)).
  - reflexivity.
  - apply popRead_top; [reflexivity|].
    unfold top. cbn [stack_ context_ bytes_].
    replace (mkIO (this io') (trans_ io')) with io' by (now destruct io').
    now rewrite Hp', Hc'.
Qed.

(** X23.  [readObject] copies to the buffer the text up to the brace that
    closes the object when braces are counted byte by byte, strings
    included, and leaves what follows: whatever object it is, as long as
    that brace is its last byte. *)
Theorem readObject_captures_whole_object (object : string)
        (k : context_class) (n : nat) msg f buf io cs bc (rest : string) :
  whole_object object ->
  control io = control_at k n ->
  pending io = separator k n ++ object ++ rest ->
  let s := final readObject (rpc_state msg f buf io cs bc) in
  outcome readObject (rpc_state msg f buf io cs bc) = Ok tt /\
  buffer_ s = buf ++ object /\
  pending (mkIO (context_ (transport_contexts_ s)) (ptrans_ s)) = rest /\
  control (mkIO (context_ (transport_contexts_ s)) (ptrans_ s))
  = control_at k (S n) /\
  flags_ s = f /\ message_ s = msg.
Proof.
  intros Hobj Hctl Hp s.
  destruct (readObject_run object k n msg f buf io cs bc rest Hobj Hctl Hp)
    as (io' & E & Hp' & Hc').
  unfold s, outcome, final. rewrite E. unfold rpc_state.
  cbn [fst snd buffer_ transport_contexts_ ptrans_ context_ flags_ message_].
  replace (mkIO (this io') (trans_ io')) with io' by (now destruct io').
  now repeat split.
Qed.

Lemma readObject_captures_whole_object_witness :
  let object := "{" ++ quoted "1" ++ ":{" ++ quoted "i32" ++ ":100}}" in
  let io := mkIO (context_at JSONPairContext 5 new_reader)
                 (":" ++ object ++ ",") in
  let s0 := rpc_state (mkMessage "Janky" 0 0 "") JSONRPC_NOTIFICATION ""
                      io [new_TJSONContext] new_TJSONContextStack in
  outcome readObject s0 = Ok tt /\
  buffer_ (final readObject s0) = object /\
  ptrans_ (final readObject s0) = ",".
Proof.
  pose proof (readObject_captures_whole_object
                ("{" ++ quoted "1" ++ ":{" ++ quoted "i32" ++ ":100}}")
                JSONPairContext 5 (mkMessage "Janky" 0 0 "")
                JSONRPC_NOTIFICATION ""
                (mkIO (context_at JSONPairContext 5 new_reader)
                      (":" ++ ("{" ++ quoted "1" ++ ":{" ++ quoted "i32"
                                   ++ ":100}}") ++ ","))
                [new_TJSONContext] new_TJSONContextStack ","
                ltac:(cbn; repeat split; reflexivity) eq_refl eq_refl) as H.
  cbv zeta in H. destruct H as (Hout & Hbuf & _).
  exact (conj Hout (conj Hbuf eq_refl)).
Defined.

(** X24.  [readMessageBegin] takes the members of the envelope in any order and
    any number, up to the closing brace: the flag of each member is or-ed
    into the flags, the last [method] and the last [id] are kept, and every
    [params] or [result] object is appended to the buffer; the bytes after
    the envelope are left on the transport and the stack is back at its
    bottom. *)
Theorem readMessageBegin_scans_members (ms : list member) (rest : string) :
  Forall member_ok ms ->
  let s0 := init (envelope_of ms ++ rest) in
  let s := final readMessageBegin_scan s0 in
  outcome readMessageBegin_scan s0 = Ok tt /\
  (message_ s, flags_ s, buffer_ s)
  = scan_members ms (mkMessage "" 0 0 "", JSONRPC_UNSET, "") /\
  ptrans_ s = rest /\
  transport_contexts_ s = new_TJSONContextStack /\
  mode_ s = RW_TRANSPORT.
Proof.
  intros Hok s0 s. unfold s, s0, outcome, final.
  rewrite (readMessageBegin_scan_run ms rest Hok).
  destruct (scan_members ms (mkMessage "" 0 0 "", JSONRPC_UNSET, ""))
    as [[msg f] buf].
  cbn. repeat split.
Qed.

Lemma readMessageBegin_scans_members_witness :
  let ms := [Id 7; Method "Janky"; Version] in
  let s := final readMessageBegin_scan (init (envelope_of ms ++ "")) in
  envelope_of ms
  = "{" ++ quoted "id" ++ ":7," ++ quoted "method" ++ ":" ++ quoted "Janky"
        ++ "," ++ quoted "jsonrpc" ++ ":" ++ quoted "2.0" ++ "}" /\
  (message_ s, flags_ s, buffer_ s)
  = (mkMessage "Janky" 7 0 "", JSONRPC_REQUEST, "").
Proof.
  pose proof (readMessageBegin_scans_members
                [Id 7; Method "Janky"; Version] ""
                ltac:(repeat constructor; cbn; lia)) as H.
  cbv zeta in H. destruct H as (_ & Hscan & _).
  exact (conj eq_refl Hscan).
Defined.

Ltac eval_flags :=
  repeat match goal with
         | |- context [N.lor ?a ?b] =>
             let v := eval vm_compute in (N.lor a b) in
             change (N.lor a b) with v
         end;
  repeat match goal with
         | |- context [N.eqb ?a ?b] =>
             let v := eval vm_compute in (N.eqb a b) in
             change (N.eqb a b) with v
         end;
  cbn [orb].

Lemma readMessageBegin_full_request (ms : list member) (name : string)
      (seqid : Z) (object rest : string) :
  Forall member_ok ms ->
  scan_members ms (mkMessage "" 0 0 "", JSONRPC_UNSET, "")
  = (mkMessage (remove_nul name) seqid 0 "", JSONRPC_FULL_REQUEST, object) ->
  readMessageBegin (init (envelope_of ms ++ rest))
  = (Ok (remove_nul name, T_CALL, seqid),
     mkState RW_BUFFERED (mkMessage (remove_nul name) seqid 0 "")
             JSONRPC_FULL_REQUEST object rest new_TJSONContextStack
             new_TJSONContextStack).
Proof.
  intros Hok Hscan. unfold readMessageBegin.
  rewrite (bind_ok _ _ _ _ _ (readMessageBegin_scan_run ms rest Hok)), Hscan.
  reflexivity.
Qed.

Lemma four_in_any_order {A : Type} (a b c d : A) (ms : list A) :
  Permutation ms [a; b; c; d] ->
  exists w x y z,
    ms = [w; x; y; z] /\
    In a [w; x; y; z] /\ In b [w; x; y; z] /\
    In c [w; x; y; z] /\ In d [w; x; y; z].
Proof.
  intros Hperm. pose proof (Permutation_length Hperm) as Hlen.
  destruct ms as [|w [|x [|y [|z [|]]]]]; try discriminate Hlen.
  exists w, x, y, z. split; [reflexivity|].
  apply Permutation_sym in Hperm.
  repeat split; apply (Permutation_in _ Hperm); cbn; tauto.
Qed.

(** X25.  The four members of a request are taken in whatever order they come:
    [readMessageBegin] returns the method without its NUL bytes, the type
    [T_CALL] and the id, holds the [params] object in its buffer and
    switches to the buffer for what is read next. *)
Theorem readMessageBegin_request_in_any_order (ms : list member)
        (name : string) (seqid : Z) (object rest : string) :
  Permutation ms [Version; Method name; Params object; Id seqid] ->
  (- 2 ^ 31 <= seqid < 2 ^ 31)%Z ->
  whole_object object ->
  let s0 := init (envelope_of ms ++ rest) in
  outcome readMessageBegin s0 = Ok (remove_nul name, T_CALL, seqid) /\
  buffer_ (final readMessageBegin s0) = object /\
  mode_ (final readMessageBegin s0) = RW_BUFFERED /\
  ptrans_ (final readMessageBegin s0) = rest.
Proof.
  intros Hperm Hseq Hobj s0.
  assert (Hok : Forall member_ok ms).
  { apply Forall_forall. intros m Hin.
    apply (Permutation_in _ Hperm) in Hin. cbn in Hin.
    destruct Hin as [Hin|[Hin|[Hin|[Hin|[]]]]]; subst m; cbn; trivial. }
  assert (Hscan : scan_members ms (mkMessage "" 0 0 "", JSONRPC_UNSET, "")
                  = (mkMessage (remove_nul name) seqid 0 "",
                     JSONRPC_FULL_REQUEST, object)).
  { destruct (four_in_any_order _ _ _ _ _ Hperm)
      as (w & x & y & z & -> & H1 & H2 & H3 & H4).
    cbn [In] in H1, H2, H3, H4.
    destruct H1 as [H1|[H1|[H1|[H1|[]]]]]; subst;
      destruct H2 as [H2|[H2|[H2|[H2|[]]]]]; try discriminate H2;
      subst;
      destruct H3 as [H3|[H3|[H3|[H3|[]]]]]; try discriminate H3;
      subst;
      destruct H4 as [H4|[H4|[H4|[H4|[]]]]]; try discriminate H4;
      subst; reflexivity. }
  unfold s0, outcome, final.
  rewrite (readMessageBegin_full_request ms name seqid object rest Hok Hscan).
  cbn. repeat split.
Qed.

Lemma readMessageBegin_request_in_any_order_witness :
  let object := "{" ++ quoted "1" ++ ":{" ++ quoted "i32" ++ ":100}}" in
  let ms := [Id 1; Params object; Method "Janky"; Version] in
  let s0 := init (envelope_of ms ++ "") in
  outcome readMessageBegin s0 = Ok ("Janky", T_CALL, 1%Z) /\
  buffer_ (final readMessageBegin s0) = object.
Proof.
  pose proof (readMessageBegin_request_in_any_order
                [Id 1;
                 Params ("{" ++ quoted "1" ++ ":{" ++ quoted "i32" ++ ":100}}");
                 Method "Janky"; Version]
                "Janky" 1
                ("{" ++ quoted "1" ++ ":{" ++ quoted "i32" ++ ":100}}") "")
    as H.
  cbv zeta in H. destruct H as (Hout & Hbuf & _).
  - exact (Permutation_sym
             (Permutation_rev
                [Version; Method "Janky";
                 Params ("{" ++ quoted "1" ++ ":{" ++ quoted "i32" ++ ":100}}");
                 Id 1])).
  - lia.
  - cbn. repeat split; reflexivity.
  - exact (conj Hout Hbuf).
Defined.

(** *** What the writer wrote, read back *)

Lemma closes_flat (text : string) :
  brace_free text = true ->
  closes_at_end 1 (text ++ "}") = true.
Proof.
  induction text as [|c text IH]; [reflexivity|].
  unfold brace_free. cbn [string_forall append closes_at_end].
  intros H. apply andb_prop in H. destruct H as [Hc Ht].
  unfold is_brace in Hc. apply negb_true_iff, orb_false_elim in Hc.
  destruct Hc as [-> ->]. now apply IH.
Qed.

Lemma struct_text_whole (es : list emission) :
  brace_free (emissions_text JSONPairContext 0 es) = true ->
  (N.of_nat (String.length (emissions_text JSONPairContext 0 es)) + 1
   < UINT32_MAX)%N ->
  whole_object (struct_text es).
Proof.
  intros Hfree Hlen. unfold struct_text. cbn [append whole_object].
  split; [reflexivity|]. split; [now apply closes_flat|].
  rewrite length_append. cbn [String.length]. lia.
Qed.

Lemma contexts_bind {A B C : Type} (m : M channel A) (k : A -> M channel B)
      (K : B -> M state C) (s : state) :
  bind (contexts (bind m k)) K s
  = bind (contexts m) (fun x => bind (contexts (k x)) K) s.
Proof.
  unfold contexts, zoom, bind. destruct s as [[] msg f buf b st bc];
    cbn [mode_ transport_contexts_ ptrans_ buffer_contexts_ buffer_];
    destruct (m _) as [[a|e] [st' b']]; reflexivity.
Qed.

Lemma contexts_ret {A C : Type} (v : A) (K : A -> M state C) (s : state) :
  bind (contexts (ret v)) K s = K v s.
Proof.
  unfold contexts, zoom, ret, bind. now destruct s as [[] msg f buf b st bc].
Qed.

Lemma bind_ext {S A B : Type} (m : M S A) (F G : A -> M S B) (s : S) :
  (forall a s', F a s' = G a s') -> bind m F s = bind m G s.
Proof.
  intros H. unfold bind. destruct (m s) as [[a|e] s']; [apply H | reflexivity].
Qed.

Lemma read_struct_contexts {B : Type} (es : list emission)
      (k : list emission -> M state B) (s : state) :
  (readStructBegin ;; vs <- context (receive_all es) ;; readStructEnd ;; k vs) s
  = (vs <- contexts (read_elements JSONPairContext es) ;; k vs) s.
Proof.
  unfold read_elements, readStructBegin, readStructEnd, context.
  change new_TJSONPairContext with (fresh JSONPairContext).
  rewrite contexts_bind. apply bind_ext. intros [] s1.
  rewrite contexts_bind. apply bind_ext. intros vs s2.
  rewrite contexts_bind. apply bind_ext. intros [] s3.
  now rewrite contexts_ret.
Qed.

Lemma contexts_buffered {A : Type} (m : M channel A) msg f buf b st bc
      (v : A) (ch' : channel) :
  m (mkChannel bc buf) = (Ok v, ch') ->
  contexts m (mkState RW_BUFFERED msg f buf b st bc)
  = (Ok v, mkState RW_BUFFERED msg f (bytes_ ch') b st (stack_ ch')).
Proof.
  intros E. unfold contexts, zoom. cbn [mode_ buffer_contexts_ buffer_].
  now rewrite E.
Qed.

Lemma envelope_of_call (name : string) (seqid : Z) (body : string) :
  rpc_envelope name T_CALL seqid body
  = envelope_of [Version; Method name; Params body; Id seqid].
Proof.
  unfold rpc_envelope, envelope_of, members_text, member_text, emission_text,
    quoted, str1, kJSONRPCName, kJSONRPCVersion, kJSONRPCMethod,
    kJSONRPCParams, kJSONRPCId.
  generalize (json_escape name) (lexical_cast_string seqid). intros A B.
  cbn. repeat (rewrite !append_assoc; cbn [append]). reflexivity.
Qed.

Lemma envelope_of_oneway (name : string) (seqid : Z) (body : string) :
  rpc_envelope name T_ONEWAY seqid body
  = envelope_of [Version; Method name; Params body].
Proof.
  unfold rpc_envelope, envelope_of, members_text, member_text, emission_text,
    quoted, str1, kJSONRPCName, kJSONRPCVersion, kJSONRPCMethod,
    kJSONRPCParams, kJSONRPCId.
  generalize (json_escape name). intros A.
  cbn. repeat (rewrite !append_assoc; cbn [append]). reflexivity.
Qed.

Lemma envelope_of_reply (name : string) (seqid : Z) (body : string) :
  rpc_envelope name T_REPLY seqid body
  = envelope_of [Version; Result body; Id seqid].
Proof.
  unfold rpc_envelope, envelope_of, members_text, member_text, emission_text,
    quoted, str1, kJSONRPCName, kJSONRPCVersion, kJSONRPCResult, kJSONRPCId.
  generalize (lexical_cast_string seqid). intros B.
  cbn. repeat (rewrite !append_assoc; cbn [append]). reflexivity.
Qed.

Lemma readMessageBegin_written (name : string) (mt : TMessageType)
      (seqid : Z) (body rest : string) :
  In mt [T_CALL; T_ONEWAY; T_REPLY] ->
  (- 2 ^ 31 <= seqid < 2 ^ 31)%Z ->
  whole_object body ->
  exists msg f,
    readMessageBegin (init (rpc_envelope name mt seqid body ++ rest))
    = (Ok (match mt with T_REPLY => "" | _ => remove_nul name end, mt,
           match mt with T_ONEWAY => 0%Z | _ => seqid end),
       mkState RW_BUFFERED msg f body rest new_TJSONContextStack
               new_TJSONContextStack).
Proof.
  intros Hmt Hseq Hbody. cbn [In] in Hmt.
  destruct Hmt as [<-|[<-|[<-|[]]]];
    rewrite ?envelope_of_call, ?envelope_of_oneway, ?envelope_of_reply;
    unfold readMessageBegin;
    match goal with
    | |- context [envelope_of ?ms] =>
        assert (Hok : Forall member_ok ms)
          by (repeat (apply Forall_cons || apply Forall_nil);
              cbn [member_ok]; trivial);
        rewrite (bind_ok _ _ _ _ _ (readMessageBegin_scan_run ms rest Hok))
    end;
    eexists _, _; cbn; reflexivity.
Qed.

(** X26.  A call, a oneway call or a reply whose body is a struct of numbers and
    strings without braces, written by the protocol, is read back by it:
    the header returns the method (for a reply, the empty name), the type
    and the id (for a oneway call, zero), and the struct, captured in the
    buffer, is then read from the buffer; afterwards the flags and the
    buffer are reset, the protocol is back on its transport, and the bytes
    after the message are still there. *)
Theorem rpc_roundtrip (name : string) (mt : TMessageType) (seqid : Z)
        (es : list emission) (rest : string) :
  In mt [T_CALL; T_ONEWAY; T_REPLY] ->
  (- 2 ^ 31 <= seqid < 2 ^ 31)%Z ->
  Forall (numbers_fit 64) es ->
  brace_free (emissions_text JSONPairContext 0 es) = true ->
  (N.of_nat (String.length (emissions_text JSONPairContext 0 es)) + 1
   < UINT32_MAX)%N ->
  let wire := rpc_wire_of (rpc_send name mt seqid es) in
  let s := final (rpc_receive es) (init (wire ++ rest)) in
  outcome (rpc_receive es) (init (wire ++ rest))
  = Ok (match mt with T_REPLY => "" | _ => remove_nul name end, mt,
        match mt with T_ONEWAY => 0%Z | _ => seqid end,
        map received es) /\
  ptrans_ s = rest /\ buffer_ s = "" /\ flags_ s = JSONRPC_UNSET /\
  mode_ s = RW_TRANSPORT.
Proof.
  intros Hmt Hseq Hfit Hfree Hlen wire s.
  assert (Hmt' : In mt [T_CALL; T_REPLY; T_EXCEPTION; T_ONEWAY])
    by (cbn in *; tauto).
  destruct (RPCWire.rpc_send_run name mt seqid es "" Hmt') as [msg0 Esend].
  assert (Hw : wire = rpc_envelope name mt seqid (struct_text es)).
  { unfold wire, rpc_wire_of, final. now rewrite Esend. }
  destruct (readMessageBegin_written name mt seqid (struct_text es) rest
              Hmt Hseq (struct_text_whole es Hfree Hlen))
    as (msg & f & Ebegin).
  destruct (read_elements_run JSONPairContext JSONContext 0 es
              (mkChannel new_TJSONContextStack (struct_text es)) ""
              ltac:(discriminate) Hfit eq_refl eq_refl)
    as (p & Eread & _ & _).
  { reflexivity. }
  assert (E : rpc_receive es (init (wire ++ rest))
              = (Ok (match mt with T_REPLY => "" | _ => remove_nul name end,
                     mt, match mt with T_ONEWAY => 0%Z | _ => seqid end,
                     map received es),
                 mkState RW_TRANSPORT msg JSONRPC_UNSET "" rest
                         new_TJSONContextStack (mkStack p []))).
  { unfold rpc_receive. rewrite Hw, (bind_ok _ _ _ _ _ Ebegin).
    rewrite read_struct_contexts.
    rewrite (bind_ok _ _ _ _ _ (contexts_buffered _ _ _ _ _ _ _ _ _ Eread)).
    reflexivity. }
  unfold s, outcome, final. rewrite E. cbn. repeat split.
Qed.

Lemma rpc_roundtrip_witness :
  let es := [Text "name"; Text "Janky"; Text "count"; Number 100] in
  let wire := rpc_wire_of (rpc_send "Janky" T_CALL 1 es) in
  let s := final (rpc_receive es) (init (wire ++ "")) in
  outcome (rpc_receive es) (init (wire ++ ""))
  = Ok ("Janky", T_CALL, 1%Z, es) /\
  ptrans_ s = "" /\ buffer_ s = "".
Proof.
  pose proof (rpc_roundtrip "Janky" T_CALL 1
                [Text "name"; Text "Janky"; Text "count"; Number 100] ""
                ltac:(cbn; tauto) ltac:(lia)
                ltac:(repeat constructor; cbn; lia)
                eq_refl ltac:(vm_compute; reflexivity)) as H.
  cbv zeta in H. destruct H as (Hout & Hp & Hb & _).
  exact (conj Hout (conj Hp Hb)).
Defined.

(** *** Envelopes that are refused *)

Lemma readJSONRPCField_unknown (key rest : string) (n fuel : nat)
      msg f buf io cs bc :
  ~ In (remove_nul key)
       [kJSONRPCName; kJSONRPCMethod; kJSONRPCId; kJSONRPCParams;
        kJSONRPCResult; kJSONRPCError; kJSONRPCCode; kJSONRPCMessage;
        kJSONRPCData] ->
  control io = control_at JSONPairContext n ->
  pending io = emission_text JSONPairContext n (Text key) ++ rest ->
  outcome (readJSONRPCField (S fuel)) (rpc_state msg f buf io cs bc)
  = Err INVALID_DATA.
Proof.
  intros Hout Hctl Hp.
  destruct (readString_pending JSONPairContext n io _ _ Hctl Hp)
    as (io1 & E1 & Hp1 & Hc1).
  unfold outcome. cbn [readJSONRPCField]. unfold readString at 1.
  rewrite (bind_ok _ _ _ _ _ (context_run _ _ _ _ _ _ _ _ _ E1)).
  cbn [In] in Hout.
  repeat match goal with
         | |- context [String.eqb (remove_nul key) ?name] =>
             destruct (String.eqb_spec (remove_nul key) name) as [e|_];
             [symmetry in e; tauto|]
         end.
  reflexivity.
Qed.

Lemma readJSONRPCField_version (v rest : string) (n fuel : nat)
      msg f buf io cs bc :
  remove_nul v <> kJSONRPCVersion ->
  control io = control_at JSONPairContext n ->
  pending io = emission_text JSONPairContext n (Text kJSONRPCName)
               ++ emission_text JSONPairContext (S n) (Text v) ++ rest ->
  outcome (readJSONRPCField (S fuel)) (rpc_state msg f buf io cs bc)
  = Err BAD_VERSION.
Proof.
  intros Hv Hctl Hp.
  destruct (readString_pending JSONPairContext n io _ _ Hctl Hp)
    as (io1 & E1 & Hp1 & Hc1).
  destruct (readString_pending JSONPairContext (S n) io1 _ _ Hc1 Hp1)
    as (io2 & E2 & Hp2 & Hc2).
  unfold outcome. cbn [readJSONRPCField]. unfold readString at 1.
  rewrite (bind_ok _ _ _ _ _ (context_run _ _ _ _ _ _ _ _ _ E1)).
  eval_eqb. unfold readString at 1.
  rewrite (bind_ok _ _ _ _ _ (context_run _ _ _ _ _ _ _ _ _ E2)).
  apply String.eqb_neq in Hv. now rewrite Hv.
Qed.

Lemma readMessageBegin_first_member (text : string) (c : ascii)
      (t : string) (e : error) :
  text = String c t -> c <> kJSONObjectEnd ->
  (forall fuel msg f buf io cs bc,
      control io = control_at JSONPairContext 0 ->
      pending io = text ->
      outcome (readJSONRPCField (S fuel)) (rpc_state msg f buf io cs bc)
      = Err e) ->
  outcome readMessageBegin (init (String "{" text)) = Err e.
Proof.
  intros Htext Hne Hfield.
  unfold outcome, readMessageBegin, readMessageBegin_scan, init,
    resetBuffer, set_buffer, set_mode, set_flags.
  repeat (first [rewrite bind_assoc | rewrite RPCWire.bind_modify];
          cbv beta).
  cbn [mode_ message_ flags_ buffer_ ptrans_ transport_contexts_
       buffer_contexts_].
  assert (Ebegin :
            readStructBegin
              (mkState RW_TRANSPORT (mkMessage "" 0 0 "") JSONRPC_UNSET ""
                       (String "{" text) new_TJSONContextStack
                       new_TJSONContextStack)
            = (Ok tt,
               rpc_state (mkMessage "" 0 0 "") JSONRPC_UNSET ""
                         (mkIO (context_at JSONPairContext 0
                                           (mkReader false "{")) text)
                         [new_TJSONContext] new_TJSONContextStack))
    by reflexivity.
  rewrite (bind_ok _ _ _ _ _ Ebegin).
  repeat (first [rewrite bind_assoc | rewrite RPCWire.bind_get]; cbv beta).
  unfold wire_fuel at 1.
  cbn [readMessageBegin_fields].
  set (io := mkIO _ text).
  assert (Hp : pending io = String c t) by (unfold io; now rewrite <- Htext).
  destruct (reader_peek_pending io _ _ Hp) as (io1 & E1 & Hp1 & Hc1).
  repeat (rewrite bind_assoc; cbv beta).
  rewrite (bind_ok _ _ _ _ _ (context_run _ _ _ _ _ _ _ _ _ E1)).
  apply Ascii.eqb_neq in Hne. rewrite Hne.
  repeat (first [rewrite bind_assoc | rewrite RPCWire.bind_get]; cbv beta).
  unfold wire_fuel at 1.
  match goal with
  | |- fst (bind (readJSONRPCField (S ?fu)) ?K ?st) = _ =>
      assert (Hbad : outcome (readJSONRPCField (S fu)) st = Err e)
        by (apply Hfield; [rewrite Hc1; reflexivity | congruence]);
      unfold outcome in Hbad; unfold bind at 1;
      destruct (readJSONRPCField (S fu) st) as [[u|e'] s1]
  end; cbn in Hbad |- *; [discriminate Hbad | now injection Hbad as ->].
Qed.

(** X27.  An envelope whose first member has a key that is not one of the nine
    names the protocol knows is refused with [INVALID_DATA], whatever
    follows the key. *)
Theorem readMessageBegin_unknown_member (key tail : string) :
  ~ In (remove_nul key)
       [kJSONRPCName; kJSONRPCMethod; kJSONRPCId; kJSONRPCParams;
        kJSONRPCResult; kJSONRPCError; kJSONRPCCode; kJSONRPCMessage;
        kJSONRPCData] ->
  outcome readMessageBegin
          (init (String "{" (quoted (json_escape key) ++ tail)))
  = Err INVALID_DATA.
Proof.
  intros Hout.
  apply (readMessageBegin_first_member _ kJSONStringDelimiter
           (json_escape key ++ String kJSONStringDelimiter tail)).
  - unfold quoted, str1. cbn [append]. now rewrite append_assoc.
  - discriminate.
  - intros fuel msg f buf io cs bc Hctl Hp.
    apply (readJSONRPCField_unknown key tail 0); assumption.
Qed.

Lemma readMessageBegin_unknown_member_witness :
  outcome readMessageBegin
          (init (String "{" (quoted (json_escape "Method") ++ ":1}")))
  = Err INVALID_DATA.
Proof.
  apply (readMessageBegin_unknown_member "Method" ":1}").
  cbn. intros H. repeat destruct H as [H|H]; try discriminate H; exact H.
Defined.

(** X28.  An envelope that begins with the member [jsonrpc] and any other value
    than [2.0] is refused with [BAD_VERSION]. *)
Theorem readMessageBegin_bad_version (v tail : string) :
  remove_nul v <> kJSONRPCVersion ->
  outcome readMessageBegin
          (init (String "{" (quoted "jsonrpc" ++ ":"
                             ++ quoted (json_escape v) ++ tail)))
  = Err BAD_VERSION.
Proof.
  intros Hv.
  apply (readMessageBegin_first_member _ kJSONStringDelimiter
           ("jsonrpc" ++ String kJSONStringDelimiter
              (":" ++ quoted (json_escape v) ++ tail))).
  - unfold quoted, str1. cbn [append]. reflexivity.
  - discriminate.
  - intros fuel msg f buf io cs bc Hctl Hp.
    apply (readJSONRPCField_version v tail 0); assumption.
Qed.

Lemma readMessageBegin_bad_version_witness :
  outcome readMessageBegin
          (init (String "{" (quoted "jsonrpc" ++ ":"
                             ++ quoted (json_escape "1.0") ++ "}")))
  = Err BAD_VERSION.
Proof.
  apply (readMessageBegin_bad_version "1.0" "}").
  discriminate.
Defined.

End RPCRead.
